(** * The resumable crawler of chatbot_system, embedded in Rocq

    Shallow embedding of [scraper/utils.py], [scraper/href_parser.py] and
    [scraper/controller.py].

    - Python [str] is [string]: a text is the sequence of its UTF-8
      bytes, which the comparisons, the searches and the splittings of
      the code do not tell from the characters.  [str.lower] changes the
      ASCII letters only, as it does on an ASCII text: what is proved of
      the value of a key through [lower] is stated for ASCII URLs
      ([isascii]).
    - [dict]s looked up by key are [gmap]s; the frontier
      ([relevant_links]), whose iteration order drives a wave, is an
      insertion-ordered association list; [set]s are [gset]s.
    - Exceptions are a [result]; the crawler itself runs in a state and
      exception monad over the shared crawl state, so that what a
      collaborator wrote before it raised stays written.
    - The outside world (HTTP server, browser, clock) is a record of
      oracles, asked with the number of interactions made so far: the
      same URL may answer differently at different times. *)

From Stdlib Require Import Ascii DecimalString.
From stdpp Require Import base strings list sorting gmap sets.


(** ** Exceptions *)

Inductive exn : Type :=
  | ValueError (msg : string)
  | AttributeError (msg : string)
  | RequestException (msg : string)
  | WebDriverException (msg : string).

Inductive result (A : Type) : Type :=
  | Ok (a : A)
  | Raise (e : exn).
Arguments Ok {A} a.
Arguments Raise {A} e.

Global Instance result_ret : MRet result := λ A a, Ok a.
Global Instance result_bind : MBind result := λ A B k r,
  match r with
  | Ok a => k a
  | Raise e => Raise e
  end.
Global Instance result_fmap : FMap result := λ A B f r,
  match r with
  | Ok a => Ok (f a)
  | Raise e => Raise e
  end.

Definition is_ok {A} (r : result A) : bool :=
  match r with Ok _ => true | Raise _ => false end.

(** ** Python [str] primitives *)

Module PyStr.

Definition chr_eqb (a b : ascii) : bool := Ascii.eqb a b.

Definition is_upper (c : ascii) : bool :=
  let n := nat_of_ascii c in (65 <=? n) && (n <=? 90).
Definition is_lower (c : ascii) : bool :=
  let n := nat_of_ascii c in (97 <=? n) && (n <=? 122).
Definition is_alpha (c : ascii) : bool := is_upper c || is_lower c.
Definition is_digit (c : ascii) : bool :=
  let n := nat_of_ascii c in (48 <=? n) && (n <=? 57).

Definition lower_char (c : ascii) : ascii :=
  if is_upper c then ascii_of_nat (nat_of_ascii c + 32) else c.

Fixpoint map (f : ascii → ascii) (s : string) : string :=
  match s with
  | EmptyString => EmptyString
  | String c s' => String (f c) (map f s')
  end.

Fixpoint forallb (f : ascii → bool) (s : string) : bool :=
  match s with
  | EmptyString => true
  | String c s' => f c && forallb f s'
  end.

(** [c in s] for a character. *)
Fixpoint mem (c : ascii) (s : string) : bool :=
  match s with
  | EmptyString => false
  | String a s' => chr_eqb a c || mem c s'
  end.

(** Truthiness of a string: [bool(s)]. *)
Definition truthy (s : string) : bool :=
  match s with EmptyString => false | _ => true end.

(** [s.lower()] for an ASCII text; beyond ASCII the characters are left
    as they are. *)
Definition lower (s : string) : string := map lower_char s.

(** [s.startswith(p)] *)
Fixpoint startswith (p s : string) : bool :=
  match p, s with
  | EmptyString, _ => true
  | String a p', String b s' => chr_eqb a b && startswith p' s'
  | String _ _, EmptyString => false
  end.

(** [s.endswith(suf)] *)
Fixpoint endswith (suf s : string) : bool :=
  String.eqb s suf ||
  match s with
  | EmptyString => false
  | String _ s' => endswith suf s'
  end.

(** [needle in hay] *)
Fixpoint contains (needle hay : string) : bool :=
  startswith needle hay ||
  match hay with
  | EmptyString => false
  | String _ hay' => contains needle hay'
  end.

(** [s.replace(a, b)] for single characters. *)
Definition replace (a b : ascii) (s : string) : string :=
  map (λ c, if chr_eqb c a then b else c) s.

(** [s.rstrip(c)] for a single character. *)
Fixpoint rstrip (c : ascii) (s : string) : string :=
  match s with
  | EmptyString => EmptyString
  | String a s' =>
      match rstrip c s' with
      | EmptyString => if chr_eqb a c then EmptyString else String a EmptyString
      | r => String a r
      end
  end.

(** [s.lstrip(chars)], the characters given by a predicate. *)
Fixpoint lstrip (f : ascii → bool) (s : string) : string :=
  match s with
  | EmptyString => EmptyString
  | String a s' => if f a then lstrip f s' else s
  end.

(** Removes every character satisfying [f]. *)
Fixpoint remove (f : ascii → bool) (s : string) : string :=
  match s with
  | EmptyString => EmptyString
  | String a s' => if f a then remove f s' else String a (remove f s')
  end.

(** [s.split(c, 1)] when [c in s]: the text before and after the first
    [c]; [None] when [c] does not occur. *)
Fixpoint partition (c : ascii) (s : string) : option (string * string) :=
  match s with
  | EmptyString => None
  | String a s' =>
      if chr_eqb a c then Some (EmptyString, s')
      else match partition c s' with
           | Some (l, r) => Some (String a l, r)
           | None => None
           end
  end.

(** [s.rsplit(c, 1)] when [c in s]: the text before and after the last
    [c]. *)
Fixpoint rpartition (c : ascii) (s : string) : option (string * string) :=
  match s with
  | EmptyString => None
  | String a s' =>
      match rpartition c s' with
      | Some (l, r) => Some (String a l, r)
      | None => if chr_eqb a c then Some (EmptyString, s') else None
      end
  end.

(** The longest prefix without a character satisfying [f], and the rest. *)
Fixpoint span_until (f : ascii → bool) (s : string) : string * string :=
  match s with
  | EmptyString => (EmptyString, EmptyString)
  | String a s' =>
      if f a then (EmptyString, s)
      else let '(l, r) := span_until f s' in (String a l, r)
  end.

Definition cons_head (a : ascii) (l : list string) : list string :=
  match l with
  | [] => [String a EmptyString]
  | x :: xs => String a x :: xs
  end.

(** [s.split(c)] for a single character. *)
Fixpoint split (c : ascii) (s : string) : list string :=
  match s with
  | EmptyString => [EmptyString]
  | String a s' =>
      if chr_eqb a c then EmptyString :: split c s'
      else cons_head a (split c s')
  end.

(** [s.split(sep)] for a non-empty separator: occurrences are found
    from the left and do not overlap.  [skip] counts the characters of
    the current occurrence still to be passed over. *)
Fixpoint split_go (sep : string) (skip : nat) (s : string) : list string :=
  match s with
  | EmptyString => [EmptyString]
  | String a s' =>
      match skip with
      | S k => split_go sep k s'
      | O =>
          if startswith sep s
          then match String.length sep with
               | S (S k) => EmptyString :: split_go sep (S k) s'
               | _ => EmptyString :: split_go sep 0 s'
               end
          else cons_head a (split_go sep 0 s')
      end
  end.
Definition split_str (sep s : string) : list string := split_go sep 0 s.

(** [sep.join(l)] *)
Fixpoint join (sep : string) (l : list string) : string :=
  match l with
  | [] => EmptyString
  | [x] => x
  | x :: xs => x +:+ sep +:+ join sep xs
  end.

(** [str(n)] for a natural number. *)
Definition of_nat (n : nat) : string :=
  NilEmpty.string_of_uint (Nat.to_uint n).

(** [c.isascii()] and [s.isascii()] *)
Definition is_ascii_char (c : ascii) : bool := nat_of_ascii c <? 128.
Definition isascii (s : string) : bool := forallb is_ascii_char s.

(** The value of a hexadecimal digit. *)
Definition hex_value (c : ascii) : option nat :=
  let n := nat_of_ascii c in
  if is_digit c then Some (n - 48)
  else if (65 <=? n) && (n <=? 70) then Some (n - 55)
  else if (97 <=? n) && (n <=? 102) then Some (n - 87)
  else None.

Definition is_hex_digit (c : ascii) : bool :=
  match hex_value c with Some _ => true | None => false end.

(** [int(s, base)] for a string of digits of that base. *)
Fixpoint int_of_digits (base : N) (acc : N) (s : string) : N :=
  match s with
  | EmptyString => acc
  | String c s' =>
      int_of_digits base
        (acc * base + N.of_nat (default 0%nat (hex_value c)))%N s'
  end.

Definition lower_hex_digit (n : nat) : ascii :=
  if n <? 10 then ascii_of_nat (48 + n) else ascii_of_nat (87 + n).

(** ['%x' % n] for [n < 0x10000]. *)
Definition hex_of_hextet (n : N) : string :=
  let n := N.to_nat n in
  let digits :=
    String (lower_hex_digit (n / 4096))
      (String (lower_hex_digit (n / 256 mod 16))
         (String (lower_hex_digit (n / 16 mod 16)) EmptyString)) in
  lstrip (λ c, chr_eqb c "0") digits
  +:+ String (lower_hex_digit (n mod 16)) EmptyString.

(** The double quote. *)
Definition dquote : ascii := ascii_of_nat 34.

(** [repr(s)].  Characters beyond ASCII are written as they are, which
    is what [repr] does with the printable ones. *)
Definition repr_char (quote c : ascii) : string :=
  let n := nat_of_ascii c in
  if chr_eqb c quote || chr_eqb c "\" then String "\" (String c EmptyString)
  else if n =? 9 then "\t"
  else if n =? 10 then "\n"
  else if n =? 13 then "\r"
  else if (n <? 32) || (n =? 127)
  then String "\" (String "x" (String (lower_hex_digit (n / 16))
                      (String (lower_hex_digit (n mod 16)) EmptyString)))
  else String c EmptyString.

Fixpoint repr_chars (quote : ascii) (s : string) : string :=
  match s with
  | EmptyString => EmptyString
  | String c s' => repr_char quote c +:+ repr_chars quote s'
  end.

Definition repr (s : string) : string :=
  let quote := if mem "'" s && negb (mem dquote s) then dquote else "'"%char in
  String quote (repr_chars quote s) +:+ String quote EmptyString.

(** [bytes.decode('utf-8', 'replace')], on the UTF-8 bytes of the text
    it returns: what is no UTF-8 character is replaced by U+FFFD, as the
    decoder of CPython does it.  [utf8_head s] tells whether [s] starts
    with a character, and how many bytes make that character or the
    error: one byte for an invalid start byte, the bytes before an invalid
    continuation byte, or all the bytes left when the text ends inside a
    character. *)
Definition is_continuation_byte (c : ascii) : bool :=
  let n := nat_of_ascii c in (128 <=? n) && (n <? 192).

Definition utf8_head (s : string) : bool * nat :=
  match s with
  | EmptyString => (true, 0)
  | String c s1 =>
      let ch := nat_of_ascii c in
      if ch <? 128 then (true, 1)
      else if ch <? 194 then (false, 1)
      else if ch <? 224 then
        match s1 with
        | EmptyString => (false, 1)
        | String c2 _ => if is_continuation_byte c2 then (true, 2) else (false, 1)
        end
      else if ch <? 240 then
        match s1 with
        | EmptyString => (false, 1)
        | String c2 s2 =>
            if negb (is_continuation_byte c2)
               || (if nat_of_ascii c2 <? 160 then ch =? 224 else ch =? 237)
            then (false, 1)
            else match s2 with
                 | EmptyString => (false, 2)
                 | String c3 _ =>
                     if is_continuation_byte c3 then (true, 3) else (false, 2)
                 end
        end
      else if ch <? 245 then
        match s1 with
        | EmptyString => (false, 1)
        | String c2 s2 =>
            if negb (is_continuation_byte c2)
               || (if nat_of_ascii c2 <? 144 then ch =? 240 else ch =? 244)
            then (false, 1)
            else match s2 with
                 | EmptyString => (false, 2)
                 | String c3 s3 =>
                     if negb (is_continuation_byte c3) then (false, 2)
                     else match s3 with
                          | EmptyString => (false, 3)
                          | String c4 _ =>
                              if is_continuation_byte c4 then (true, 4)
                              else (false, 3)
                          end
                 end
        end
      else (false, 1)
  end.

(** U+FFFD in UTF-8. *)
Definition replacement_character : string :=
  String (ascii_of_nat 239)
    (String (ascii_of_nat 191) (String (ascii_of_nat 189) EmptyString)).

(** [pending] counts the bytes still to be passed of the character
    ([keep]) or of the error at hand. *)
Fixpoint decode_utf8_go (keep : bool) (pending : nat) (s : string) : string :=
  match s with
  | EmptyString => EmptyString
  | String c s' =>
      match pending with
      | S k =>
          if keep then String c (decode_utf8_go keep k s')
          else decode_utf8_go keep k s'
      | O =>
          let '(valid, len) := utf8_head s in
          if valid then String c (decode_utf8_go true (len - 1) s')
          else replacement_character +:+ decode_utf8_go false (len - 1) s'
      end
  end.

Definition decode_utf8_replace (s : string) : string :=
  decode_utf8_go true 0 s.

(** The maximal runs of ASCII characters and of other characters of a
    text, in order, each with whether it is one of ASCII characters. *)
Fixpoint ascii_runs (s : string) : list (bool * string) :=
  match s with
  | EmptyString => []
  | String c s' =>
      match ascii_runs s' with
      | (b, run) :: runs =>
          if Bool.eqb b (is_ascii_char c) then (b, String c run) :: runs
          else (is_ascii_char c, String c EmptyString) :: (b, run) :: runs
      | [] => [(is_ascii_char c, String c EmptyString)]
      end
  end.

End PyStr.

(** ** [ipaddress]

    What [ipaddress.ip_address] of CPython 3.11 makes of a string: an
    IPv4 address, an IPv6 address (with its scope) or [ValueError]. *)

Module IpAddress.
Import PyStr.

Inductive ip : Type :=
  | IPv4 (ip_int : N)
  | IPv6 (ip_int : N) (scope_id : option string).

(** [_BaseV4._parse_octet(octet_str)]; [None] for [ValueError]. *)
Definition parse_octet (octet_str : string) : option N :=
  if negb (truthy octet_str) then None
  else if negb (isascii octet_str && forallb is_digit octet_str) then None
  else if 3 <? String.length octet_str then None
  else if negb (String.eqb octet_str "0") && startswith "0" octet_str then None
  else
    let octet_int := int_of_digits 10 0 octet_str in
    if (255 <? octet_int)%N then None else Some octet_int.

(** [int.from_bytes(octets, 'big')] *)
Definition int_from_bytes (octets : list N) : N :=
  fold_left (λ acc o, acc * 256 + o)%N octets 0%N.

(** [_BaseV4._ip_int_from_string(ip_str)]; [None] for
    [AddressValueError]. *)
Definition ipv4_int_from_string (ip_str : string) : option N :=
  if negb (truthy ip_str) then None
  else
    let octets := split "." ip_str in
    if negb (length octets =? 4) then None
    else int_from_bytes <$> mapM parse_octet octets.

(** [IPv4Address(address)._ip] *)
Definition IPv4Address (address : string) : option N :=
  if mem "/" address then None else ipv4_int_from_string address.

(** [_BaseV6._parse_hextet(hextet_str)]; [int('', 16)] is a
    [ValueError] too. *)
Definition parse_hextet (hextet_str : string) : option N :=
  if negb (forallb is_hex_digit hextet_str) then None
  else if 4 <? String.length hextet_str then None
  else if negb (truthy hextet_str) then None
  else Some (int_of_digits 16 0 hextet_str).

(** The loop of [_ip_int_from_string] that looks for the one [::]: the
    parts but the first and the last, from index [i]. *)
Fixpoint find_skip_index (middle : list string) (i : nat)
    (skip_index : option nat) : option (option nat) :=
  match middle with
  | [] => Some skip_index
  | part :: middle' =>
      if negb (truthy part) then
        match skip_index with
        | Some _ => None
        | None => find_skip_index middle' (S i) (Some i)
        end
      else find_skip_index middle' (S i) skip_index
  end.

(** [ip_int <<= 16; ip_int |= hextet] over the hextets. *)
Definition shift_hextets (ip_int : N) (hextets : list N) : N :=
  fold_left (λ acc h, acc * 65536 + h)%N hextets ip_int.

(** [_BaseV6._ip_int_from_string(ip_str)]; [None] for
    [AddressValueError]. *)
Definition ipv6_int_from_string (ip_str : string) : option N :=
  if negb (truthy ip_str) then None
  else
    let parts := split ":" ip_str in
    if length parts <? 3 then None
    else
      parts ← (if mem "." (List.last parts EmptyString) then
                 ipv4_int ← IPv4Address (List.last parts EmptyString);
                 Some (removelast parts
                       ++ [hex_of_hextet (ipv4_int / 65536 mod 65536)%N;
                           hex_of_hextet (ipv4_int mod 65536)%N])
               else Some parts);
      if 9 <? length parts then None
      else
        skip_index ← find_skip_index (removelast (tail parts)) 1 None;
        '(parts_hi, parts_lo, parts_skipped) ←
          match skip_index with
          | Some skip_index =>
              let parts_hi := skip_index in
              let parts_lo := length parts - skip_index - 1 in
              parts_hi ← (if negb (truthy (hd EmptyString parts)) then
                            if negb (parts_hi - 1 =? 0) then None
                            else Some (parts_hi - 1)
                          else Some parts_hi);
              parts_lo ← (if negb (truthy (List.last parts EmptyString)) then
                            if negb (parts_lo - 1 =? 0) then None
                            else Some (parts_lo - 1)
                          else Some parts_lo);
              if 8 <=? parts_hi + parts_lo then None
              else Some (parts_hi, parts_lo, 8 - (parts_hi + parts_lo))
          | None =>
              if negb (length parts =? 8) then None
              else if negb (truthy (hd EmptyString parts)) then None
              else if negb (truthy (List.last parts EmptyString)) then None
              else Some (length parts, 0, 0)
          end;
        hi ← mapM parse_hextet (take parts_hi parts);
        lo ← mapM parse_hextet (drop (length parts - parts_lo) parts);
        Some (shift_hextets
                (shift_hextets 0 hi * 65536 ^ N.of_nat parts_skipped)%N lo).

(** [IPv6Address._split_scope_id(ip_str)] *)
Definition split_scope_id (ip_str : string) : option (string * option string) :=
  match partition "%" ip_str with
  | None => Some (ip_str, None)
  | Some (addr, scope_id) =>
      if negb (truthy scope_id) || mem "%" scope_id then None
      else Some (addr, Some scope_id)
  end.

(** [IPv6Address(address)]: its [_ip] and [_scope_id]. *)
Definition IPv6Address (address : string) : option (N * option string) :=
  if mem "/" address then None
  else
    '(addr_str, scope_id) ← split_scope_id address;
    ip_int ← ipv6_int_from_string addr_str;
    Some (ip_int, scope_id).

(** [ip_address(address)] for a string. *)
Definition ip_address (address : string) : result ip :=
  match IPv4Address address with
  | Some ip_int => Ok (IPv4 ip_int)
  | None =>
      match IPv6Address address with
      | Some (ip_int, scope_id) => Ok (IPv6 ip_int scope_id)
      | None =>
          Raise (ValueError
                   (repr address
                    +:+ " does not appear to be an IPv4 or IPv6 address"))
      end
  end.

End IpAddress.

(** ** [urllib.parse]

    The functions of the Python standard library that [utils.py] calls,
    after CPython 3.11: [urlsplit] with its checks of the network
    location, [urlparse], [urlunparse], [urljoin], [parse_qsl],
    [urlencode]. *)

Module UrlLib.
Import PyStr IpAddress.

(** [urllib.parse.ParseResult] *)
Record ParseResult : Type := mkParseResult {
  scheme : string;
  netloc : string;
  path : string;
  params : string;
  query : string;
  fragment : string
}.

Definition str_in_list (s : string) (l : list string) : bool :=
  bool_decide (s ∈ l).

Definition uses_relative : list string :=
  [""; "ftp"; "http"; "gopher"; "nntp"; "imap"; "wais"; "file"; "https";
   "shttp"; "mms"; "prospero"; "rtsp"; "rtspu"; "sftp"; "svn"; "svn+ssh";
   "ws"; "wss"].
Definition uses_netloc : list string :=
  [""; "ftp"; "http"; "gopher"; "nntp"; "telnet"; "imap"; "wais"; "file";
   "mms"; "https"; "shttp"; "snews"; "prospero"; "rtsp"; "rtspu"; "rsync";
   "svn"; "svn+ssh"; "sftp"; "nfs"; "git"; "git+ssh"; "ws"; "wss"].
Definition uses_params : list string :=
  [""; "ftp"; "hdl"; "prospero"; "http"; "imap"; "https"; "shttp"; "rtsp";
   "rtspu"; "sip"; "sips"; "mms"; "sftp"; "tel"].

Definition scheme_chars (c : ascii) : bool :=
  is_alpha c || is_digit c || mem c "+-.".

(** C0 control characters and the space. *)
Definition c0_control_or_space (c : ascii) : bool := nat_of_ascii c <=? 32.
(** Tab, line feed and carriage return. *)
Definition unsafe_url_byte (c : ascii) : bool :=
  let n := nat_of_ascii c in (n =? 9) || (n =? 10) || (n =? 13).

(** The scheme, when the text before the first [:] is one. *)
Definition split_scheme (default : string) (url : string) : string * string :=
  match partition ":" url with
  | Some (String a pre, rest) =>
      if is_alpha a && forallb scheme_chars (String a pre)
      then (lower (String a pre), rest)
      else (default, url)
  | _ => (default, url)
  end.

(** [_splitnetloc(url, 2)] applied to a [url] that starts with [//]. *)
Definition splitnetloc (url : string) : string * string :=
  match url with
  | String _ (String _ rest) => span_until (λ c, mem c "/?#") rest
  | _ => (EmptyString, url)
  end.

Definition split_at (c : ascii) (url : string) : string * string :=
  match partition c url with
  | Some (l, r) => (l, r)
  | None => (url, EmptyString)
  end.

(** The characters whose NFKC form holds one of [/ ? # @ :] (Unicode
    14.0.0, the version of CPython 3.11): U+2047, U+2048, U+2049, U+2100,
    U+2101, U+2105, U+2106, U+2A74, U+FE13, U+FE16, U+FE55, U+FE56,
    U+FE5F, U+FE6B, U+FF03, U+FF0F, U+FF1A, U+FF1F, U+FF20. *)
Definition nfkc_unsafe : list string :=
  ["⁇"; "⁈"; "⁉"; "℀"; "℁"; "℅"; "℆"; "⩴"; "︓"; "︖";
   "﹕"; "﹖"; "﹟"; "﹫"; "＃"; "／"; "："; "？"; "＠"].

(** [_checknetloc(netloc)].  The source normalizes the network location,
    without its [@ : # ?], to NFKC and raises when the result differs and
    holds one of [/ ? # @ :].  A network location holds no [/]; no
    character is composed of one of the five; so this is to ask whether
    one of the characters above occurs. *)
Definition checknetloc (netloc : string) : result unit :=
  if negb (truthy netloc) || isascii netloc then Ok ()
  else if existsb (λ c, contains c netloc) nfkc_unsafe
  then Raise (ValueError ("netloc '" +:+ netloc +:+
                          "' contains invalid characters under NFKC normalization"))
  else Ok ().

(** [re.match(r"\Av[a-fA-F0-9]+\..+\Z", hostname)] *)
Definition is_ipvfuture (hostname : string) : bool :=
  match hostname with
  | String "v" rest =>
      let '(digits, rest) := span_until (λ c, negb (is_hex_digit c)) rest in
      truthy digits &&
      match rest with
      | String "." tail =>
          truthy tail && negb (mem (ascii_of_nat 10) tail)
      | _ => false
      end
  | _ => false
  end.

(** [_check_bracketed_host(hostname)] *)
Definition check_bracketed_host (hostname : string) : result unit :=
  if startswith "v" hostname then
    if negb (is_ipvfuture hostname)
    then Raise (ValueError "IPvFuture address is invalid")
    else Ok ()
  else
    ip ← ip_address hostname;
    match ip with
    | IPv4 _ => Raise (ValueError "An IPv4 address cannot be in brackets")
    | IPv6 _ _ => Ok ()
    end.

(** [s.rpartition(c)[2]] *)
Definition after_last (c : ascii) (s : string) : string :=
  match rpartition c s with
  | Some (_, r) => r
  | None => s
  end.

(** [_check_bracketed_netloc(netloc)] *)
Definition check_bracketed_netloc (netloc : string) : result unit :=
  let hostname_and_port := after_last "@" netloc in
  match partition "[" hostname_and_port with
  | Some (before_bracket, bracketed) =>
      if truthy before_bracket then Raise (ValueError "Invalid IPv6 URL")
      else
        let '(hostname, port) := split_at "]" bracketed in
        if truthy port && negb (startswith ":" port)
        then Raise (ValueError "Invalid IPv6 URL")
        else check_bracketed_host hostname
  | None =>
      let '(hostname, port) := split_at ":" hostname_and_port in
      check_bracketed_host hostname
  end.

(** [urlsplit(url, scheme)], as a [ParseResult] without [params]. *)
Definition urlsplit (url : string) (default_scheme : string) : result ParseResult :=
  let url := lstrip c0_control_or_space url in
  let default_scheme :=
    String.rev (lstrip c0_control_or_space
      (String.rev (lstrip c0_control_or_space default_scheme))) in
  let url := remove unsafe_url_byte url in
  let default_scheme := remove unsafe_url_byte default_scheme in
  let '(scheme, url) := split_scheme default_scheme url in
  '(netloc, url) ←
    (if startswith "//" url then
       let '(netloc, url) := splitnetloc url in
       if (mem "[" netloc && negb (mem "]" netloc))
          || (mem "]" netloc && negb (mem "[" netloc))
       then Raise (ValueError "Invalid IPv6 URL")
       else
         _ ← (if mem "[" netloc && mem "]" netloc
              then check_bracketed_netloc netloc else Ok ());
         Ok (netloc, url)
     else Ok (EmptyString, url));
  let '(url, fragment) := split_at "#" url in
  let '(url, query) := split_at "?" url in
  _ ← checknetloc netloc;
  Ok (mkParseResult scheme netloc url EmptyString query fragment).

(** [_splitparams(url)] when [';' in url]. *)
Definition splitparams (url : string) : string * string :=
  match rpartition "/" url with
  | Some (dir, last) =>
      match partition ";" last with
      | Some (l, r) => (dir +:+ "/" +:+ l, r)
      | None => (url, EmptyString)
      end
  | None => split_at ";" url
  end.

(** [urlparse(url, scheme)] *)
Definition urlparse_with (url : string) (default_scheme : string)
    : result ParseResult :=
  r ← urlsplit url default_scheme;
  if str_in_list (scheme r) uses_params && mem ";" (path r)
  then let '(url, params) := splitparams (path r) in
       Ok (mkParseResult (scheme r) (netloc r) url params (query r) (fragment r))
  else Ok r.

(** [urlparse(url)] *)
Definition urlparse (url : string) : result ParseResult :=
  urlparse_with url EmptyString.

(** [urlunsplit((scheme, netloc, url, query, fragment))] *)
Definition urlunsplit (scheme netloc url query fragment : string) : string :=
  let url :=
    if truthy netloc
       || (truthy scheme && str_in_list scheme uses_netloc
           && negb (startswith "//" url))
    then
      let url := if truthy url && negb (startswith "/" url)
                 then "/" +:+ url else url in
      "//" +:+ netloc +:+ url
    else url in
  let url := if truthy scheme then scheme +:+ ":" +:+ url else url in
  let url := if truthy query then url +:+ "?" +:+ query else url in
  let url := if truthy fragment then url +:+ "#" +:+ fragment else url in
  url.

(** [urlunparse((scheme, netloc, url, params, query, fragment))] *)
Definition urlunparse (p : ParseResult) : string :=
  let url := if truthy (params p) then path p +:+ ";" +:+ params p
             else path p in
  urlunsplit (scheme p) (netloc p) url (query p) (fragment p).

(** The loop of [urljoin] over the path segments. *)
Fixpoint resolve_segments (segments resolved_path : list string) : list string :=
  match segments with
  | [] => resolved_path
  | seg :: rest =>
      if String.eqb seg ".." then resolve_segments rest (removelast resolved_path)
      else if String.eqb seg "." then resolve_segments rest resolved_path
      else resolve_segments rest (resolved_path ++ [seg])
  end.

(** [segments[1:-1] = filter(None, segments[1:-1])] *)
Definition filter_middle (segments : list string) : list string :=
  match segments with
  | first :: (_ :: _) as rest =>
      first :: List.filter truthy (removelast rest) ++ [List.last rest EmptyString]
  | _ => segments
  end.

(** [urljoin(base, url)] *)
Definition urljoin (base url : string) : result string :=
  if negb (truthy base) then Ok url
  else if negb (truthy url) then Ok base
  else
    b ← urlparse_with base EmptyString;
    u ← urlparse_with url (scheme b);
    if negb (String.eqb (scheme u) (scheme b))
       || negb (str_in_list (scheme u) uses_relative)
    then Ok url
    else if str_in_list (scheme u) uses_netloc && truthy (netloc u)
    then Ok (urlunparse u)
    else
      let netloc := if str_in_list (scheme u) uses_netloc
                    then netloc b else netloc u in
      if negb (truthy (path u)) && negb (truthy (params u))
      then
        let query := if negb (truthy (query u)) then query b else query u in
        Ok (urlunparse (mkParseResult (scheme u) netloc (path b) (params b)
                                      query (fragment u)))
      else
        let base_parts := split "/" (path b) in
        let base_parts :=
          if negb (String.eqb (List.last base_parts EmptyString) EmptyString)
          then removelast base_parts else base_parts in
        let segments :=
          if startswith "/" (path u) then split "/" (path u)
          else filter_middle (base_parts ++ split "/" (path u)) in
        let resolved_path := resolve_segments segments [] in
        let resolved_path :=
          if str_in_list (List.last segments EmptyString) ["."; ".."]
          then resolved_path ++ [EmptyString] else resolved_path in
        let joined := join "/" resolved_path in
        Ok (urlunparse (mkParseResult (scheme u) netloc
                          (if truthy joined then joined else "/")
                          (params u) (query u) (fragment u))).

(** *** Query strings *)

Definition hex_digit (n : nat) : ascii :=
  if n <? 10 then ascii_of_nat (48 + n) else ascii_of_nat (55 + n).

(** [unquote_to_bytes(s)]: every [%XX] escape becomes its byte. *)
Fixpoint unquote_to_bytes (s : string) : string :=
  match s with
  | EmptyString => EmptyString
  | String c s' =>
      if chr_eqb c "%" then
        match s' with
        | String h1 (String h2 s'') =>
            match hex_value h1, hex_value h2 with
            | Some a, Some b =>
                String (ascii_of_nat (16 * a + b)) (unquote_to_bytes s'')
            | _, _ => String c (unquote_to_bytes s')
            end
        | _ => String c (unquote_to_bytes s')
        end
      else String c (unquote_to_bytes s')
  end.

(** [unquote(s)]: the escapes of every run of ASCII characters are
    decoded as UTF-8, with U+FFFD for what is no character. *)
Definition unquote (s : string) : string :=
  if negb (mem "%" s) then s
  else
    String.concat EmptyString
      (List.map (λ '(is_ascii, run),
                   if is_ascii : bool
                   then decode_utf8_replace (unquote_to_bytes run)
                   else run)
                (ascii_runs s)).

(** The characters [quote] never escapes. *)
Definition always_safe (c : ascii) : bool :=
  is_alpha c || is_digit c || mem c "_.-~".

(** [quote_plus(s)] *)
Fixpoint quote_plus (s : string) : string :=
  match s with
  | EmptyString => EmptyString
  | String c s' =>
      if always_safe c then String c (quote_plus s')
      else if chr_eqb c " " then String "+" (quote_plus s')
      else let n := nat_of_ascii c in
           String "%" (String (hex_digit (n / 16))
                         (String (hex_digit (n mod 16)) (quote_plus s')))
  end.

(** The body of the loop of [parse_qsl] for one [name_value]. *)
Definition parse_field (name_value : string) : list (string * string) :=
  if negb (truthy name_value) then []
  else match partition "=" name_value with
       | None => []
       | Some (name, value) =>
           if truthy value
           then [(unquote (replace "+" " " name),
                  unquote (replace "+" " " value))]
           else []
       end.

(** [parse_qsl(qs)] *)
Definition parse_qsl (qs : string) : list (string * string) :=
  flat_map parse_field (split "&" qs).

(** [urlencode(query)] for a list of pairs of strings. *)
Definition urlencode (query : list (string * string)) : string :=
  join "&" (List.map (λ kv, quote_plus kv.1 +:+ "=" +:+ quote_plus kv.2) query).

End UrlLib.

(** ** [scraper/utils.py]: the pure functions *)

Import PyStr UrlLib.

(** Order of Python on pairs of strings: by the first component, then by
    the second. *)
Definition tuple_le (p q : string * string) : Prop :=
  String.le p.1 q.1 ∧ (p.1 = q.1 → String.le p.2 q.2).

Global Instance tuple_le_dec : RelDecision tuple_le :=
  λ p q, decide (String.le p.1 q.1 ∧ (p.1 = q.1 → String.le p.2 q.2)).

(** [sorted(l)] for a list of pairs of strings. *)
Definition sorted (l : list (string * string)) : list (string * string) :=
  merge_sort tuple_le l.

Definition ignore_params : list string :=
  ["utm_source"; "utm_medium"; "utm_campaign"].

(** [normalize_url(url, base_url)] *)
Definition normalize_url (url : string) (base_url : option string)
    : result string :=
  parsed_url ← urlparse url;
  url ← (match base_url with
         | Some base =>
             if negb (truthy (netloc parsed_url)) && truthy base
             then urljoin base url else Ok url
         | None => Ok url
         end);
  parsed_url ← urlparse (lower url);
  let scheme := if String.eqb (scheme parsed_url) "https" then "http"
                else scheme parsed_url in
  let path := rstrip "/" (path parsed_url) in
  let query_params := parse_qsl (query parsed_url) in
  let filtered_params :=
    List.filter (λ kv, negb (str_in_list kv.1 ignore_params)) query_params in
  let sorted_query := urlencode (sorted filtered_params) in
  Ok (urlunparse (mkParseResult scheme (netloc parsed_url) path
                                "" sorted_query "")).

(** [URLNameGenerator.get_name_from_url(url)]: the name and the new value
    of [__empty_path_counter]. *)
Definition get_name_from_url (empty_path_counter : nat) (url : string)
    : result (string * nat) :=
  parsed ← urlparse url;
  let path := path parsed in
  if negb (truthy path) || String.eqb path "/"
  then Ok ("default_name_" +:+ of_nat empty_path_counter,
           S empty_path_counter)
  else
    let path := match path with
                | String "/" rest => rest
                | _ => path
                end in
    let name := match rpartition "." path with
                | Some (l, _) => l
                | None => path
                end in
    Ok (name, empty_path_counter).

(** [is_google_drive_url(url)] *)
Definition is_google_drive_url (url : string) : bool :=
  contains "drive.google.com" url.

(** [extract_google_drive_file_id(url)] *)
Definition extract_google_drive_file_id (url : string) : option string :=
  if contains "file/d/" url
  then Some (hd "" (split "/" (nth 1 (split_str "file/d/" url) "")))
  else None.

(** [google_drive_download_url(file_id)] *)
Definition google_drive_download_url (file_id : string) : string :=
  "https://drive.google.com/uc?id=" +:+ file_id.

(** [is_pdf_url(url)] *)
Definition is_pdf_url (url : string) : bool :=
  endswith ".pdf" (lower url).

(** [is_college_url(url)] *)
Definition is_college_url (url : string) : bool :=
  match urlparse url with
  | Ok parsed_url => contains "nitj.ac.in" (netloc parsed_url)
  | Raise _ => false
  end.

(** ** The outside world *)

(** What [requests.get(url)] answers in [fetch_and_hash_content]: the
    status code and [hashlib.sha256(response.text.encode('utf-8')).hexdigest()]. *)
Record Response : Type := mkResponse {
  status_code : nat;
  digest : string
}.

(** An anchor of [soup.find_all('a', href=True)]: [a_tag['href']] and
    [a_tag.text.strip()]. *)
Record Anchor : Type := mkAnchor {
  href : string;
  description : string
}.

(** The parsed page: its anchors, and what the table and text, image and
    video collaborators return on it (or the exception they raise). *)
Record Soup : Type := mkSoup {
  all_links : list Anchor;
  text_data : result string;
  images_data : result string;
  video_data : result string
}.

(** What [driver.get(url)] does: the browser's [current_url] afterwards
    and the page, or the exception raised. *)
Record Navigation : Type := mkNavigation {
  nav_url : string;
  nav_soup : result Soup
}.

(** The oracles take the number of interactions made so far. *)
Record World : Type := mkWorld {
  requests_get : nat → string → result Response;
  (** [requests.head(url)]: the status code, or a [RequestException]. *)
  requests_head : nat → string → result nat;
  (** Whether the streamed GET of [download_file] and the writing of the
      file succeed. *)
  requests_download : nat → string → bool;
  driver_get : nat → string → Navigation;
  (** [datetime.now().strftime('%Y-%m-%d %H:%M:%S')] *)
  now : nat → string
}.

Inductive event : Type :=
  | EvHash (url : string)                 (* GET of [fetch_and_hash_content] *)
  | EvDownload (url file_path : string)   (* GET of [download_file] *)
  | EvHead (url : string)                 (* HEAD of [can_fetch_content] *)
  | EvBrowse (url : string)               (* [driver.get] *)
  | EvEntry (url : string)                (* the wave loop takes an entry *)
  | EvSave                                (* [pickle.dump] *)
  | EvQuit.                               (* [quit_driver] *)

Global Instance event_eq_dec : EqDecision event.
Proof. solve_decision. Defined.

(** ** The crawl state *)

(** [downloadable_info] of [__handle_downloadable]. *)
Record DownloadableInfo : Type := mkDownloadableInfo {
  di_url : string;
  di_filename : string;
  di_format : string;
  di_description : string;
  di_source_url : string;
  di_timestamp : string;
  di_folder : string
}.

(** A record of [extracted_data]: the dictionary stored for a downloaded
    PDF, or the one made by [create_content_dictionary]. *)
Inductive Content : Type :=
  | PdfContent (pdf_path url source_page : string)
  | PageContent (text images : string)
      (downloadables : gmap string (list DownloadableInfo))
      (video_data : string).

(** The object that [__save_data] pickles. *)
Inductive PyValue : Type :=
  | VSeen (m : gmap string (option string))
  | VSet (s : gset string)
  | VExtracted (m : gmap string Content)
  | VDownloadables (m : gmap string (list (string * string))).

(** The attributes of [ContentFetcher], the browser's current URL, the
    storage file and the interactions made so far (latest last). *)
Record ContentFetcher : Type := mkContentFetcher {
  seen_links : gmap string (option string);
  relevant_links : list (string * string);
  non_college_urls : gset string;
  urls_not_fetched : gset string;
  error_urls : gset string;
  extracted_data : gmap string Content;
  google_drive_urls : gset string;
  downloadables : gmap string (list (string * string));
  empty_path_counter : nat;
  current_url : string;
  storage_file : option (gmap string PyValue);
  trace : list event
}.

Definition set_seen_links f (st : ContentFetcher) : ContentFetcher :=
  mkContentFetcher (f (seen_links st)) (relevant_links st)
    (non_college_urls st) (urls_not_fetched st) (error_urls st)
    (extracted_data st) (google_drive_urls st) (downloadables st)
    (empty_path_counter st) (current_url st) (storage_file st) (trace st).
Definition set_relevant_links f (st : ContentFetcher) : ContentFetcher :=
  mkContentFetcher (seen_links st) (f (relevant_links st))
    (non_college_urls st) (urls_not_fetched st) (error_urls st)
    (extracted_data st) (google_drive_urls st) (downloadables st)
    (empty_path_counter st) (current_url st) (storage_file st) (trace st).
Definition set_non_college_urls f (st : ContentFetcher) : ContentFetcher :=
  mkContentFetcher (seen_links st) (relevant_links st)
    (f (non_college_urls st)) (urls_not_fetched st) (error_urls st)
    (extracted_data st) (google_drive_urls st) (downloadables st)
    (empty_path_counter st) (current_url st) (storage_file st) (trace st).
Definition set_urls_not_fetched f (st : ContentFetcher) : ContentFetcher :=
  mkContentFetcher (seen_links st) (relevant_links st)
    (non_college_urls st) (f (urls_not_fetched st)) (error_urls st)
    (extracted_data st) (google_drive_urls st) (downloadables st)
    (empty_path_counter st) (current_url st) (storage_file st) (trace st).
Definition set_error_urls f (st : ContentFetcher) : ContentFetcher :=
  mkContentFetcher (seen_links st) (relevant_links st)
    (non_college_urls st) (urls_not_fetched st) (f (error_urls st))
    (extracted_data st) (google_drive_urls st) (downloadables st)
    (empty_path_counter st) (current_url st) (storage_file st) (trace st).
Definition set_extracted_data f (st : ContentFetcher) : ContentFetcher :=
  mkContentFetcher (seen_links st) (relevant_links st)
    (non_college_urls st) (urls_not_fetched st) (error_urls st)
    (f (extracted_data st)) (google_drive_urls st) (downloadables st)
    (empty_path_counter st) (current_url st) (storage_file st) (trace st).
Definition set_google_drive_urls f (st : ContentFetcher) : ContentFetcher :=
  mkContentFetcher (seen_links st) (relevant_links st)
    (non_college_urls st) (urls_not_fetched st) (error_urls st)
    (extracted_data st) (f (google_drive_urls st)) (downloadables st)
    (empty_path_counter st) (current_url st) (storage_file st) (trace st).
Definition set_downloadables f (st : ContentFetcher) : ContentFetcher :=
  mkContentFetcher (seen_links st) (relevant_links st)
    (non_college_urls st) (urls_not_fetched st) (error_urls st)
    (extracted_data st) (google_drive_urls st) (f (downloadables st))
    (empty_path_counter st) (current_url st) (storage_file st) (trace st).
Definition set_empty_path_counter f (st : ContentFetcher) : ContentFetcher :=
  mkContentFetcher (seen_links st) (relevant_links st)
    (non_college_urls st) (urls_not_fetched st) (error_urls st)
    (extracted_data st) (google_drive_urls st) (downloadables st)
    (f (empty_path_counter st)) (current_url st) (storage_file st) (trace st).
Definition set_current_url f (st : ContentFetcher) : ContentFetcher :=
  mkContentFetcher (seen_links st) (relevant_links st)
    (non_college_urls st) (urls_not_fetched st) (error_urls st)
    (extracted_data st) (google_drive_urls st) (downloadables st)
    (empty_path_counter st) (f (current_url st)) (storage_file st) (trace st).
Definition set_storage_file f (st : ContentFetcher) : ContentFetcher :=
  mkContentFetcher (seen_links st) (relevant_links st)
    (non_college_urls st) (urls_not_fetched st) (error_urls st)
    (extracted_data st) (google_drive_urls st) (downloadables st)
    (empty_path_counter st) (current_url st) (f (storage_file st)) (trace st).
Definition set_trace f (st : ContentFetcher) : ContentFetcher :=
  mkContentFetcher (seen_links st) (relevant_links st)
    (non_college_urls st) (urls_not_fetched st) (error_urls st)
    (extracted_data st) (google_drive_urls st) (downloadables st)
    (empty_path_counter st) (current_url st) (storage_file st) (f (trace st)).

(** ** The state and exception monad of the crawler *)

Definition M (A : Type) : Type := ContentFetcher → result A * ContentFetcher.

Global Instance M_ret : MRet M := λ A a st, (Ok a, st).
Global Instance M_bind : MBind M := λ A B k m st,
  match m st with
  | (Ok a, st') => k a st'
  | (Raise e, st') => (Raise e, st')
  end.

(** A pure computation that may raise. *)
Definition lift {A} (r : result A) : M A := λ st, (r, st).
Definition gets {A} (f : ContentFetcher → A) : M A := λ st, (Ok (f st), st).
Definition modify (f : ContentFetcher → ContentFetcher) : M unit :=
  λ st, (Ok tt, f st).
(** [try: m except Exception as e: h e] *)
Definition try_except {A} (m : M A) (h : exn → M A) : M A := λ st,
  match m st with
  | (Ok a, st') => (Ok a, st')
  | (Raise e, st') => h e st'
  end.
(** One interaction with the world: the oracle is asked at the current
    time and the interaction is logged. *)
Definition interact {A} (ask : nat → A) (ev : event) : M A := λ st,
  (Ok (ask (length (trace st))), set_trace (λ t, t ++ [ev]) st).

(** [for x in l: body x], threading a loop-local value. *)
Fixpoint for_each {A B} (l : list A) (body : B → A → M B) (acc : B) : M B :=
  match l with
  | [] => mret acc
  | x :: l' => acc' ← body acc x; for_each l' body acc'
  end.

(** *** Python [dict] operations *)

(** [d[k] = v] on an insertion-ordered dictionary: a key that is present
    keeps its place. *)
Fixpoint dict_set (k v : string) (d : list (string * string))
    : list (string * string) :=
  match d with
  | [] => [(k, v)]
  | (k', v') :: d' =>
      if String.eqb k' k then (k, v) :: d' else (k', v') :: dict_set k v d'
  end.

(** [v in d.values()] *)
Definition in_values {V} `{EqDecision V} (v : V) (d : gmap string V) : bool :=
  bool_decide (v ∈ (map_to_list d).*2).

(** [k in d] *)
Definition in_keys {V} (k : string) (d : gmap string V) : bool :=
  bool_decide (is_Some (d !! k)).

(** Truthiness of [None] or a string. *)
Definition truthy_opt (o : option string) : bool :=
  match o with Some s => truthy s | None => false end.

(** ** [scraper/utils.py]: the functions that touch the network *)

Section Crawler.
Variable W : World.
(** [os.getenv("DOWNLOAD_FOLDER", "fetched_downloadables")] *)
Variable download_folder : string.

(** [os.path.join(local_folder, filename)] *)
Definition path_join (local_folder filename : string) : string :=
  if startswith "/" filename then filename
  else if negb (truthy local_folder) || endswith "/" local_folder
  then local_folder +:+ filename
  else local_folder +:+ "/" +:+ filename.

(** [fetch_and_hash_content(url)] *)
Definition fetch_and_hash_content (url : string) : M (option string) :=
  response ← interact (λ t, requests_get W t url) (EvHash url);
  mret (match response with
        | Ok response =>
            if status_code response =? 200 then Some (digest response)
            else None
        | Raise _ => None
        end).

(** [download_file(download_url, local_folder, filename)] *)
Definition download_file (download_url local_folder filename : string)
    : M (option string) :=
  let file_path := path_join local_folder filename in
  ok ← interact (λ t, requests_download W t download_url)
                (EvDownload download_url file_path);
  mret (if ok : bool then Some file_path else None).

(** [can_fetch_content(url)] *)
Definition can_fetch_content (url : string) : M bool :=
  response ← interact (λ t, requests_head W t url) (EvHead url);
  match response with
  | Ok status => mret (status =? 200)
  | Raise (RequestException _) => mret false
  | Raise e => lift (Raise e)
  end.

(** ** [scraper/href_parser.py] *)

(** [[item[0] for item in d.get(k, [])]] contains [name]. *)
Definition registered (name k : string)
    (d : gmap string (list (string * string))) : bool :=
  bool_decide (name ∈ (default [] (d !! k)).*1).

(** [d.get(k).append(x)] *)
Definition dict_append {V} (k : string) (x : V) (d : gmap string (list V))
    : result (gmap string (list V)) :=
  match d !! k with
  | Some l => Ok (<[k := l ++ [x]]> d)
  | None => Raise (AttributeError "'NoneType' object has no attribute 'append'")
  end.

(** The variables local to one call of [process_href_links]:
    [downloadables_data] and the counter of the [URLNameGenerator] of
    the [LinkProcessor]. *)
Definition Locals : Type := gmap string (list DownloadableInfo) * nat.

(** [LinkProcessor.__handle_downloadable] *)
Definition handle_downloadable (full_url : string) (a_tag : Anchor)
    (loc : Locals) : M Locals :=
  let '(downloadables_data, counter) := loc in
  '(name, counter) ← lift (get_name_from_url counter full_url);
  let file_name := replace "/" "_" name in
  dl ← gets downloadables;
  if negb (registered file_name "pdf" dl)
     && negb (registered file_name "docx" dl)
     && negb (registered file_name "xlsx" dl)
     && negb (registered file_name "zip" dl)
  then
    let file_ext := List.last (split "." full_url) "" in
    file_path ← download_file full_url download_folder file_name;
    match file_path with
    | Some file_path =>
        if truthy file_path then
          source_url ← gets current_url;
          timestamp ← gets (λ st, now W (length (trace st)));
          let downloadable_info :=
            mkDownloadableInfo full_url file_name file_ext
              (description a_tag) source_url timestamp download_folder in
          match downloadables_data !! file_ext with
          | Some l =>
              let downloadables_data :=
                <[file_ext := l ++ [downloadable_info]]> downloadables_data in
              dl ← gets downloadables;
              dl ← lift (dict_append file_ext (file_name, full_url) dl);
              modify (set_downloadables (λ _, dl));;
              mret (downloadables_data, counter)
          | None => mret (downloadables_data, counter)
          end
        else mret (downloadables_data, counter)
    | None => mret (downloadables_data, counter)
    end
  else mret (downloadables_data, counter).

Definition media_extensions : list string :=
  [".png"; ".jpg"; ".jpeg"; ".gif"; ".svg"; ".mp4"; ".avi"; ".mkv";
   ".mov"; ".wmv"; ".flv"; ".webm"].
Definition document_extensions : list string :=
  [".pdf"; ".docx"; ".xlsx"; ".zip"].

(** The body of the loop of [process_href_links] for one anchor. *)
Definition process_anchor (loc : Locals) (a_tag : Anchor) : M Locals :=
  let href := href a_tag in
  base ← gets current_url;
  full_url ← lift (urljoin base href);
  normalized_url ← lift (normalize_url full_url None);
  if existsb (λ ext, endswith ext href) media_extensions then mret loc
  else if existsb (λ ext, endswith ext href) document_extensions
  then handle_downloadable full_url a_tag loc
  else
    seen ← gets seen_links;
    if negb (truthy normalized_url) || in_keys normalized_url seen
    then mret loc
    else
      content_hash ← fetch_and_hash_content full_url;
      seen ← gets seen_links;
      (if truthy_opt content_hash && negb (in_values content_hash seen)
       then
         modify (set_seen_links <[normalized_url := content_hash]>);;
         modify (set_relevant_links (dict_set normalized_url full_url))
       else mret tt);;
      mret loc.

(** [LinkProcessor(driver).process_href_links(soup, seen_links,
    relevant_links, downloadables)]: the three dictionaries are those
    of the [ContentFetcher], shared. *)
Definition process_href_links (soup : Soup)
    : M (gmap string (list DownloadableInfo)) :=
  let downloadables_data : gmap string (list DownloadableInfo) :=
    {[ "pdf" := []; "docx" := []; "xlsx" := []; "zip" := [] ]} in
  loc ← for_each (all_links soup) process_anchor (downloadables_data, 1);
  mret loc.1.

(** ** [scraper/controller.py] *)

Definition empty_downloadables : gmap string (list (string * string)) :=
  {[ "pdf" := []; "docx" := []; "xlsx" := []; "zip" := [] ]}.

(** [ContentFetcher.__load_data] *)
Definition load_data (data : gmap string PyValue) (st : ContentFetcher)
    : ContentFetcher :=
  let get_set k := match data !! k with Some (VSet s) => s | _ => ∅ end in
  mkContentFetcher
    (match data !! "seen_links" with Some (VSeen m) => m | _ => ∅ end)
    (relevant_links st)
    (get_set "non_college_urls")
    (get_set "urls_not_fetched")
    (get_set "error_urls")
    (match data !! "extracted_data" with Some (VExtracted m) => m | _ => ∅ end)
    (get_set "google_drive_urls")
    (match data !! "downloadables" with
     | Some (VDownloadables m) => m
     | _ => empty_downloadables
     end)
    (empty_path_counter st) (current_url st) (storage_file st) (trace st).

(** The dictionary [data] of [ContentFetcher.__save_data]. *)
Definition saved_data (st : ContentFetcher) : gmap string PyValue :=
  {[ "seen_links" := VSeen (seen_links st);
     "non_college_urls" := VSet (non_college_urls st);
     "urls_not_fetched" := VSet (urls_not_fetched st);
     "error_urls" := VSet (error_urls st);
     "extracted_data" := VExtracted (extracted_data st);
     "google_drive_urls" := VSet (google_drive_urls st);
     "downloadables" := VDownloadables (downloadables st) ]}.

(** [ContentFetcher.__save_data]; [pickle.dump] is taken to store the
    dictionary as it is, and [pickle.load] to give it back. *)
Definition save_data : M unit :=
  data ← gets saved_data;
  _ ← interact (λ _, tt) EvSave;
  modify (set_storage_file (λ _, Some data)).

(** [ContentFetcher.__init__]: a browser showing [driver_url] and the
    storage file, if there is one. *)
Definition init (driver_url : string) (file : option (gmap string PyValue))
    : ContentFetcher :=
  let st := mkContentFetcher ∅ [] ∅ ∅ ∅ ∅ ∅ empty_downloadables 1
              driver_url file [] in
  match file with
  | Some data => load_data data st
  | None => st
  end.

(** [quit_driver(driver)] *)
Definition quit_driver : M unit := interact (λ _, tt) EvQuit.

(** [ContentFetcher.__fetch_content] *)
Definition fetch_content (url : string) : M Content :=
  nav ← interact (λ t, driver_get W t url) (EvBrowse url);
  modify (set_current_url (λ _, nav_url nav));;
  soup ← lift (nav_soup nav);
  text_data ← lift (text_data soup);
  images_data ← lift (images_data soup);
  video_data ← lift (video_data soup);
  links_data ← process_href_links soup;
  mret (PageContent text_data images_data links_data video_data).

(** [self.__url_name_gen.get_name_from_url(url)] *)
Definition own_name_from_url (url : string) : M string :=
  counter ← gets empty_path_counter;
  '(name, counter) ← lift (get_name_from_url counter url);
  modify (set_empty_path_counter (λ _, counter));;
  mret name.

(** The PDF and Google Drive branches after the file name is known. *)
Definition download_pdf (download_url url normalized_url filename : string)
    (google_drive : bool) : M unit :=
  dl ← gets downloadables;
  if negb (registered filename "pdf" dl) then
    downloaded_pdf_path ←
      download_file download_url "fetched_downloadables" filename;
    match downloaded_pdf_path with
    | Some pdf_path =>
        if truthy pdf_path then
          source_page ← gets current_url;
          modify (set_extracted_data
                    <[normalized_url := PdfContent pdf_path url source_page]>);;
          dl ← gets downloadables;
          dl ← lift (dict_append "pdf" (filename, url) dl);
          modify (set_downloadables (λ _, dl));;
          if google_drive
          then modify (set_google_drive_urls (λ s, {[url]} ∪ s))
          else mret tt
        else mret tt
    | None => mret tt
    end
  else mret tt.

(** The body of the loop over a wave for one entry of the snapshot. *)
Definition process_entry (_ : unit) (url : string) : M unit :=
  _ ← interact (λ _, tt) (EvEntry url);
  normalized_url ← lift (normalize_url url None);
  if is_college_url url then
    if is_pdf_url url then
      name ← own_name_from_url url;
      download_pdf url url normalized_url (replace "/" "_" name) false
    else if is_google_drive_url url then
      match extract_google_drive_file_id url with
      | Some file_id =>
          if truthy file_id then
            download_pdf (google_drive_download_url file_id) url
              normalized_url (replace "/" "_" file_id) true
          else mret tt
      | None => mret tt
      end
    else
      fetchable ← can_fetch_content url;
      if (fetchable : bool) then
        try_except
          (content ← fetch_content url;
           modify (set_extracted_data <[normalized_url := content]>))
          (λ e, modify (set_error_urls (λ s, {[url]} ∪ s)))
      else modify (set_urls_not_fetched (λ s, {[url]} ∪ s))
  else modify (set_non_college_urls (λ s, {[url]} ∪ s)).

(** One turn of [while self.__relevant_links]: the snapshot is copied,
    the frontier cleared, and the snapshot walked. *)
Definition wave : M unit :=
  current_links_snapshot ← gets relevant_links;
  modify (set_relevant_links (λ _, []));;
  for_each (current_links_snapshot.*2) process_entry tt.

(** [while self.__relevant_links: ...] for at most [fuel] waves; [false]
    when the frontier is not empty after them. *)
Fixpoint waves (fuel : nat) : M bool :=
  frontier ← gets relevant_links;
  match frontier with
  | [] => mret true
  | _ :: _ =>
      match fuel with
      | O => mret false
      | S fuel' => wave;; waves fuel'
      end
  end.

(** The test of the [if] at the head of [process_url]. *)
Definition seed_is_duplicate (url normalized_url : string) : M bool :=
  seen ← gets seen_links;
  if in_keys normalized_url seen then mret true
  else
    content_hash ← fetch_and_hash_content url;
    seen ← gets seen_links;
    mret (in_values content_hash seen).

(** [ContentFetcher.process_url(url)]; [false] when [fuel] waves did
    not drain the frontier. *)
Definition process_url (fuel : nat) (url : string) : M bool :=
  normalized_url ← lift (normalize_url url None);
  duplicate ← seed_is_duplicate url normalized_url;
  if (duplicate : bool) then mret true
  else
    content_hash ← fetch_and_hash_content url;
    modify (set_seen_links <[normalized_url := content_hash]>);;
    modify (set_relevant_links (dict_set normalized_url url));;
    drained ← waves fuel;
    if (drained : bool) then save_data;; quit_driver;; mret true
    else mret false.

End Crawler.

(** ** Notions used to state the properties *)

(** Character classes. *)
Definition nonupper (c : ascii) : bool := negb (PyStr.is_upper c).
Definition no_hash (c : ascii) : bool := negb (PyStr.chr_eqb c "#").
Definition no_bracket (c : ascii) : bool :=
  negb (PyStr.chr_eqb c "[") && negb (PyStr.chr_eqb c "]").

(** The checks of [urlsplit] on a network location: the brackets, what
    is between them, and the characters that NFKC would turn into
    delimiters. *)
Definition check_netloc (netloc : string) : result unit :=
  _ ← (if (mem "[" netloc && negb (mem "]" netloc))
          || (mem "]" netloc && negb (mem "[" netloc))
       then Raise (ValueError "Invalid IPv6 URL")
       else if mem "[" netloc && mem "]" netloc
       then check_bracketed_netloc netloc else Ok ());
  checknetloc netloc.

(** The fingerprint that [fetch_and_hash_content] returns at time [t]. *)
Definition fingerprint_at (W : World) (t : nat) (url : string) : option string :=
  match requests_get W t url with
  | Ok response =>
      if status_code response =? 200 then Some (digest response) else None
  | Raise _ => None
  end.

(** The URLs of the entries taken by the wave loop, in order. *)
Fixpoint entries (t : list event) : list string :=
  match t with
  | [] => []
  | EvEntry u :: t' => u :: entries t'
  | _ :: t' => entries t'
  end.

(** The interactions made while the links of a page are processed. *)
Definition E_links (ev : event) : Prop :=
  match ev with
  | EvHash _ | EvDownload _ _ => True
  | _ => False
  end.

(** The interactions made for one entry of a wave, after the entry is
    taken: the page and the probe are those of the entry, which is in
    scope. *)
Definition E_entry (url : string) (ev : event) : Prop :=
  match ev with
  | EvHash _ | EvDownload _ _ => True
  | EvHead u | EvBrowse u => u = url ∧ is_college_url url = true
  | _ => False
  end.

(** The interactions of a crawl: only URLs in scope are probed or opened
    in the browser. *)
Definition E_crawl (ev : event) : Prop :=
  match ev with
  | EvHead u | EvBrowse u => is_college_url u = true
  | _ => True
  end.

(** The interactions of [__handle_downloadable]. *)
Definition E_download (ev : event) : Prop :=
  match ev with EvDownload _ _ => True | _ => False end.

(** The GETs of the hasher. *)
Definition is_hash (ev : event) : bool :=
  match ev with EvHash _ => true | _ => false end.

(** A key enters the frontier only if it was not seen before and is seen
    now, under the URL it normalizes. *)
Definition fresh_entry (st st' : ContentFetcher) (k u : string) : Prop :=
  seen_links st !! k = None ∧ is_Some (seen_links st' !! k)
  ∧ normalize_url u None = Ok k.

(** What any part of a crawl does to the registry and the frontier; [E]
    bounds the interactions made. *)
Record step (E : event → Prop) (st st' : ContentFetcher) : Prop := mkStep {
  step_seen : seen_links st ⊆ seen_links st';
  step_frontier : ∀ k u,
    (k, u) ∈ relevant_links st' →
    (k, u) ∈ relevant_links st ∨ fresh_entry st st' k u;
  step_trace : ∃ t, trace st' = trace st ++ t ∧ Forall E t
}.

(** A part that leaves the registry and the frontier alone. *)
Record quiet (E : event → Prop) (st st' : ContentFetcher) : Prop := mkQuiet {
  quiet_seen : seen_links st' = seen_links st;
  quiet_frontier : relevant_links st' = relevant_links st;
  quiet_trace : ∃ t, trace st' = trace st ++ t ∧ Forall E t
}.

(** Whatever the outcome of [m], the state reached is related by [R] to
    the state at the call. *)
Definition runs (R : relation ContentFetcher) {A} (m : M A) : Prop :=
  ∀ st, R st (m st).2.

(** Every entry of the frontier is a key of [seen_links], filed under the
    key its URL normalizes to. *)
Definition frontier_ok (st : ContentFetcher) : Prop :=
  ∀ k u, (k, u) ∈ relevant_links st →
         is_Some (seen_links st !! k) ∧ normalize_url u None = Ok k.

(** ** Scenarios *)

Definition plain_page (links : list Anchor) : Soup :=
  mkSoup links (Ok "text") (Ok "images") (Ok "videos").

Definition answering (url : string) : result Response :=
  Ok (mkResponse 200 ("sha256 of " +:+ url)).

(** A site whose home page links to a page and a document of another
    host, and whose server answers every request. *)
Definition scope_world : World := mkWorld
  (λ _ url, answering url)
  (λ _ _, Ok 200)
  (λ _ _, true)
  (λ _ url, mkNavigation url
     (if String.eqb url "http://nitj.ac.in/"
      then Ok (plain_page [mkAnchor "http://mirror.example.org/x" "mirror";
                           mkAnchor "http://mirror.example.org/notes.pdf" "notes"])
      else Ok (plain_page [])))
  (λ _, "2024-01-01 00:00:00").

Definition scope_run : result bool * ContentFetcher :=
  process_url scope_world "fetched_downloadables" 5 "http://nitj.ac.in/"
    (init "data:," None).


(** Every page fetch times out. *)
Definition timeout_world : World := mkWorld
  (λ _ url, answering url)
  (λ _ _, Ok 200)
  (λ _ _, true)
  (λ _ url, mkNavigation "data:," (Raise (WebDriverException "timeout")))
  (λ _, "2024-01-01 00:00:00").



(** The home page links to [/events], whose GET answers 503. *)
Definition no_fingerprint_world : World := mkWorld
  (λ _ url, if String.eqb url "http://nitj.ac.in/events"
            then Ok (mkResponse 503 "") else answering url)
  (λ _ _, Ok 200)
  (λ _ _, true)
  (λ _ url, mkNavigation url
     (if String.eqb url "http://nitj.ac.in/"
      then Ok (plain_page [mkAnchor "/events" "Events"])
      else Ok (plain_page [])))
  (λ _, "2024-01-01 00:00:00").

Definition no_fingerprint_run : result bool * ContentFetcher :=
  process_url no_fingerprint_world "fetched_downloadables" 5
    "http://nitj.ac.in/" (init "data:," None).

(** No GET succeeds; pages open and hold no link. *)
Definition offline_world : World := mkWorld
  (λ _ _, Raise (RequestException "connection refused"))
  (λ _ _, Ok 200)
  (λ _ _, false)
  (λ _ url, mkNavigation url (Ok (plain_page [])))
  (λ _, "2024-01-01 00:00:00").

Definition offline_first_run : result bool * ContentFetcher :=
  process_url offline_world "fetched_downloadables" 5 "http://nitj.ac.in/a"
    (init "data:," None).

Definition offline_second_start : ContentFetcher :=
  init "data:," (storage_file offline_first_run.2).

Definition offline_second_run : result bool * ContentFetcher :=
  process_url offline_world "fetched_downloadables" 5 "http://nitj.ac.in/b"
    offline_second_start.

(** The home page links to a document and to a later page, which links
    to the same document with a fragment. *)
Definition fragment_world : World := mkWorld
  (λ _ url, answering url)
  (λ _ _, Ok 200)
  (λ _ _, true)
  (λ _ url, mkNavigation url
     (if String.eqb url "http://nitj.ac.in/"
      then Ok (plain_page [mkAnchor "http://nitj.ac.in/doc.pdf" "Document";
                           mkAnchor "http://nitj.ac.in/later" "Later"])
      else if String.eqb url "http://nitj.ac.in/later"
      then Ok (plain_page [mkAnchor "http://nitj.ac.in/doc.pdf#section2"
                             "Section 2"])
      else Ok (plain_page [])))
  (λ _, "2024-01-01 00:00:00").

Definition fragment_run : result bool * ContentFetcher :=
  process_url fragment_world "fetched_downloadables" 5 "http://nitj.ac.in/"
    (init "data:," None).

(** The first GET answers, the later ones fail. *)
Definition flaky_world : World := mkWorld
  (λ t url, if t =? 0 then answering url
            else Raise (RequestException "connection reset"))
  (λ _ _, Ok 200)
  (λ _ _, true)
  (λ _ url, mkNavigation url (Ok (plain_page [])))
  (λ _, "2024-01-01 00:00:00").

Definition flaky_run : result bool * ContentFetcher :=
  process_url flaky_world "fetched_downloadables" 5 "http://nitj.ac.in/"
    (init "data:," None).

(** ** [scraper/utils.py]: [handle_dataframes_in_dict] *)

Section DataFrames.
(** [pandas.DataFrame] *)
Variable DataFrame : Type.

(** The Python values that the function tells apart: a [dict] with its
    items in order, a [list], a [DataFrame], and the others, of which a
    [tuple] is a container too. *)
#[warnings="-register-all"]
Inductive PyObj : Type :=
  | PDict (items : list (string * PyObj))
  | PList (items : list PyObj)
  | PFrame (frame : DataFrame)
  | PTuple (items : list PyObj)
  | PAtom (value : string).

(** [DataFrame.to_dict(orient='records')] *)
Variable to_dict_records : DataFrame → PyObj.

(** [handle_dataframes_in_dict(d)] *)
Fixpoint handle_dataframes_in_dict (d : PyObj) : PyObj :=
  match d with
  | PDict items =>
      PDict (List.map (λ kv, let '(k, v) := kv in
                             (k, handle_dataframes_in_dict v)) items)
  | PList items => PList (List.map handle_dataframes_in_dict items)
  | PFrame frame => to_dict_records frame
  | _ => d
  end.

(** No [DataFrame] anywhere in the value. *)
Fixpoint frame_free (d : PyObj) : bool :=
  match d with
  | PDict items => List.forallb (λ kv, let '(_, v) := kv in frame_free v) items
  | PList items => List.forallb frame_free items
  | PFrame _ => false
  | PTuple items => List.forallb frame_free items
  | PAtom _ => true
  end.

(** Every [DataFrame] of the value is reached through dictionaries and
    lists only, and its records hold no [DataFrame]. *)
Fixpoint converts_clean (d : PyObj) : bool :=
  match d with
  | PDict items =>
      List.forallb (λ kv, let '(_, v) := kv in converts_clean v) items
  | PList items => List.forallb converts_clean items
  | PFrame frame => frame_free (to_dict_records frame)
  | PTuple items => List.forallb frame_free items
  | PAtom _ => true
  end.
End DataFrames.

Arguments PDict {DataFrame} items.
Arguments PList {DataFrame} items.
Arguments PFrame {DataFrame} frame.
Arguments PTuple {DataFrame} items.
Arguments PAtom {DataFrame} value.
Arguments handle_dataframes_in_dict {DataFrame} to_dict_records d.
Arguments frame_free {DataFrame} d.
Arguments converts_clean {DataFrame} to_dict_records d.

(** A table as its rows, each a list of cells under their columns, and
    the records that pandas makes of it. *)
Definition Table : Type := list (list (string * string)).
Definition table_records (t : Table) : PyObj Table :=
  PList (List.map (λ row, PDict (List.map (λ cell, (cell.1, PAtom cell.2)) row)) t).

Definition fees_table : Table :=
  [[("course", "BTech"); ("fee", "1000")]; [("course", "MTech"); ("fee", "2000")]].
Definition page_record : PyObj Table :=
  PDict [("text", PAtom "Fees");
         ("tables", PList [PFrame fees_table]);
         ("nested", PDict [("table", PFrame fees_table)])].

(** ** [scraper/utils.py]: [normalize_href] and [is_internal_link] *)

(** The body of the loop of [parse_qs] on an insertion-ordered
    dictionary: [d[k].append(v)] when [k] is a key, [d[k] = [v]]
    otherwise. *)
Fixpoint dict_add_value (k v : string) (d : list (string * list string))
    : list (string * list string) :=
  match d with
  | [] => [(k, [v])]
  | (k', vs) :: d' =>
      if String.eqb k' k then (k', vs ++ [v]) :: d'
      else (k', vs) :: dict_add_value k v d'
  end.

(** [parse_qs(qs)] *)
Definition parse_qs (qs : string) : list (string * list string) :=
  fold_left (λ d kv, dict_add_value kv.1 kv.2 d) (parse_qsl qs) [].

(** [d[k] = vs] on an insertion-ordered dictionary. *)
Fixpoint dict_put (k : string) (vs : list string)
    (d : list (string * list string)) : list (string * list string) :=
  match d with
  | [] => [(k, vs)]
  | (k', vs') :: d' =>
      if String.eqb k' k then (k, vs) :: d' else (k', vs') :: dict_put k vs d'
  end.

(** [{key.lower(): value for key, value in d.items()}] *)
Definition lower_keys (d : list (string * list string))
    : list (string * list string) :=
  fold_left (λ acc kv, dict_put (lower kv.1) kv.2 acc) d [].

(** The order of [sorted] on the items of a dictionary: the keys are
    distinct, so the first components decide. *)
Definition key_le (p q : string * list string) : Prop := String.le p.1 q.1.

Global Instance key_le_dec : RelDecision key_le :=
  λ p q, decide (String.le p.1 q.1).

(** [sorted(d.items())] *)
Definition sorted_items (d : list (string * list string))
    : list (string * list string) :=
  merge_sort key_le d.

(** [urlencode(query, doseq=True)] for a list of pairs of a string and a
    list of strings. *)
Definition urlencode_doseq (query : list (string * list string)) : string :=
  join "&"
    (flat_map (λ kv, List.map (λ v, quote_plus kv.1 +:+ "=" +:+ quote_plus v)
                              kv.2) query).

(** [normalize_href(href)] *)
Definition normalize_href (href : string) : result string :=
  parsed_url ← urlparse href;
  let path := lower (rstrip "/" (path parsed_url)) in
  let query_params := parse_qs (query parsed_url) in
  let normalized_query := lower_keys query_params in
  let sorted_query := sorted_items normalized_query in
  let normalized_query_string := urlencode_doseq sorted_query in
  Ok (urlunparse (mkParseResult "" "" path (params parsed_url)
                                normalized_query_string "")).

(** [is_internal_link(base_url, link)] *)
Definition is_internal_link (base_url link : string) : result bool :=
  full_link ← urljoin base_url link;
  parsed_link ← urlparse full_link;
  parsed_base ← urlparse base_url;
  Ok (String.eqb (netloc parsed_link) (netloc parsed_base)).

(** ** Notions and scenarios of the further properties *)

(** What a part of a crawl may do to the classification sets, the
    extracted data and the download registry: nothing is removed, a URL is
    filed by its scope, a new record is filed under a key satisfying [K],
    the lists of the download registry are extended, and none of them gets
    a name twice. *)
Record grows (K : string → Prop) (st st' : ContentFetcher) : Prop := mkGrows {
  grows_non_college : non_college_urls st ⊆ non_college_urls st';
  grows_non_college_new : ∀ u,
    u ∈ non_college_urls st' →
    u ∈ non_college_urls st ∨ is_college_url u = false;
  grows_not_fetched : urls_not_fetched st ⊆ urls_not_fetched st';
  grows_not_fetched_new : ∀ u,
    u ∈ urls_not_fetched st' →
    u ∈ urls_not_fetched st ∨ is_college_url u = true;
  grows_error : error_urls st ⊆ error_urls st';
  grows_error_new : ∀ u,
    u ∈ error_urls st' → u ∈ error_urls st ∨ is_college_url u = true;
  grows_google_drive : google_drive_urls st ⊆ google_drive_urls st';
  grows_extracted : ∀ k,
    is_Some (extracted_data st !! k) → is_Some (extracted_data st' !! k);
  grows_extracted_new : ∀ k,
    is_Some (extracted_data st' !! k) →
    is_Some (extracted_data st !! k) ∨ K k;
  grows_downloadables : ∀ k,
    match downloadables st !! k with
    | Some l => ∃ l', downloadables st' !! k = Some (l ++ l')
    | None => downloadables st' !! k = None
    end;
  grows_names :
    (∀ k l, downloadables st !! k = Some l → NoDup l.*1) →
    (∀ k l, downloadables st' !! k = Some l → NoDup l.*1)
}.

(** The formats of the documents that [__handle_downloadable] files. *)
Definition formats : list string := ["pdf"; "docx"; "xlsx"; "zip"].

(** [downloadables_data] has no other keys than the formats. *)
Definition locals_ok (loc : Locals) : Prop :=
  ∀ k, is_Some (loc.1 !! k) → k ∈ formats.

(** The classification sets hold URLs of their scope. *)
Definition scope_sorted (st : ContentFetcher) : Prop :=
  (∀ u, u ∈ non_college_urls st → is_college_url u = false)
  ∧ (∀ u, u ∈ urls_not_fetched st ∪ error_urls st → is_college_url u = true).

(** No list of the download registry holds a file name twice. *)
Definition names_unique (st : ContentFetcher) : Prop :=
  ∀ k l, downloadables st !! k = Some l → NoDup l.*1.

(** Every record of [extracted_data] is filed under a key of
    [seen_links]. *)
Definition extracted_seen (st : ContentFetcher) : Prop :=
  ∀ k, is_Some (extracted_data st !! k) → is_Some (seen_links st !! k).

(** A part of the program that does not write the field [f]. *)
Definition keeps {A} (f : ContentFetcher → A) : relation ContentFetcher :=
  λ st st', f st' = f st.

(** The home page links to [/a], whose probe raises an exception that is
    no [RequestException]. *)
Definition probe_crash_world : World := mkWorld
  (λ _ url, answering url)
  (λ _ url, if String.eqb url "http://nitj.ac.in/a"
            then Raise (ValueError "label empty or too long") else Ok 200)
  (λ _ _, true)
  (λ _ url, mkNavigation url
     (if String.eqb url "http://nitj.ac.in/"
      then Ok (plain_page [mkAnchor "/a" "A"])
      else Ok (plain_page [])))
  (λ _, "2024-01-01 00:00:00").

Definition probe_crash_run : result bool * ContentFetcher :=
  process_url probe_crash_world "fetched_downloadables" 5 "http://nitj.ac.in/"
    (init "data:," None).

(** The probe [requests.head] fails with a [RequestException] only. *)
Definition head_raises_request_exception (W : World) : Prop :=
  ∀ t u e, requests_head W t u = Raise e → ∃ m, e = RequestException m.

(** What the processing of the links of a page leaves alone. *)
Definition page_fields (st : ContentFetcher)
    : string * gmap string Content * gset string :=
  (current_url st, extracted_data st, error_urls st).

(** The home page links to [/about] and then holds a link that
    [urlparse] rejects. *)
Definition broken_link_world : World := mkWorld
  (λ _ url, answering url)
  (λ _ _, Ok 200)
  (λ _ _, true)
  (λ _ url, mkNavigation url
     (if String.eqb url "http://nitj.ac.in/"
      then Ok (plain_page [mkAnchor "/about" "About";
                           mkAnchor "http://[broken" "Broken"])
      else Ok (plain_page [])))
  (λ _, "2024-01-01 00:00:00").

Definition broken_link_run : result bool * ContentFetcher :=
  process_url broken_link_world "fetched_downloadables" 5 "http://nitj.ac.in/"
    (init "data:," None).

(** A storage file whose download registry has no list of PDF files. *)
Definition foreign_store : gmap string PyValue :=
  {[ "downloadables" := VDownloadables ∅ ]}.

(** The frontier is a dictionary: no key is there twice. *)
Definition frontier_keys_unique (st : ContentFetcher) : Prop :=
  NoDup (relevant_links st).*1.

(** A part of the program that keeps the keys of the frontier distinct. *)
Definition keeps_frontier_keys : relation ContentFetcher :=
  λ st st', frontier_keys_unique st → frontier_keys_unique st'.

(** [ks] are the keys of the URLs [us], in order. *)
Definition keys_of (us ks : list string) : Prop :=
  Forall2 (λ u k, normalize_url u None = Ok k) us ks.

(** No two keys of the registry have the same fingerprint. *)
Definition fingerprints_unique (st : ContentFetcher) : Prop :=
  ∀ k1 k2 h, seen_links st !! k1 = Some (Some h) →
             seen_links st !! k2 = Some (Some h) → k1 = k2.

(** A part of the program after which no two keys have the same
    fingerprint if none had before. *)
Definition keeps_fingerprints : relation ContentFetcher :=
  λ st st', fingerprints_unique st → fingerprints_unique st'.

(** The downloads. *)
Definition is_download (ev : event) : bool :=
  match ev with EvDownload _ _ => true | _ => false end.

(** The home page links to two documents that a script serves. *)
Definition served_documents_world : World := mkWorld
  (λ _ url, answering url)
  (λ _ _, Ok 200)
  (λ _ _, true)
  (λ _ url, mkNavigation url
     (if String.eqb url "http://nitj.ac.in/"
      then Ok (plain_page [mkAnchor "/download.php?file=a.pdf" "A";
                           mkAnchor "/download.php?file=b.pdf" "B"])
      else Ok (plain_page [])))
  (λ _, "2024-01-01 00:00:00").

Definition served_documents_run : result bool * ContentFetcher :=
  process_url served_documents_world "fetched_downloadables" 5
    "http://nitj.ac.in/" (init "data:," None).

(** The probe gives no status 200: another status, or a
    [RequestException]. *)
Definition probe_fails (response : result nat) : Prop :=
  match response with
  | Ok status => status ≠ 200
  | Raise (RequestException _) => True
  | Raise _ => False
  end.

(** Every page of the site has moved: the probe answers 301. *)
Definition moved_world : World := mkWorld
  (λ _ url, answering url)
  (λ _ _, Ok 301)
  (λ _ _, true)
  (λ _ url, mkNavigation url (Ok (plain_page [])))
  (λ _, "2024-01-01 00:00:00").

(** Every key of the registry is the key of a URL. *)
Definition keys_normalized (st : ContentFetcher) : Prop :=
  ∀ k, is_Some (seen_links st !! k) → ∃ url, normalize_url url None = Ok k.

(** A part of the program that records keys of URLs only. *)
Definition keeps_keys_normalized : relation ContentFetcher :=
  λ st st', keys_normalized st → keys_normalized st'.

(** What holds of the data that the crawler keeps from one run to the
    next. *)
Definition store_ok (st : ContentFetcher) : Prop :=
  scope_sorted st ∧ names_unique st ∧ extracted_seen st ∧ keys_normalized st
  ∧ is_Some (downloadables st !! "pdf").

(** One session: a [ContentFetcher] is made on the storage file and
    [process_url] is called on it. *)
Record Session : Type := mkSession {
  session_world : World;
  session_folder : string;
  session_driver_url : string;
  session_fuel : nat;
  session_url : string
}.

(** The storage file after a session. *)
Definition session (s : Session) (file : option (gmap string PyValue))
    : option (gmap string PyValue) :=
  storage_file
    (process_url (session_world s) (session_folder s) (session_fuel s)
       (session_url s) (init (session_driver_url s) file)).2.

(** The storage file after a sequence of sessions. *)
Definition sessions (l : list Session) (file : option (gmap string PyValue))
    : option (gmap string PyValue) :=
  fold_left (λ file s, session s file) l file.

(** Interactions in which the browser opens a page only right after the
    probe of that page. *)
Inductive probed : list event → Prop :=
  | probed_nil : probed []
  | probed_other ev t :
      (∀ u, ev ≠ EvBrowse u) → probed t → probed (ev :: t)
  | probed_browse u t :
      probed t → probed (EvHead u :: EvBrowse u :: t).

(** A part of the program whose interactions are such. *)
Definition probes_first : relation ContentFetcher :=
  λ st st', ∃ t, trace st' = trace st ++ t ∧ probed t.

(** * Proofs *)

(** ** Facts about the [str] primitives *)

Section StrFacts.
Implicit Types (s t p : string) (c a : ascii) (P : ascii → bool).

Lemma str_app_cons a s t : String a s +:+ t = String a (s +:+ t).
Proof. reflexivity. Qed.
Lemma str_app_nil_l s : "" +:+ s = s.
Proof. reflexivity. Qed.
Lemma str_app_nil_r s : s +:+ "" = s.
Proof. induction s as [|a s IH]; [done|]. by rewrite str_app_cons, IH. Qed.
Lemma str_app_assoc s t p : (s +:+ t) +:+ p = s +:+ (t +:+ p).
Proof. induction s as [|a s IH]; [done|]. by rewrite !str_app_cons, IH. Qed.

Lemma chr_eqb_eq a c : chr_eqb a c = true ↔ a = c.
Proof. apply Ascii.eqb_eq. Qed.
Lemma chr_eqb_refl a : chr_eqb a a = true.
Proof. by apply chr_eqb_eq. Qed.

Lemma startswith_spec p s : startswith p s = true ↔ ∃ r, s = p +:+ r.
Proof.
  revert s. induction p as [|a p IH]; intros s; simpl.
  - split; [by exists s|done].
  - destruct s as [|b s]; [split; [done|by intros [r ?]]|].
    rewrite andb_true_iff, chr_eqb_eq, IH. split.
    + intros [-> [r ->]]. by exists r.
    + intros [r Hr]. rewrite str_app_cons in Hr. injection Hr as -> ->. eauto.
Qed.

Lemma contains_spec p s :
  contains p s = true ↔ ∃ l r, s = l +:+ p +:+ r.
Proof.
  induction s as [|b s IH]; simpl.
  - rewrite orb_false_r, startswith_spec. split.
    + intros [r ->]. by exists "", r.
    + intros [[|a l] [r Hr]]; [by exists r|done].
  - rewrite orb_true_iff, startswith_spec, IH. split.
    + intros [[r ->]|(l & r & ->)]; [by exists "", r|by exists (String b l), r].
    + intros [[|a l] [r Hr]]; [left; by exists r|right].
      rewrite str_app_cons in Hr. injection Hr as -> ->. eauto.
Qed.

Lemma str_forallb_app P s t : forallb P (s +:+ t) = forallb P s && forallb P t.
Proof.
  induction s as [|a s IH]; [done|].
  rewrite str_app_cons. simpl. by rewrite IH, andb_assoc.
Qed.

Lemma str_forallb_impl P Q s :
  (∀ c, P c = true → Q c = true) → forallb P s = true → forallb Q s = true.
Proof.
  intros HPQ. induction s as [|a s IH]; simpl; [done|].
  rewrite !andb_true_iff. intros [Ha Hs]. split; [by apply HPQ|by apply IH].
Qed.

Lemma str_forallb_map P Q (f : ascii → ascii) s :
  (∀ c, P c = true → Q (f c) = true) →
  forallb P s = true → forallb Q (map f s) = true.
Proof.
  intros HPQ. induction s as [|a s IH]; simpl; [done|].
  rewrite !andb_true_iff. intros [Ha Hs]. split; [by apply HPQ|by apply IH].
Qed.

Lemma str_mem_forallb c s :
  mem c s = false ↔ forallb (λ a, negb (chr_eqb a c)) s = true.
Proof.
  induction s as [|a s IH]; simpl; [done|].
  rewrite orb_false_iff, andb_true_iff, negb_true_iff. by rewrite IH.
Qed.

Lemma str_mem_app c s t : mem c (s +:+ t) = mem c s || mem c t.
Proof.
  induction s as [|a s IH]; [done|].
  rewrite str_app_cons. simpl. by rewrite IH, orb_assoc.
Qed.

Lemma partition_Some c s l r :
  partition c s = Some (l, r) → s = l +:+ String c r ∧ mem c l = false.
Proof.
  revert l. induction s as [|a s IH]; intros l; simpl; [done|].
  destruct (chr_eqb a c) eqn:Hac.
  - apply chr_eqb_eq in Hac as ->. by intros [= <- <-].
  - destruct (partition c s) as [[l' r']|]; [|done].
    intros [= <- <-]. destruct (IH l' eq_refl) as [-> Hl].
    simpl. by rewrite Hac.
Qed.

Lemma partition_None c s : partition c s = None → mem c s = false.
Proof.
  induction s as [|a s IH]; simpl; [done|].
  destruct (chr_eqb a c); [done|].
  destruct (partition c s) as [[l' r']|]; [done|]. auto.
Qed.

Lemma rpartition_Some c s l r :
  rpartition c s = Some (l, r) → s = l +:+ String c r.
Proof.
  revert l. induction s as [|a s IH]; intros l; simpl; [done|].
  destruct (rpartition c s) as [[l' r']|].
  - intros [= <- <-]. by rewrite (IH l' eq_refl).
  - destruct (chr_eqb a c) eqn:Hac; [|done].
    apply chr_eqb_eq in Hac as ->. by intros [= <- <-].
Qed.

Lemma span_until_spec P s l r :
  span_until P s = (l, r) →
  s = l +:+ r ∧ forallb (λ a, negb (P a)) l = true.
Proof.
  revert l. induction s as [|a s IH]; intros l; simpl.
  - by intros [= <- <-].
  - destruct (P a) eqn:HP; [by intros [= <- <-]|].
    destruct (span_until P s) as [l' r'].
    intros [= <- <-]. destruct (IH l' eq_refl) as [-> Hl].
    simpl. by rewrite HP.
Qed.

Lemma lstrip_suffix P s : ∃ l, s = l +:+ lstrip P s.
Proof.
  induction s as [|a s [l IH]]; simpl; [by exists ""|].
  destruct (P a); [|by exists ""].
  exists (String a l). by rewrite str_app_cons, <-IH.
Qed.

Lemma str_forallb_lstrip P Q s :
  forallb P s = true → forallb P (lstrip Q s) = true.
Proof.
  destruct (lstrip_suffix Q s) as [l Hl]. rewrite Hl at 1.
  rewrite str_forallb_app, andb_true_iff. tauto.
Qed.

Lemma str_forallb_remove P Q s :
  forallb P s = true → forallb P (remove Q s) = true.
Proof.
  induction s as [|a s IH]; simpl; [done|].
  rewrite andb_true_iff. intros [??].
  destruct (Q a); simpl; [auto|]. rewrite andb_true_iff. auto.
Qed.

Lemma rstrip_spec c s :
  ∃ t, s = rstrip c s +:+ t ∧ forallb (λ a, chr_eqb a c) t = true.
Proof.
  induction s as [|a s (t & IH & Ht)]; simpl; [by exists ""|].
  destruct (rstrip c s) as [|b r] eqn:Hr.
  - destruct (chr_eqb a c) eqn:Hac.
    + exists (String a t). simpl in *. rewrite Hac, Ht. by rewrite IH at 1.
    + exists t. split; [|done]. rewrite IH at 1. done.
  - exists t. split; [|done]. rewrite IH at 1. done.
Qed.

Lemma endswith_nonempty suf s :
  truthy suf = true → endswith suf s = true → truthy s = true.
Proof. destruct s, suf; done. Qed.

Lemma endswith_rstrip c s : endswith (String c "") (rstrip c s) = false.
Proof.
  induction s as [|a s IH]; simpl; [done|].
  destruct (rstrip c s) as [|b r] eqn:Hr.
  - destruct (chr_eqb a c) eqn:Hac; simpl; [done|].
    unfold chr_eqb in Hac. by rewrite Hac.
  - change (endswith (String c "") (String a (String b r)))
      with (String.eqb (String a (String b r)) (String c "")
            || endswith (String c "") (String b r)).
    rewrite IH, orb_false_r. apply String.eqb_neq. by intros [=].
Qed.

Lemma str_forallb_join P sep (l : list string) :
  forallb P sep = true → Forall (λ s, forallb P s = true) l →
  forallb P (join sep l) = true.
Proof.
  intros Hsep. induction 1 as [|x l Hx Hl IH]; [done|].
  destruct l as [|y l]; [done|].
  change (join sep (x :: y :: l)) with (x +:+ sep +:+ join sep (y :: l)).
  rewrite !str_forallb_app, Hx, Hsep, IH. done.
Qed.
End StrFacts.

Section UrlFacts.
Implicit Types (s t url : string) (c a : ascii) (P : ascii → bool).
#[local] Arguments startswith : simpl never.
#[local] Arguments mem : simpl never.
#[local] Arguments str_in_list : simpl never.

(** The steps of [urlparse], one by one. *)
Lemma urlparse_inv url p :
  urlparse url = Ok p →
  ∃ rest nl rest2 l pth,
    split_scheme "" (remove unsafe_url_byte (lstrip c0_control_or_space url))
      = (scheme p, rest) ∧
    (if startswith "//" rest
     then splitnetloc rest = (nl, rest2) ∧ check_netloc nl = Ok ()
     else nl = "" ∧ rest2 = rest) ∧
    split_at "#" rest2 = (l, fragment p) ∧
    split_at "?" l = (pth, query p) ∧
    netloc p = nl ∧
    (path p, params p)
      = (if str_in_list (scheme p) uses_params && mem ";" pth
         then splitparams pth else (pth, "")).
Proof.
  unfold urlparse, urlparse_with, urlsplit.
  change (String.rev (lstrip c0_control_or_space
            (String.rev (lstrip c0_control_or_space "")))) with "".
  change (remove unsafe_url_byte "") with "".
  destruct (split_scheme "" _) as [sch rest] eqn:Hsch.
  destruct (startswith "//" rest) eqn:Hsw.
  - destruct (splitnetloc rest) as [nl rest2] eqn:Hnl.
    destruct (_ || _) eqn:Hbr; [done|].
    destruct (if mem "[" nl && mem "]" nl then _ else _) as [[]|] eqn:Hcb;
      [|done].
    cbn [mbind result_bind].
    destruct (split_at "#" rest2) as [l frag] eqn:Hfrag.
    destruct (split_at "?" l) as [pth q] eqn:Hq. cbn [mbind result_bind].
    destruct (checknetloc nl) as [[]|] eqn:Hcn; [|done].
    cbn [mbind result_bind scheme path].
    assert (check_netloc nl = Ok ()) as Hok.
    { unfold check_netloc. by rewrite Hbr, Hcb. }
    destruct (str_in_list sch uses_params && mem ";" pth) eqn:Hp.
    + destruct (splitparams pth) as [u pa] eqn:Hsp. intros [= <-]. simpl.
      exists rest, nl, rest2, l, pth. by rewrite Hsw, Hp.
    + intros [= <-]. simpl.
      exists rest, nl, rest2, l, pth. by rewrite Hsw, Hp.
  - simpl.
    destruct (split_at "#" rest) as [l frag] eqn:Hfrag.
    destruct (split_at "?" l) as [pth q] eqn:Hq. simpl.
    destruct (str_in_list sch uses_params && mem ";" pth) eqn:Hp.
    + destruct (splitparams pth) as [u pa] eqn:Hsp. intros [= <-]. simpl.
      exists rest, "", rest, l, pth. rewrite Hsw, Hp. done.
    + intros [= <-]. simpl.
      exists rest, "", rest, l, pth. rewrite Hsw, Hp. done.
Qed.

Lemma str_forallb_app_inv P s t :
  forallb P (s +:+ t) = true → forallb P s = true ∧ forallb P t = true.
Proof. rewrite str_forallb_app. apply andb_true_iff. Qed.

Lemma str_forallb_tail P c s :
  forallb P (String c s) = true → forallb P s = true.
Proof. simpl. rewrite andb_true_iff. tauto. Qed.

Lemma split_scheme_inv d url sch rest :
  split_scheme d url = (sch, rest) →
  (sch = d ∧ rest = url)
  ∨ (∃ pre, sch = lower pre ∧ forallb scheme_chars pre = true
            ∧ url = pre +:+ String ":" rest).
Proof.
  unfold split_scheme.
  destruct (partition ":" url) as [[[|a pre] r]|] eqn:Hp;
    [intros [= <- <-]; by left| |intros [= <- <-]; by left].
  destruct (is_alpha a && _) eqn:Hs; [|intros [= <- <-]; by left].
  intros [= <- <-]. right. exists (String a pre).
  apply andb_true_iff in Hs as [_ Hs].
  by apply partition_Some in Hp as [-> _].
Qed.

Lemma split_at_inv c url l r :
  split_at c url = (l, r) →
  mem c l = false ∧ (url = l ∧ r = "" ∨ url = l +:+ String c r).
Proof.
  unfold split_at. destruct (partition c url) as [[l' r']|] eqn:Hp.
  - intros [= <- <-]. apply partition_Some in Hp as [-> ?]. auto.
  - intros [= <- <-]. apply partition_None in Hp. auto.
Qed.

Lemma splitnetloc_inv url nl r :
  startswith "//" url = true → splitnetloc url = (nl, r) →
  url = "//" +:+ nl +:+ r ∧ forallb (λ a, negb (mem a "/?#")) nl = true.
Proof.
  intros [rest ->]%startswith_spec. unfold splitnetloc.
  change ("//" +:+ rest) with (String "/" (String "/" rest)).
  intros [-> ?]%span_until_spec. done.
Qed.

Lemma splitparams_inv pth u pa :
  splitparams pth = (u, pa) →
  (u = pth ∧ pa = "") ∨ pth = u +:+ String ";" pa.
Proof.
  unfold splitparams.
  destruct (rpartition "/" pth) as [[dir last]|] eqn:Hr.
  - apply rpartition_Some in Hr as ->.
    destruct (partition ";" last) as [[l r]|] eqn:Hp.
    + intros [= <- <-]. right. apply partition_Some in Hp as [-> _].
      by rewrite !str_app_assoc.
    + intros [= <- <-]. by left.
  - intros [_ [[-> ->]| ->]]%split_at_inv; auto.
Qed.

(** The components of a parsed URL are made of characters of the URL,
    the scheme lowercased. *)
Lemma urlparse_chars P url p :
  (∀ c, P c = true → P (lower_char c) = true) →
  forallb P url = true → urlparse url = Ok p →
  forallb P (scheme p) = true ∧ forallb P (netloc p) = true
  ∧ forallb P (path p) = true ∧ forallb P (query p) = true.
Proof.
  intros Hlow Hurl (rest & nl & rest2 & l & pth & Hsch & Hnl & Hfrag & Hq
                    & -> & Hpath)%urlparse_inv.
  apply (str_forallb_lstrip _ c0_control_or_space) in Hurl.
  apply (str_forallb_remove _ unsafe_url_byte) in Hurl.
  assert (forallb P (scheme p) = true ∧ forallb P rest = true) as [Hs Hrest].
  { apply split_scheme_inv in Hsch as [[-> ->]|(pre & -> & _ & Heq)]; [done|].
    rewrite Heq in Hurl. apply str_forallb_app_inv in Hurl as [Hpre Hr].
    split; [by apply (str_forallb_map P)|].
    by apply str_forallb_tail in Hr. }
  assert (forallb P nl = true ∧ forallb P rest2 = true) as [Hn Hrest2].
  { destruct (startswith "//" rest) eqn:Hsw; [|by destruct Hnl as [-> ->]].
    destruct Hnl as [Hnl _]. apply splitnetloc_inv in Hnl as [-> _]; [|done].
    apply str_forallb_app_inv in Hrest as [_ Hrest].
    by apply str_forallb_app_inv in Hrest. }
  assert (forallb P l = true) as Hl.
  { apply split_at_inv in Hfrag as [_ [[-> _]| ->]]; [done|].
    by apply str_forallb_app_inv in Hrest2 as [? _]. }
  assert (forallb P pth = true ∧ forallb P (query p) = true) as [Hpth Hqu].
  { apply split_at_inv in Hq as [_ [[-> ->]| ->]]; [done|].
    apply str_forallb_app_inv in Hl as [? Hl]. split; [done|].
    by apply str_forallb_tail in Hl. }
  repeat split; try done.
  destruct (str_in_list (scheme p) uses_params && mem ";" pth).
  - symmetry in Hpath. apply splitparams_inv in Hpath as [[-> _]| ->]; [done|].
    by apply str_forallb_app_inv in Hpth as [? _].
  - by injection Hpath as -> _.
Qed.

Lemma scheme_chars_no_hash c :
  scheme_chars c = true → no_hash (lower_char c) = true.
Proof. destruct c as [[] [] [] [] [] [] [] []]; vm_compute; done. Qed.

Lemma netloc_chars_no_hash c :
  negb (mem c "/?#") = true → no_hash c = true.
Proof. destruct c as [[] [] [] [] [] [] [] []]; vm_compute; done. Qed.

(** The fragment is cut off: no [#] is left in the other components. *)
Lemma urlparse_no_hash url p :
  urlparse url = Ok p →
  forallb no_hash (scheme p) = true ∧ forallb no_hash (netloc p) = true
  ∧ forallb no_hash (path p) = true ∧ forallb no_hash (query p) = true.
Proof.
  intros (rest & nl & rest2 & l & pth & Hsch & Hnl & Hfrag & Hq
          & -> & Hpath)%urlparse_inv.
  assert (forallb no_hash (scheme p) = true) as Hs.
  { apply split_scheme_inv in Hsch as [[-> ->]|(pre & -> & Hpre & _)]; [done|].
    eapply str_forallb_map; [|done]. apply scheme_chars_no_hash. }
  assert (forallb no_hash nl = true) as Hn.
  { destruct (startswith "//" rest) eqn:Hsw; [|by destruct Hnl as [-> ->]].
    destruct Hnl as [Hnl _]. apply splitnetloc_inv in Hnl as [_ Hnl]; [|done].
    eapply str_forallb_impl; [|done]. apply netloc_chars_no_hash. }
  assert (forallb no_hash l = true) as Hl.
  { apply split_at_inv in Hfrag as [Hl _]. by apply str_mem_forallb in Hl. }
  assert (forallb no_hash pth = true ∧ forallb no_hash (query p) = true)
    as [Hpth Hqu].
  { apply split_at_inv in Hq as [_ [[-> ->]| ->]]; [done|].
    apply str_forallb_app_inv in Hl as [? Hl]. split; [done|].
    by apply str_forallb_tail in Hl. }
  repeat split; try done.
  destruct (str_in_list (scheme p) uses_params && mem ";" pth).
  - symmetry in Hpath. apply splitparams_inv in Hpath as [[-> _]| ->]; [done|].
    by apply str_forallb_app_inv in Hpth as [? _].
  - by injection Hpath as -> _.
Qed.
End UrlFacts.

Section NormalizeFacts.
Implicit Types (s t url : string) (c a : ascii) (P : ascii → bool).
#[local] Arguments startswith : simpl never.
#[local] Arguments mem : simpl never.
#[local] Arguments str_in_list : simpl never.

Lemma lower_char_nonupper c : nonupper (lower_char c) = true.
Proof. destruct c as [[] [] [] [] [] [] [] []]; vm_compute; done. Qed.

Lemma lower_char_no_bracket c :
  no_bracket c = true → no_bracket (lower_char c) = true.
Proof. destruct c as [[] [] [] [] [] [] [] []]; vm_compute; done. Qed.

Lemma lower_nonupper s : forallb nonupper (lower s) = true.
Proof.
  unfold lower. induction s as [|a s IH]; simpl; [done|].
  by rewrite lower_char_nonupper, IH.
Qed.

Lemma quote_plus_char_no_hash c :
  forallb no_hash (quote_plus (String c "")) = true.
Proof. destruct c as [[] [] [] [] [] [] [] []]; vm_compute; done. Qed.

Lemma quote_plus_cons c s :
  quote_plus (String c s) = quote_plus (String c "") +:+ quote_plus s.
Proof.
  simpl. destruct (always_safe c); [done|]. by destruct (chr_eqb c " ").
Qed.

Lemma quote_plus_no_hash s : forallb no_hash (quote_plus s) = true.
Proof.
  induction s as [|a s IH]; [done|].
  by rewrite quote_plus_cons, str_forallb_app, quote_plus_char_no_hash, IH.
Qed.

Lemma urlencode_no_hash q : forallb no_hash (urlencode q) = true.
Proof.
  unfold urlencode. apply str_forallb_join; [done|].
  apply Forall_forall. intros s [kv [<- _]]%list_elem_of_In%in_map_iff.
  by rewrite !str_forallb_app, !quote_plus_no_hash.
Qed.

(** Without a fragment, [urlunparse] writes no [#]. *)
Lemma urlunparse_no_hash sch nl pth q :
  forallb no_hash sch = true → forallb no_hash nl = true →
  forallb no_hash pth = true → forallb no_hash q = true →
  forallb no_hash (urlunparse (mkParseResult sch nl pth "" q "")) = true.
Proof.
  intros Hs Hn Hp Hq. unfold urlunparse, urlunsplit. simpl.
  repeat match goal with
         | |- context [if ?b then _ else _] => destruct b
         end;
    rewrite ?str_forallb_app, ?Hs, ?Hn, ?Hp, ?Hq; done.
Qed.

Global Instance tuple_le_total : Total tuple_le.
Proof.
  intros [k1 v1] [k2 v2]. unfold tuple_le. simpl.
  destruct (total String.le k1 k2) as [H12|H21],
           (total String.le v1 v2) as [Hv|Hv].
  - left. auto.
  - destruct (decide (k1 = k2)) as [->|Hne]; [right; auto|].
    left. split; [done|]. by intros ?.
  - destruct (decide (k1 = k2)) as [->|Hne]; [left; auto|].
    right. split; [done|]. by intros ?.
  - right. auto.
Qed.

Lemma sorted_by_key l : Sorted (λ p q, String.le p.1 q.1) (sorted l).
Proof.
  unfold sorted. generalize (Sorted_merge_sort tuple_le l).
  induction 1 as [|x l' _ IH Hd]; constructor; [done|].
  destruct Hd as [|y l'' [? _]]; by constructor.
Qed.

Lemma sorted_Permutation l : sorted l ≡ₚ l.
Proof. apply merge_sort_Permutation. Qed.

Lemma lower_char_ascii c :
  is_ascii_char c = true → is_ascii_char (lower_char c) = true.
Proof. destruct c as [[] [] [] [] [] [] [] []]; vm_compute; done. Qed.

(** A network location of ASCII characters without square brackets
    passes the checks. *)
Lemma check_netloc_plain nl :
  isascii nl = true → forallb no_bracket nl = true → check_netloc nl = Ok ().
Proof.
  intros Hascii Hnl. unfold check_netloc, checknetloc.
  assert (mem "[" nl = false) as ->.
  { apply str_mem_forallb. eapply str_forallb_impl; [|done].
    intros c. unfold no_bracket. rewrite andb_true_iff. tauto. }
  assert (mem "]" nl = false) as ->.
  { apply str_mem_forallb. eapply str_forallb_impl; [|done].
    intros c. unfold no_bracket. rewrite andb_true_iff. tauto. }
  cbn [andb orb mbind result_bind]. by rewrite Hascii, orb_true_r.
Qed.

(** An ASCII URL without square brackets always parses. *)
Lemma urlparse_total url :
  isascii url = true → forallb no_bracket url = true →
  is_ok (urlparse url) = true.
Proof.
  intros Hascii Hurl.
  assert (∀ P, forallb P url = true →
               ∀ p nl, (startswith "//" p = true ∧ ∃ r, splitnetloc p = (nl, r))
                       ∨ nl = "" →
                       (split_scheme "" (remove unsafe_url_byte
                          (lstrip c0_control_or_space url))).2 = p →
                       forallb P nl = true) as Hchars.
  { intros P HP p nl Hnl Hsch.
    apply (str_forallb_lstrip _ c0_control_or_space) in HP.
    apply (str_forallb_remove _ unsafe_url_byte) in HP.
    destruct Hnl as [[Hsw [r Hnl]]| ->]; [|done].
    destruct (split_scheme "" _) as [sch rest] eqn:Hs. cbn [snd] in Hsch.
    subst rest.
    assert (forallb P p = true) as Hp.
    { apply split_scheme_inv in Hs as [[_ ->]|(pre & _ & _ & Heq)]; [done|].
      rewrite Heq in HP. apply str_forallb_app_inv in HP as [_ Hr].
      by apply str_forallb_tail in Hr. }
    apply splitnetloc_inv in Hnl as [-> _]; [|done].
    apply str_forallb_app_inv in Hp as [_ Hp].
    by apply str_forallb_app_inv in Hp as [? _]. }
  unfold urlparse, urlparse_with, urlsplit.
  change (String.rev (lstrip c0_control_or_space
            (String.rev (lstrip c0_control_or_space "")))) with "".
  change (remove unsafe_url_byte "") with "".
  destruct (split_scheme "" _) as [sch rest] eqn:Hsch.
  destruct (startswith "//" rest) eqn:Hsw.
  - destruct (splitnetloc rest) as [nl rest2] eqn:Hnl.
    assert (check_netloc nl = Ok ()) as Hok.
    { apply check_netloc_plain; eapply Hchars; eauto. }
    unfold check_netloc in Hok.
    destruct (_ || _); [done|].
    destruct (if mem "[" nl && mem "]" nl then _ else _) as [[]|]; [|done].
    cbn [mbind result_bind] in *.
    destruct (split_at "#" rest2), (split_at "?" _). rewrite Hok.
    cbn [mbind result_bind scheme path].
    destruct (_ && _); [|done]. by destruct (splitparams _).
  - cbn [mbind result_bind].
    destruct (split_at "#" rest), (split_at "?" _).
    cbn [mbind result_bind scheme path checknetloc truthy negb orb].
    destruct (_ && _); [|done]. by destruct (splitparams _).
Qed.

(** An ASCII URL without square brackets always has a key. *)
Lemma normalize_url_total url :
  isascii url = true → forallb no_bracket url = true →
  is_ok (normalize_url url None) = true.
Proof.
  intros Hascii Hurl. unfold normalize_url.
  pose proof (urlparse_total url Hascii Hurl) as H1.
  destruct (urlparse url) as [p|]; [|done]. simpl.
  assert (forallb no_bracket (lower url) = true) as Hlow.
  { eapply str_forallb_map; [|done]. apply lower_char_no_bracket. }
  assert (isascii (lower url) = true) as Hlow'.
  { apply (str_forallb_map is_ascii_char); [apply lower_char_ascii|done]. }
  pose proof (urlparse_total _ Hlow' Hlow) as H2.
  by destruct (urlparse (lower url)).
Qed.
End NormalizeFacts.

Section FragmentFacts.
Implicit Types (s t url frag : string) (c a : ascii) (P : ascii → bool).
#[local] Arguments startswith : simpl never.
#[local] Arguments mem : simpl never.
#[local] Arguments str_in_list : simpl never.

Lemma lstrip_app P s c t :
  P c = false → lstrip P (s +:+ String c t) = lstrip P s +:+ String c t.
Proof.
  intros Hc. induction s as [|a s IH].
  - rewrite str_app_nil_l. simpl. by rewrite Hc.
  - rewrite str_app_cons. simpl. by destruct (P a).
Qed.

Lemma remove_app P s t : remove P (s +:+ t) = remove P s +:+ remove P t.
Proof.
  induction s as [|a s IH]; [done|].
  rewrite str_app_cons. simpl. destruct (P a); [done|].
  by rewrite str_app_cons, IH.
Qed.

Lemma partition_app_Some c s t l r :
  partition c s = Some (l, r) → partition c (s +:+ t) = Some (l, r +:+ t).
Proof.
  revert l. induction s as [|a s IH]; intros l; [done|].
  rewrite str_app_cons. simpl. destruct (chr_eqb a c); [by intros [= <- <-]|].
  destruct (partition c s) as [[l' r']|]; [|done].
  intros [= <- <-]. by rewrite (IH l' eq_refl).
Qed.

Lemma partition_app_None c s t :
  partition c s = None →
  partition c (s +:+ t)
  = match partition c t with
    | Some (l, r) => Some (s +:+ l, r)
    | None => None
    end.
Proof.
  induction s as [|a s IH].
  - intros _. rewrite str_app_nil_l. by destruct (partition c t) as [[??]|].
  - rewrite str_app_cons. simpl. destruct (chr_eqb a c); [done|].
    destruct (partition c s) as [[l' r']|]; [done|]. intros _.
    rewrite IH by done. by destruct (partition c t) as [[??]|].
Qed.

Lemma span_until_app P s c t :
  P c = true →
  span_until P (s +:+ String c t)
  = let '(l, r) := span_until P s in (l, r +:+ String c t).
Proof.
  intros Hc. induction s as [|a s IH].
  - rewrite str_app_nil_l. simpl. by rewrite Hc.
  - rewrite str_app_cons. simpl. destruct (P a); [done|].
    rewrite IH. by destruct (span_until P s).
Qed.

Lemma startswith_slashes_app s t :
  startswith "//" (s +:+ String "#" t) = startswith "//" s.
Proof.
  destruct s as [|a [|b s]]; [done| |done].
  rewrite str_app_cons, str_app_nil_l. unfold startswith.
  by destruct (chr_eqb "/" a).
Qed.

(** A fragment changes nothing before it. *)
Lemma split_scheme_fragment d s t :
  mem "#" s = false →
  split_scheme d (s +:+ String "#" t)
  = let '(sch, rest) := split_scheme d s in (sch, rest +:+ String "#" t).
Proof.
  intros Hs. unfold split_scheme.
  destruct (partition ":" s) as [[pre rest]|] eqn:Hp.
  - rewrite (partition_app_Some _ _ _ _ _ Hp).
    destruct pre as [|a pre]; [done|]. by destruct (_ && _).
  - rewrite (partition_app_None _ _ _ Hp). simpl.
    destruct (partition ":" t) as [[l r]|]; [|done].
    destruct (s +:+ String "#" l) as [|a pre] eqn:Hpre; [done|].
    change (scheme_chars a && forallb scheme_chars pre)
      with (forallb scheme_chars (String a pre)).
    assert (forallb scheme_chars (String a pre) = false) as ->;
      [|by rewrite andb_false_r].
    rewrite <-Hpre, str_forallb_app. simpl. by rewrite andb_false_r.
  Qed.

Lemma partition_not_mem c s : mem c s = false → partition c s = None.
Proof.
  induction s as [|a s IH]; [done|].
  unfold mem. simpl. fold mem. intros [-> Hs]%orb_false_iff.
  by rewrite IH.
Qed.

Lemma split_at_fragment s t :
  mem "#" s = false →
  split_at "#" (s +:+ String "#" t) = (s, t) ∧ split_at "#" s = (s, "").
Proof.
  intros Hs%partition_not_mem. unfold split_at.
  rewrite (partition_app_None _ _ _ Hs), Hs. simpl.
  by rewrite str_app_nil_r.
Qed.

Lemma no_hash_mem s : forallb no_hash s = true ↔ mem "#" s = false.
Proof. symmetry. apply str_mem_forallb. Qed.

(** Parsing a URL followed by a fragment gives the parse of the URL, with
    the fragment. *)
Lemma urlparse_fragment url frag :
  mem "#" url = false →
  urlparse (url +:+ String "#" frag)
  = (λ p, mkParseResult (scheme p) (netloc p) (path p) (params p) (query p)
            (remove unsafe_url_byte frag)) <$> urlparse url.
Proof.
  intros Hurl%no_hash_mem. unfold urlparse, urlparse_with, urlsplit.
  change (String.rev (lstrip c0_control_or_space
            (String.rev (lstrip c0_control_or_space "")))) with "".
  change (remove unsafe_url_byte "") with "".
  rewrite lstrip_app by done. rewrite remove_app.
  change (remove unsafe_url_byte (String "#" frag))
    with (String "#" (remove unsafe_url_byte frag)).
  apply (str_forallb_lstrip _ c0_control_or_space) in Hurl.
  apply (str_forallb_remove _ unsafe_url_byte) in Hurl.
  set (u := remove unsafe_url_byte (lstrip c0_control_or_space url)) in *.
  rewrite split_scheme_fragment by by apply no_hash_mem.
  destruct (split_scheme "" u) as [sch rest] eqn:Hsch.
  assert (forallb no_hash rest = true) as Hrest.
  { apply split_scheme_inv in Hsch as [[-> ->]|(pre & -> & _ & Heq)]; [done|].
    rewrite Heq in Hurl. apply str_forallb_app_inv in Hurl as [_ Hr].
    by apply str_forallb_tail in Hr. }
  rewrite startswith_slashes_app.
  destruct (startswith "//" rest) eqn:Hsw.
  - apply startswith_spec in Hsw as [r0 ->].
    change ("//" +:+ r0) with (String "/" (String "/" r0)) in *.
    rewrite !str_app_cons. unfold splitnetloc.
    rewrite span_until_app by done.
    destruct (span_until _ r0) as [nl r1] eqn:Hspan.
    destruct (_ || _); [done|].
    destruct (if mem "[" nl && mem "]" nl then _ else _) as [[]|]; [|done].
    cbn [mbind result_bind fmap result_fmap].
    assert (mem "#" r1 = false) as Hr1.
    { apply span_until_spec in Hspan as [-> _].
      do 2 apply str_forallb_tail in Hrest.
      apply str_forallb_app_inv in Hrest as [_ ?]. by apply no_hash_mem. }
    destruct (split_at_fragment r1 (remove unsafe_url_byte frag) Hr1)
      as [-> ->].
    destruct (split_at "?" r1) as [pth q].
    destruct (checknetloc nl) as [[]|]; [|done].
    cbn [mbind result_bind fmap result_fmap scheme path].
    destruct (_ && _); [|done]. by destruct (splitparams pth).
  - cbn [mbind result_bind fmap result_fmap].
    destruct (split_at_fragment rest (remove unsafe_url_byte frag)
                (proj1 (no_hash_mem _) Hrest)) as [-> ->].
    destruct (split_at "?" rest) as [pth q].
    cbn [mbind result_bind fmap result_fmap scheme path checknetloc truthy
         negb orb].
    destruct (_ && _); [|done]. by destruct (splitparams pth).
Qed.

(** The name derived from a URL does not depend on its fragment. *)
Lemma get_name_from_url_fragment n url frag :
  mem "#" url = false →
  get_name_from_url n (url +:+ String "#" frag) = get_name_from_url n url.
Proof.
  intros Hurl. unfold get_name_from_url.
  rewrite (urlparse_fragment _ _ Hurl). by destruct (urlparse url).
Qed.
End FragmentFacts.

Section KeyFacts.
#[local] Arguments urljoin : simpl never.
#[local] Arguments parse_qsl : simpl never.
#[local] Arguments urlencode : simpl never.
#[local] Arguments sorted : simpl never.
#[local] Arguments urlunparse : simpl never.

Lemma lower_app s t : lower (s +:+ t) = lower s +:+ lower t.
Proof.
  unfold lower. induction s as [|a s IH]; [done|].
  rewrite str_app_cons. cbn [map]. by rewrite IH.
Qed.

Lemma lower_char_no_hash c : no_hash c = true → no_hash (lower_char c) = true.
Proof. destruct c as [[] [] [] [] [] [] [] []]; vm_compute; done. Qed.

Lemma lower_no_hash s : mem "#" s = false → mem "#" (lower s) = false.
Proof.
  rewrite <-!no_hash_mem. apply str_forallb_map. apply lower_char_no_hash.
Qed.

Lemma normalize_url_fragment url frag :
  mem "#" url = false →
  normalize_url (url +:+ String "#" frag) None = normalize_url url None.
Proof.
  intros Hurl. unfold normalize_url.
  rewrite (urlparse_fragment url frag Hurl).
  destruct (urlparse url) as [p0|e]; [|done]. cbn [fmap result_fmap mbind result_bind].
  rewrite lower_app.
  change (lower (String "#" frag)) with (String "#" (lower frag)).
  rewrite (urlparse_fragment _ _ (lower_no_hash _ Hurl)).
  by destruct (urlparse (lower url)) as [p|e].
Qed.

Lemma urlparse_https r :
  urlparse ("https://" +:+ r)
  = (λ p, mkParseResult "https" (netloc p) (path p) (params p) (query p)
            (fragment p)) <$> urlparse ("http://" +:+ r).
Proof.
  unfold urlparse, urlparse_with, urlsplit.
  change (String.rev (lstrip c0_control_or_space
            (String.rev (lstrip c0_control_or_space "")))) with "".
  change (remove unsafe_url_byte "") with "".
  change (remove unsafe_url_byte (lstrip c0_control_or_space ("https://" +:+ r)))
    with ("https://" +:+ remove unsafe_url_byte r).
  change (remove unsafe_url_byte (lstrip c0_control_or_space ("http://" +:+ r)))
    with ("http://" +:+ remove unsafe_url_byte r).
  set (u := remove unsafe_url_byte r).
  change (split_scheme "" ("https://" +:+ u)) with ("https", "//" +:+ u).
  change (split_scheme "" ("http://" +:+ u)) with ("http", "//" +:+ u).
  cbv beta iota.
  change (startswith "//" ("//" +:+ u)) with true. cbv beta iota.
  destruct (splitnetloc ("//" +:+ u)) as [nl rest].
  destruct (_ || _); [done|].
  destruct (if mem "[" nl && mem "]" nl then _ else _) as [[]|]; [|done].
  cbn [mbind result_bind fmap result_fmap].
  destruct (split_at "#" rest) as [rest1 frag].
  destruct (split_at "?" rest1) as [rest2 q].
  destruct (checknetloc nl) as [[]|]; [|done].
  cbn [mbind result_bind fmap result_fmap scheme path].
  change (str_in_list "https" uses_params) with true.
  change (str_in_list "http" uses_params) with true.
  cbn [andb]. destruct (mem ";" rest2); [|done].
  by destruct (splitparams rest2).
Qed.

Lemma normalize_url_https r :
  normalize_url ("https://" +:+ r) None = normalize_url ("http://" +:+ r) None.
Proof.
  unfold normalize_url. rewrite urlparse_https.
  destruct (urlparse ("http://" +:+ r)) as [p0|e]; [|done].
  cbn [fmap result_fmap mbind result_bind]. rewrite !lower_app.
  change (lower "https://") with "https://".
  change (lower "http://") with "http://".
  rewrite urlparse_https.
  assert (∃ p', urlparse ("http://" +:+ lower r) = p'
                ∧ ∀ p, p' = Ok p → scheme p = "http") as (p' & -> & Hs).
  { eexists. split; [done|]. intros p.
    unfold urlparse, urlparse_with, urlsplit.
    change (String.rev (lstrip c0_control_or_space
              (String.rev (lstrip c0_control_or_space "")))) with "".
    change (remove unsafe_url_byte "") with "".
    change (remove unsafe_url_byte
              (lstrip c0_control_or_space ("http://" +:+ lower r)))
      with ("http://" +:+ remove unsafe_url_byte (lower r)).
    set (u := remove unsafe_url_byte (lower r)).
    change (split_scheme "" ("http://" +:+ u)) with ("http", "//" +:+ u).
    cbv beta iota.
    change (startswith "//" ("//" +:+ u)) with true. cbv beta iota.
    destruct (splitnetloc ("//" +:+ u)) as [nl rest].
    destruct (_ || _); [done|].
    destruct (if mem "[" nl && mem "]" nl then _ else _) as [[]|]; [|done].
    cbn [mbind result_bind fmap result_fmap].
    destruct (split_at "#" rest) as [rest1 frag].
    destruct (split_at "?" rest1) as [rest2 q].
    destruct (checknetloc nl) as [[]|]; [|done].
    cbn [mbind result_bind fmap result_fmap scheme path].
    destruct (_ && _); [|by intros [= <-]].
    destruct (splitparams rest2). by intros [= <-]. }
  destruct p' as [p|e]; [|done].
  cbn [fmap result_fmap mbind result_bind scheme netloc path query].
  rewrite (Hs p eq_refl). done.
Qed.

(** What [lower] does not change. *)
Lemma lower_char_class c :
  is_ascii_char (lower_char c) = is_ascii_char c
  ∧ no_bracket (lower_char c) = no_bracket c.
Proof. destruct c as [[] [] [] [] [] [] [] []]; vm_compute; done. Qed.

Lemma lower_isascii s : isascii (lower s) = isascii s.
Proof.
  unfold isascii, lower. induction s as [|a s IH]; [done|]. cbn [map forallb].
  by rewrite (proj1 (lower_char_class a)), IH.
Qed.

Lemma lower_no_bracket s :
  forallb no_bracket (lower s) = forallb no_bracket s.
Proof.
  unfold lower. induction s as [|a s IH]; [done|]. cbn [map forallb].
  by rewrite (proj2 (lower_char_class a)), IH.
Qed.

Lemma no_bracket_mem s :
  mem "[" s = false → mem "]" s = false → forallb no_bracket s = true.
Proof.
  intros H1%str_mem_forallb H2%str_mem_forallb.
  induction s as [|a s IH]; simpl in *; [done|].
  apply andb_true_iff in H1 as [? ?], H2 as [? ?].
  rewrite IH by done. unfold no_bracket. by rewrite !andb_true_r, andb_true_iff.
Qed.

(** The key of a URL that parses is made from its lowercase form only:
    ASCII URLs without square brackets that differ in case only have the
    same key. *)
Lemma normalize_url_case u1 u2 :
  isascii u1 = true → forallb no_bracket u1 = true →
  lower u1 = lower u2 →
  is_ok (normalize_url u1 None) = true
  ∧ normalize_url u1 None = normalize_url u2 None.
Proof.
  intros Hascii Hbr Hlow.
  assert (isascii u2 = true) as Hascii2.
  { by rewrite <-lower_isascii, <-Hlow, lower_isascii. }
  assert (forallb no_bracket u2 = true) as Hbr2.
  { by rewrite <-lower_no_bracket, <-Hlow, lower_no_bracket. }
  split; [by apply normalize_url_total|].
  pose proof (urlparse_total u1 Hascii Hbr) as H1.
  pose proof (urlparse_total u2 Hascii2 Hbr2) as H2.
  unfold normalize_url.
  destruct (urlparse u1) as [p1|]; [|done].
  destruct (urlparse u2) as [p2|]; [|done].
  cbn [mbind result_bind]. by rewrite Hlow.
Qed.

End KeyFacts.

Section QueryFacts.
Implicit Types (s t url q : string) (c a : ascii) (P : ascii → bool).
#[local] Arguments startswith : simpl never.
#[local] Arguments mem : simpl never.
#[local] Arguments str_in_list : simpl never.
#[local] Arguments urlunparse : simpl never.
#[local] Arguments sorted : simpl never.

Lemma startswith_slashes_query s t :
  startswith "//" (s +:+ String "?" t) = startswith "//" s.
Proof.
  destruct s as [|a [|b s]]; [done| |done].
  rewrite str_app_cons, str_app_nil_l. unfold startswith.
  by destruct (chr_eqb "/" a).
Qed.

(** A query changes nothing before it. *)
Lemma split_scheme_query d s t :
  split_scheme d (s +:+ String "?" t)
  = let '(sch, rest) := split_scheme d s in (sch, rest +:+ String "?" t).
Proof.
  unfold split_scheme.
  destruct (partition ":" s) as [[pre rest]|] eqn:Hp.
  - rewrite (partition_app_Some _ _ _ _ _ Hp).
    destruct pre as [|a pre]; [done|]. by destruct (_ && _).
  - rewrite (partition_app_None _ _ _ Hp). simpl.
    destruct (partition ":" t) as [[l r]|]; [|done].
    destruct (s +:+ String "?" l) as [|a pre] eqn:Hpre; [done|].
    change (scheme_chars a && forallb scheme_chars pre)
      with (forallb scheme_chars (String a pre)).
    assert (forallb scheme_chars (String a pre) = false) as ->;
      [|by rewrite andb_false_r].
    rewrite <-Hpre, str_forallb_app. simpl. by rewrite andb_false_r.
Qed.

Lemma split_at_absent c s : mem c s = false → split_at c s = (s, "").
Proof. intros Hs%partition_not_mem. unfold split_at. by rewrite Hs. Qed.

Lemma split_at_first c s t :
  mem c s = false → split_at c (s +:+ String c t) = (s, t).
Proof.
  intros Hs%partition_not_mem. unfold split_at.
  rewrite (partition_app_None _ _ _ Hs). simpl. rewrite chr_eqb_refl.
  by rewrite str_app_nil_r.
Qed.

Lemma mem_remove c P s : mem c s = false → mem c (remove P s) = false.
Proof. rewrite !str_mem_forallb. apply str_forallb_remove. Qed.

Lemma mem_lstrip c P s : mem c s = false → mem c (lstrip P s) = false.
Proof. rewrite !str_mem_forallb. apply str_forallb_lstrip. Qed.

(** Parsing a URL followed by a query gives the parse of the URL, with
    the query. *)
Lemma urlparse_query url q :
  mem "?" url = false → mem "#" url = false → mem "#" q = false →
  urlparse (url +:+ String "?" q)
  = (λ p, mkParseResult (scheme p) (netloc p) (path p) (params p)
            (remove unsafe_url_byte q) (fragment p)) <$> urlparse url.
Proof.
  intros Hq Hh Hqh. unfold urlparse, urlparse_with, urlsplit.
  change (String.rev (lstrip c0_control_or_space
            (String.rev (lstrip c0_control_or_space "")))) with "".
  change (remove unsafe_url_byte "") with "".
  rewrite lstrip_app by done. rewrite remove_app.
  change (remove unsafe_url_byte (String "?" q))
    with (String "?" (remove unsafe_url_byte q)).
  apply (mem_lstrip _ c0_control_or_space), (mem_remove _ unsafe_url_byte)
    in Hq, Hh.
  apply (mem_remove _ unsafe_url_byte) in Hqh.
  set (u := remove unsafe_url_byte (lstrip c0_control_or_space url)) in *.
  set (q' := remove unsafe_url_byte q) in *.
  rewrite split_scheme_query.
  destruct (split_scheme "" u) as [sch rest] eqn:Hsch.
  assert (mem "?" rest = false ∧ mem "#" rest = false) as [Hrq Hrh].
  { apply split_scheme_inv in Hsch as [[-> ->]|(pre & -> & _ & Heq)]; [done|].
    rewrite Heq, str_mem_app in Hq, Hh.
    apply orb_false_iff in Hq as [_ Hq], Hh as [_ Hh].
    unfold mem in Hq, Hh. simpl in Hq, Hh. by fold mem in Hq, Hh. }
  rewrite startswith_slashes_query.
  destruct (startswith "//" rest) eqn:Hsw.
  - apply startswith_spec in Hsw as [r0 ->].
    change ("//" +:+ r0) with (String "/" (String "/" r0)) in *.
    rewrite !str_app_cons. unfold splitnetloc.
    rewrite span_until_app by done.
    destruct (span_until _ r0) as [nl r1] eqn:Hspan.
    destruct (_ || _); [done|].
    destruct (if mem "[" nl && mem "]" nl then _ else _) as [[]|]; [|done].
    cbn [mbind result_bind fmap result_fmap].
    assert (mem "?" r1 = false ∧ mem "#" r1 = false) as [H1q H1h].
    { apply span_until_spec in Hspan as [-> _].
      unfold mem in Hrq, Hrh. simpl in Hrq, Hrh. fold mem in Hrq, Hrh.
      rewrite str_mem_app in Hrq, Hrh.
      by apply orb_false_iff in Hrq as [_ ?], Hrh as [_ ?]. }
    rewrite (split_at_absent "#" (r1 +:+ String "?" q')),
      (split_at_first "?" r1 q' H1q), (split_at_absent "#" r1 H1h),
      (split_at_absent "?" r1 H1q).
    2:{ rewrite str_mem_app, H1h. unfold mem. simpl. by fold mem. }
    destruct (checknetloc nl) as [[]|]; [|done].
    cbn [mbind result_bind fmap result_fmap scheme path].
    destruct (_ && _); [|done]. by destruct (splitparams r1).
  - cbn [mbind result_bind fmap result_fmap].
    rewrite (split_at_absent "#" (rest +:+ String "?" q')),
      (split_at_first "?" rest q' Hrq), (split_at_absent "#" rest Hrh),
      (split_at_absent "?" rest Hrq).
    2:{ rewrite str_mem_app, Hrh. unfold mem. simpl. by fold mem. }
    cbn [mbind result_bind fmap result_fmap scheme path checknetloc truthy
         negb orb].
    destruct (_ && _); [|done]. by destruct (splitparams rest).
Qed.

Lemma lower_char_delimiter c :
  chr_eqb (lower_char c) "?" = chr_eqb c "?"
  ∧ chr_eqb (lower_char c) "#" = chr_eqb c "#"
  ∧ chr_eqb (lower_char c) "&" = chr_eqb c "&"
  ∧ unsafe_url_byte (lower_char c) = unsafe_url_byte c.
Proof. destruct c as [[] [] [] [] [] [] [] []]; vm_compute; done. Qed.

Lemma lower_mem_delimiter s :
  mem "?" (lower s) = mem "?" s ∧ mem "#" (lower s) = mem "#" s
  ∧ mem "&" (lower s) = mem "&" s.
Proof.
  unfold lower, mem. induction s as [|a s (IH1 & IH2 & IH3)]; [done|].
  cbn [map]. fold mem in *.
  destruct (lower_char_delimiter a) as (-> & -> & -> & _).
  by rewrite IH1, IH2, IH3.
Qed.

Lemma split_absent c s : mem c s = false → split c s = [s].
Proof.
  unfold mem. induction s as [|a s IH]; [done|]. simpl. fold mem.
  intros [-> Hs]%orb_false_iff. by rewrite (IH Hs).
Qed.

(** A tracking parameter alone is no parameter of the key. *)
Lemma parse_qsl_tracking name v :
  name ∈ ignore_params → mem "&" v = false →
  List.filter (λ kv, negb (str_in_list kv.1 ignore_params))
    (parse_qsl (name +:+ String "=" v)) = [].
Proof.
  intros Hname Hv. unfold parse_qsl.
  assert (mem "&" (name +:+ String "=" v) = false) as Hnv.
  { rewrite str_mem_app. unfold mem at 2. simpl. fold mem. rewrite Hv.
    repeat (apply elem_of_cons in Hname as [->|Hname]; [done|]).
    by apply elem_of_nil in Hname. }
  rewrite (split_absent _ _ Hnv). cbn [flat_map]. rewrite app_nil_r.
  repeat (apply elem_of_cons in Hname as [->|Hname];
          [by destruct v|]).
  by apply elem_of_nil in Hname.
Qed.

(** The key of a URL does not depend on a tracking parameter. *)
Lemma normalize_url_tracking url name v :
  name ∈ ignore_params →
  mem "?" url = false → mem "#" url = false →
  mem "&" v = false → mem "#" v = false →
  normalize_url (url +:+ String "?" (name +:+ String "=" v)) None
  = normalize_url url None.
Proof.
  intros Hname Hq Hh Hva Hvh.
  assert (lower (name +:+ String "=" v) = name +:+ String "=" (lower v)
          ∧ remove unsafe_url_byte (name +:+ String "=" (lower v))
            = name +:+ String "=" (remove unsafe_url_byte (lower v))
          ∧ mem "#" (name +:+ String "=" v) = false) as (Hlow & Hrem & Hnh).
  { pose proof Hname as Hname'.
    repeat (apply elem_of_cons in Hname' as [->|Hname'];
            [by repeat split; unfold mem; simpl; fold mem|]).
    by apply elem_of_nil in Hname'. }
  destruct (lower_mem_delimiter url) as (Hlq & Hlh & _).
  destruct (lower_mem_delimiter (name +:+ String "=" v)) as (_ & Hlnh & _).
  destruct (lower_mem_delimiter v) as (_ & _ & Hlva).
  unfold normalize_url.
  rewrite (urlparse_query url _ Hq Hh Hnh).
  destruct (urlparse url) as [p0|e]; [|done].
  cbn [fmap result_fmap mbind result_bind]. rewrite lower_app.
  change (lower (String "?" (name +:+ String "=" v)))
    with (String "?" (lower (name +:+ String "=" v))).
  rewrite urlparse_query; [|by rewrite ?Hlq, ?Hlh, ?Hlnh..].
  assert (urlparse (lower url) = urlparse (lower url +:+ "")) as Hnil
    by by rewrite str_app_nil_r.
  destruct (urlparse (lower url)) as [p|e] eqn:Hp; [|done].
  cbn [fmap result_fmap mbind result_bind scheme netloc path query].
  rewrite Hlow, Hrem, parse_qsl_tracking;
    [|done|by apply mem_remove; rewrite Hlva].
  assert (query p = "") as ->; [|done].
  apply urlparse_inv in Hp
    as (rest & nl & rest2 & l & pth & Hsch & Hnl & Hfrag & Hqu & _).
  rewrite <-Hlq in Hq. rewrite <-Hlh in Hh.
  apply (mem_lstrip _ c0_control_or_space), (mem_remove _ unsafe_url_byte)
    in Hq, Hh.
  assert (mem "?" rest = false) as Hrq.
  { apply split_scheme_inv in Hsch as [[_ ->]|(pre & _ & _ & Heq)]; [done|].
    rewrite Heq, str_mem_app in Hq. apply orb_false_iff in Hq as [_ Hq].
    unfold mem in Hq. simpl in Hq. by fold mem in Hq. }
  assert (mem "?" rest2 = false) as Hr2.
  { destruct (startswith "//" rest) eqn:Hsw; [|by destruct Hnl as [_ ->]].
    destruct Hnl as [Hnl _]. apply splitnetloc_inv in Hnl as [Heq _]; [|done].
    rewrite Heq, !str_mem_app in Hrq.
    by apply orb_false_iff in Hrq as [_ [_ ?]%orb_false_iff]. }
  assert (mem "?" l = false) as Hl.
  { apply split_at_inv in Hfrag as [_ [[-> _]| ->]]; [done|].
    rewrite str_mem_app in Hr2. by apply orb_false_iff in Hr2 as [? _]. }
  rewrite (split_at_absent _ _ Hl) in Hqu. by injection Hqu.
Qed.

(** A URL with a network location is not joined to the base. *)
Lemma normalize_url_absolute url base p :
  urlparse url = Ok p → truthy (netloc p) = true →
  normalize_url url (Some base) = normalize_url url None.
Proof.
  intros Hp Hn. unfold normalize_url. rewrite Hp.
  cbn [mbind result_bind]. by rewrite Hn.
Qed.

End QueryFacts.

(** C7.  [normalize_url] on ASCII URLs: a URL without a network location
    is first joined to the base, when one is given; the key is then
    rebuilt from the parse of the lowercased URL, with a lowercase scheme
    and host, [https] turned into [http], no slash at the end of the
    path, the tracking parameters removed and the others sorted by key,
    and no fragment (the key holds no [#]).  It raises where [urlparse]
    does, and an ASCII URL without square brackets always has a key.
    For any URL, the key is the same under [https] and [http], with or
    without a fragment, with or without a tracking parameter, and the
    base is not used for a URL with a network location.  So
    [http://site.edu/a] and [http://site.edu/a?utm_source=x] have the
    same key; the other instances show a relative URL resolved and
    parameters kept, decoded, sorted and encoded again. *)
Theorem normalize_url_contract :
  (∀ url base_url key,
     isascii url = true →
     (∀ base, base_url = Some base → isascii base = true) →
     normalize_url url base_url = Ok key →
     ∃ original resolved parsed,
       urlparse url = Ok original ∧
       Ok resolved
         = match base_url with
           | Some base =>
               if negb (truthy (netloc original)) && truthy base
               then urljoin base url else Ok url
           | None => Ok url
           end ∧
       urlparse (lower resolved) = Ok parsed ∧
       let scheme' := if String.eqb (scheme parsed) "https" then "http"
                      else scheme parsed in
       let path' := rstrip "/" (path parsed) in
       let kept := List.filter (λ kv, negb (str_in_list kv.1 ignore_params))
                               (parse_qsl (query parsed)) in
       key = urlunparse (mkParseResult scheme' (netloc parsed) path' ""
                                       (urlencode (sorted kept)) "") ∧
       forallb nonupper scheme' = true ∧
       forallb nonupper (netloc parsed) = true ∧
       scheme' ≠ "https" ∧
       endswith "/" path' = false ∧
       (∃ slashes, path parsed = path' +:+ slashes
                   ∧ forallb (λ c, chr_eqb c "/") slashes = true) ∧
       Forall (λ kv, kv.1 ∉ ignore_params) (sorted kept) ∧
       Sorted (λ p q, String.le p.1 q.1) (sorted kept) ∧
       sorted kept ≡ₚ kept ∧
       mem "#" key = false)
  ∧ (∀ url, isascii url = true → mem "[" url = false → mem "]" url = false →
            is_ok (normalize_url url None) = true)
  ∧ (∀ url base_url e,
       urlparse url = Raise e → normalize_url url base_url = Raise e)
  ∧ (∀ rest, normalize_url ("https://" +:+ rest) None
             = normalize_url ("http://" +:+ rest) None)
  ∧ (∀ url frag,
       mem "#" url = false →
       normalize_url (url +:+ String "#" frag) None = normalize_url url None)
  ∧ (∀ url name v,
       name ∈ ignore_params →
       mem "?" url = false → mem "#" url = false →
       mem "&" v = false → mem "#" v = false →
       normalize_url (url +:+ String "?" (name +:+ String "=" v)) None
       = normalize_url url None)
  ∧ (∀ url base original,
       urlparse url = Ok original → truthy (netloc original) = true →
       normalize_url url (Some base) = normalize_url url None)
  ∧ normalize_url "http://site.edu/a" None = Ok "http://site.edu/a"
  ∧ normalize_url "http://site.edu/a?utm_source=x" None = Ok "http://site.edu/a"
  ∧ normalize_url "../c/d.html?x=1" (Some "http://site.edu/a/b/")
    = Ok "http://site.edu/a/c/d.html?x=1"
  ∧ normalize_url "e?b=2&a=1" (Some "https://Site.edu/a/b")
    = Ok "http://site.edu/a/e?a=1&b=2"
  ∧ normalize_url "/b" (Some "http://site.edu/a") = Ok "http://site.edu/b"
  ∧ normalize_url "http://other.org/x" (Some "http://site.edu/a")
    = Ok "http://other.org/x"
  ∧ normalize_url
      "HTTPS://Site.EDU/A/?z=26&utm_medium=m&b=2&utm_campaign=c&a=1&b=1#top"
      None
    = Ok "http://site.edu/a?a=1&b=1&b=2&z=26"
  ∧ normalize_url "http://Site.edu/q?Name=J%C3%BCrgen+M&x=%ff" None
    = Ok "http://site.edu/q?name=j%C3%BCrgen+m&x=%EF%BF%BD"
  ∧ normalize_url "http://site.edu/a//?x=&y" None = Ok "http://site.edu/a"
  ∧ normalize_url "http://[::FFFF:1.2.3.4]:80/X" None
    = Ok "http://[::ffff:1.2.3.4]:80/x"
  ∧ normalize_url "http://[site.edu]/" None
    = Raise (ValueError
               "'site.edu' does not appear to be an IPv4 or IPv6 address")
  ∧ normalize_url "http://site.edu℀/" None
    = Raise (ValueError
               "netloc 'site.edu℀' contains invalid characters under NFKC normalization").
Proof.
  split.
  { intros url base_url key _ _. unfold normalize_url.
    destruct (urlparse url) as [original|] eqn:Ho; [|done]. simpl.
    destruct (match base_url with Some _ => _ | None => _ end)
      as [resolved|] eqn:Hr; [|done]. simpl.
    destruct (urlparse (lower resolved)) as [parsed|] eqn:Hp; [|done]. simpl.
    intros [= <-]. exists original, resolved, parsed.
    destruct (urlparse_chars nonupper _ _
                (λ c _, lower_char_nonupper c) (lower_nonupper _) Hp)
      as (Hs & Hn & _ & _).
    destruct (urlparse_no_hash _ _ Hp) as (Hs' & Hn' & Hp' & _).
    set (kept := List.filter _ _).
    repeat split; try done.
    + by destruct (String.eqb _ _).
    + destruct (String.eqb (scheme parsed) "https") eqn:He; [done|].
      by apply String.eqb_neq.
    + apply endswith_rstrip.
    + apply rstrip_spec.
    + apply Forall_forall. intros kv Hkv.
      rewrite sorted_Permutation in Hkv.
      apply list_elem_of_In, filter_In in Hkv as [_ Hkv].
      apply negb_true_iff, bool_decide_eq_false in Hkv. done.
    + apply sorted_by_key.
    + apply sorted_Permutation.
    + apply str_mem_forallb. apply urlunparse_no_hash.
      * by destruct (String.eqb _ _).
      * done.
      * destruct (rstrip_spec "/" (path parsed)) as (t & Ht & _).
        rewrite Ht in Hp'. by apply str_forallb_app_inv in Hp' as [? _].
      * apply urlencode_no_hash. }
  split.
  { intros url Hascii H1 H2. apply normalize_url_total; [done|].
    by apply no_bracket_mem. }
  split.
  { intros url base_url e He. unfold normalize_url. by rewrite He. }
  split; [apply normalize_url_https|].
  split; [apply normalize_url_fragment|].
  split; [apply normalize_url_tracking|].
  split; [apply normalize_url_absolute|].
  repeat split; vm_compute; reflexivity.
Qed.

Lemma normalize_url_contract_witness :
  ∃ original parsed,
    urlparse "E?b=2&utm_source=x&a=1#top" = Ok original
    ∧ urljoin "https://Site.edu/a/b" "E?b=2&utm_source=x&a=1#top"
      = Ok "https://Site.edu/a/E?b=2&utm_source=x&a=1#top"
    ∧ urlparse (lower "https://Site.edu/a/E?b=2&utm_source=x&a=1#top")
      = Ok parsed
    ∧ sorted (List.filter (λ kv, negb (str_in_list kv.1 ignore_params))
                (parse_qsl (query parsed)))
      = [("a", "1"); ("b", "2")]
    ∧ mem "#" "http://site.edu/a/e?a=1&b=2" = false.
Proof.
  destruct (proj1 normalize_url_contract
              "E?b=2&utm_source=x&a=1#top" (Some "https://Site.edu/a/b")
              "http://site.edu/a/e?a=1&b=2" eq_refl)
    as (original & resolved & parsed & Ho & Hr & Hp & _ & _ & _ & _ & _ & _
        & _ & _ & _ & Hm).
  - intros base [= <-]. reflexivity.
  - reflexivity.
  - vm_compute in Ho. injection Ho as <-.
    vm_compute in Hr. injection Hr as ->.
    vm_compute in Hp. injection Hp as <-.
    eexists _, _. repeat split; try reflexivity.
Defined.

(** C10.  [is_college_url] is [True] exactly when the URL parses and its
    network location holds [nitj.ac.in] somewhere: the host
    [nitj.ac.in.example.com] is in scope, and a URL that [urlparse]
    rejects gives [False]. *)
Theorem is_college_url_substring :
  (∀ url, is_college_url url = true
          ↔ ∃ parsed before after,
              urlparse url = Ok parsed
              ∧ netloc parsed = before +:+ "nitj.ac.in" +:+ after)
  ∧ (∀ url e, urlparse url = Raise e → is_college_url url = false)
  ∧ is_college_url "http://nitj.ac.in.example.com/admissions" = true
  ∧ urlparse "http://[nitj.ac.in/" = Raise (ValueError "Invalid IPv6 URL")
  ∧ is_college_url "http://[nitj.ac.in/" = false.
Proof.
  split; [|split; [|repeat split]].
  - intros url. unfold is_college_url.
    destruct (urlparse url) as [parsed|e].
    + rewrite contains_spec. split.
      * intros (l & r & ?). by exists parsed, l, r.
      * intros (? & l & r & [= <-] & ?). by exists l, r.
    + split; [done|]. by intros (? & ? & ? & ? & _).
  - intros url e He. unfold is_college_url. by rewrite He.
Qed.

(** ** Reasoning about the crawler *)

Section MonadFacts.
Context (R : relation ContentFetcher) `{!PreOrder R}.

Lemma runs_ret {A} (a : A) : runs R (mret a).
Proof. intros st. simpl. reflexivity. Qed.
Lemma runs_lift {A} (r : result A) : runs R (lift r).
Proof. intros st. simpl. reflexivity. Qed.
Lemma runs_gets {A} (f : ContentFetcher → A) : runs R (gets f).
Proof. intros st. simpl. reflexivity. Qed.
Lemma runs_modify f : (∀ st, R st (f st)) → runs R (modify f).
Proof. intros Hf st. apply Hf. Qed.
Lemma runs_interact {A} (ask : nat → A) ev :
  (∀ st, R st (set_trace (λ t, t ++ [ev]) st)) → runs R (interact ask ev).
Proof. intros Hf st. apply Hf. Qed.
Lemma runs_bind {A B} (m : M A) (k : A → M B) :
  runs R m → (∀ a, runs R (k a)) → runs R (m ≫= k).
Proof.
  intros Hm Hk st. unfold mbind, M_bind. specialize (Hm st).
  destruct (m st) as [[a|e] st1]; simpl in *; [|done].
  etrans; [done|]. apply Hk.
Qed.
Lemma runs_try_except {A} (m : M A) (h : exn → M A) :
  runs R m → (∀ e, runs R (h e)) → runs R (try_except m h).
Proof.
  intros Hm Hh st. unfold try_except. specialize (Hm st).
  destruct (m st) as [[a|e] st1]; simpl in *; [done|].
  etrans; [done|]. apply Hh.
Qed.
Lemma runs_for_each {A B} (l : list A) (body : B → A → M B) acc :
  (∀ b x, runs R (body b x)) → runs R (for_each l body acc).
Proof.
  intros Hbody. revert acc. induction l as [|x l IH]; intros acc; simpl.
  - apply runs_ret.
  - apply runs_bind; [apply Hbody|]. intros b. apply IH.
Qed.
End MonadFacts.

Lemma runs_weaken (R R' : relation ContentFetcher) {A} (m : M A) :
  (∀ st st', R st st' → R' st st') → runs R m → runs R' m.
Proof. intros H Hm st. apply H, Hm. Qed.

(** Breaks a monadic program into its statements. *)
Ltac runs_step :=
  lazymatch goal with
  | |- runs _ (mret _) => apply runs_ret; apply _
  | |- runs _ (lift _) => apply runs_lift; apply _
  | |- runs _ (gets _) => apply runs_gets; apply _
  | |- runs _ (_ ≫= _) => apply runs_bind; [apply _| |intros ?]
  | |- runs _ (try_except _ _) => apply runs_try_except; [apply _| |intros ?]
  | |- runs _ (for_each _ _ _) => apply runs_for_each; [apply _|intros ? ?]
  | |- runs _ (if ?b then _ else _) => destruct b eqn:?
  | |- runs _ (match ?x with _ => _ end) => destruct x eqn:?
  end.

(** Runs the monadic operations that are applied to a state. *)
Ltac mrun :=
  repeat (unfold mbind, M_bind, mret, M_ret, gets, modify, lift, interact,
            set_seen_links, set_relevant_links, set_non_college_urls,
            set_urls_not_fetched, set_error_urls, set_extracted_data,
            set_google_drive_urls, set_downloadables, set_empty_path_counter,
            set_current_url, set_storage_file, set_trace;
          cbn [fst snd negb orb andb seen_links relevant_links non_college_urls
               urls_not_fetched error_urls extracted_data google_drive_urls
               downloadables empty_path_counter current_url storage_file
               trace]).

Section CrawlFacts.
Context (W : World) (download_folder : string).
Implicit Types (st : ContentFetcher) (E : event → Prop).

Global Instance step_preorder E : PreOrder (step E).
Proof.
  split.
  - intros st. split; [done|auto|]. exists []. by rewrite app_nil_r.
  - intros st1 st2 st3 [Hs1 Hf1 (t1 & Ht1 & HE1)] [Hs2 Hf2 (t2 & Ht2 & HE2)].
    split.
    + by etrans.
    + intros k u Hku. destruct (Hf2 k u Hku) as [Hold|(Hn & Hs & Hu)].
      * destruct (Hf1 k u Hold) as [?|(Hn & Hs & Hu)]; [by left|right].
        split; [done|]. split; [|done].
        destruct Hs as [v Hv]. exists v. by eapply lookup_weaken.
      * right. split; [|done].
        destruct (seen_links st1 !! k) as [v|] eqn:Hv; [|done].
        eapply lookup_weaken in Hv; [|done]. congruence.
    + exists (t1 ++ t2). rewrite Ht2, Ht1, app_assoc. split; [done|].
      by apply Forall_app.
Qed.

Global Instance quiet_preorder E : PreOrder (quiet E).
Proof.
  split.
  - intros st. split; [done..|]. exists []. by rewrite app_nil_r.
  - intros st1 st2 st3 [Hs1 Hf1 (t1 & Ht1 & HE1)] [Hs2 Hf2 (t2 & Ht2 & HE2)].
    split; [congruence..|].
    exists (t1 ++ t2). rewrite Ht2, Ht1, app_assoc. split; [done|].
    by apply Forall_app.
Qed.

Lemma quiet_step E st st' : quiet E st st' → step E st st'.
Proof.
  intros [Hs Hf Ht]. split; [by rewrite Hs| |done].
  intros k u. rewrite Hf. auto.
Qed.

Lemma step_mono E E' st st' :
  (∀ ev, E ev → E' ev) → step E st st' → step E' st st'.
Proof.
  intros HE [Hs Hf (t & Ht & HEt)]. split; [done..|].
  exists t. split; [done|]. eapply Forall_impl; eauto.
Qed.

Lemma quiet_mono E E' st st' :
  (∀ ev, E ev → E' ev) → quiet E st st' → quiet E' st st'.
Proof.
  intros HE [Hs Hf (t & Ht & HEt)]. split; [done..|].
  exists t. split; [done|]. eapply Forall_impl; eauto.
Qed.

Lemma quiet_event E ev st :
  E ev → quiet E st (set_trace (λ t, t ++ [ev]) st).
Proof. intros HE. split; [done..|]. exists [ev]. split; [done|]. by constructor. Qed.

Lemma quiet_same E st st' :
  seen_links st' = seen_links st →
  relevant_links st' = relevant_links st →
  trace st' = trace st → quiet E st st'.
Proof.
  intros Hs Hf Ht. split; [done..|]. exists []. by rewrite app_nil_r.
Qed.

Lemma fetch_and_hash_content_quiet E url :
  E (EvHash url) → runs (quiet E) (fetch_and_hash_content W url).
Proof.
  intros HE. unfold fetch_and_hash_content.
  runs_step; [|runs_step]. apply runs_interact. intros st. by apply quiet_event.
Qed.

Lemma download_file_quiet E url local_folder filename :
  E (EvDownload url (path_join local_folder filename)) →
  runs (quiet E) (download_file W url local_folder filename).
Proof.
  intros HE. unfold download_file.
  runs_step; [|runs_step]. apply runs_interact. intros st. by apply quiet_event.
Qed.

Lemma handle_downloadable_quiet full_url a_tag loc :
  runs (quiet E_links) (handle_downloadable W download_folder full_url a_tag loc).
Proof.
  unfold handle_downloadable. destruct loc as [dd counter].
  repeat runs_step;
    try (apply runs_modify; intros st; by apply quiet_same).
  by apply download_file_quiet.
Qed.

#[local] Arguments normalize_url : simpl never.
#[local] Arguments urljoin : simpl never.
#[local] Arguments get_name_from_url : simpl never.
#[local] Arguments is_college_url : simpl never.
#[local] Arguments is_pdf_url : simpl never.
#[local] Arguments is_google_drive_url : simpl never.
#[local] Arguments extract_google_drive_file_id : simpl never.
#[local] Arguments existsb : simpl never.
#[local] Arguments truthy : simpl never.
#[local] Arguments in_keys : simpl never.
#[local] Arguments in_values : simpl never.
#[local] Arguments handle_downloadable : simpl never.
#[local] Arguments fetch_and_hash_content : simpl never.

Lemma in_keys_false {V} k (d : gmap string V) :
  in_keys k d = false → d !! k = None.
Proof.
  unfold in_keys. intros H%bool_decide_eq_false.
  by apply eq_None_not_Some.
Qed.

Lemma dict_set_elem k v d k' v' :
  (k', v') ∈ dict_set k v d → (k', v') = (k, v) ∨ (k', v') ∈ d.
Proof.
  induction d as [|[k0 v0] d IH]; simpl.
  - intros ->%list_elem_of_singleton. by left.
  - destruct (String.eqb k0 k).
    + intros [->|?]%elem_of_cons; [by left|right]. by apply elem_of_cons; right.
    + intros [->|H]%elem_of_cons; [right; by apply elem_of_cons; left|].
      destruct (IH H); [by left|right]. by apply elem_of_cons; right.
Qed.

Lemma process_anchor_step loc a :
  runs (step E_links) (process_anchor W download_folder loc a).
Proof.
  intros st. unfold process_anchor. simpl.
  unfold mbind at 1, M_bind at 1. simpl.
  unfold mbind at 1, M_bind at 1. unfold lift at 1.
  destruct (urljoin (current_url st) (href a)) as [full_url|]; [|reflexivity].
  unfold mbind at 1, M_bind at 1. unfold lift at 1.
  destruct (normalize_url full_url None) as [key|] eqn:Hkey; [|reflexivity].
  destruct (existsb _ media_extensions); [reflexivity|].
  destruct (existsb _ document_extensions).
  { apply quiet_step, handle_downloadable_quiet. }
  unfold mbind at 1, M_bind at 1. simpl.
  destruct (negb (truthy key) || in_keys key (seen_links st)) eqn:Hdup;
    [reflexivity|].
  apply orb_false_iff in Hdup as [_ Hfresh%in_keys_false].
  unfold mbind at 1, M_bind at 1.
  pose proof (fetch_and_hash_content_quiet E_links full_url I st) as Hq.
  destruct (fetch_and_hash_content W full_url st) as [[h|e] st1];
    simpl in Hq; [|by apply quiet_step].
  destruct Hq as [Hs Hf Ht]. mrun.
  destruct (truthy_opt h && negb (in_values h (seen_links st1))); mrun.
  - split; mrun.
    + rewrite Hs. by apply insert_subseteq.
    + intros k u [[= -> ->]|Hin]%dict_set_elem.
      * right. split; [done|]. split; [|done]. mrun. by rewrite lookup_insert_eq.
      * left. by rewrite <-Hf.
    + done.
  - apply quiet_step. by split.
Qed.

Lemma E_links_entry url ev : E_links ev → E_entry url ev.
Proof. by destruct ev. Qed.
Lemma E_entry_crawl url ev : E_entry url ev → E_crawl ev.
Proof. destruct ev; simpl; try done; by intros [-> ?]. Qed.

(** Closes the goals about statements that only write other fields. *)
Ltac quiet_leaf :=
  first
    [ apply runs_modify; intros ?; apply quiet_step, quiet_same; reflexivity
    | apply runs_modify; intros ?; apply quiet_same; reflexivity ].

Lemma process_href_links_step soup :
  runs (step E_links) (process_href_links W download_folder soup).
Proof.
  unfold process_href_links. runs_step; [|runs_step].
  runs_step. apply process_anchor_step.
Qed.

Lemma fetch_content_step url :
  is_college_url url = true →
  runs (step (E_entry url)) (fetch_content W download_folder url).
Proof.
  intros Hin. unfold fetch_content.
  repeat runs_step; try quiet_leaf.
  - apply runs_interact. intros st. by apply quiet_step, quiet_event.
  - eapply runs_weaken; [|apply process_href_links_step].
    intros ??. apply step_mono, E_links_entry.
Qed.

Lemma own_name_from_url_quiet E url : runs (quiet E) (own_name_from_url url).
Proof. unfold own_name_from_url. repeat runs_step; quiet_leaf. Qed.

Lemma download_pdf_quiet download_url url key filename gd :
  runs (quiet E_links) (download_pdf W download_url url key filename gd).
Proof.
  unfold download_pdf. repeat runs_step; try quiet_leaf.
  by apply download_file_quiet.
Qed.

Lemma can_fetch_content_quiet E url :
  E (EvHead url) → runs (quiet E) (can_fetch_content W url).
Proof.
  intros HE. unfold can_fetch_content. repeat runs_step.
  apply runs_interact. intros st. by apply quiet_event.
Qed.

(** What [process_entry] does after it has taken the entry. *)
Lemma process_entry_step url st :
  step (E_entry url) (set_trace (λ t, t ++ [EvEntry url]) st)
       (process_entry W download_folder () url st).2.
Proof.
  unfold process_entry. unfold mbind at 1, M_bind at 1, interact at 1.
  generalize (set_trace (λ t, t ++ [EvEntry url]) st). clear st.
  match goal with
  | |- ∀ s, step ?E s (?m s).2 => change (runs (step E) m)
  end.
  repeat runs_step; try quiet_leaf.
  - eapply runs_weaken; [|apply (own_name_from_url_quiet (E_entry url))].
    apply quiet_step.
  - eapply runs_weaken; [|apply download_pdf_quiet].
    intros ?? H%quiet_step. eapply step_mono; [|done]. apply E_links_entry.
  - eapply runs_weaken; [|apply download_pdf_quiet].
    intros ?? H%quiet_step. eapply step_mono; [|done]. apply E_links_entry.
  - eapply runs_weaken; [|by apply (can_fetch_content_quiet (E_entry url))].
    apply quiet_step.
  - by apply fetch_content_step.
Qed.

Lemma entries_app t1 t2 : entries (t1 ++ t2) = entries t1 ++ entries t2.
Proof.
  induction t1 as [|ev t1 IH]; [done|]. destruct ev; simpl; by rewrite IH.
Qed.

Lemma entries_E_entry url t : Forall (E_entry url) t → entries t = [].
Proof. induction 1 as [|ev t Hev _ IH]; [done|]. by destruct ev. Qed.

Lemma process_entry_crawl url st :
  let st' := (process_entry W download_folder () url st).2 in
  step E_crawl st st'
  ∧ ∃ t, trace st' = trace st ++ t ∧ entries t = [url].
Proof.
  pose proof (process_entry_step url st) as Hstep. simpl. split.
  - etrans; [apply quiet_step, (quiet_event E_crawl (EvEntry url)); done|].
    eapply step_mono; [|done]. apply E_entry_crawl.
  - destruct Hstep as [_ _ (t & Ht & HE)]. simpl in Ht.
    exists (EvEntry url :: t). rewrite Ht, <-app_assoc. split; [done|].
    simpl. by rewrite (entries_E_entry url).
Qed.

(** Walking a snapshot: the entries taken are the URLs of the
    snapshot, in order, all of them unless an exception ends the walk. *)
Lemma for_each_entries l st :
  let res := for_each l (process_entry W download_folder) () st in
  step E_crawl st res.2
  ∧ ∃ t, trace res.2 = trace st ++ t
         ∧ entries t `prefix_of` l
         ∧ (res.1 = Ok () → entries t = l).
Proof.
  revert st. induction l as [|url l IH]; intros st; simpl.
  - split; [reflexivity|]. exists []. by rewrite app_nil_r.
  - destruct (process_entry_crawl url st) as [Hstep (t & Ht & Hent)].
    unfold mbind, M_bind.
    destruct (process_entry W download_folder () url st) as [[[]|e] st1];
      simpl in *.
    + destruct (IH st1) as [Hstep' (t' & Ht' & Hpre & Hall)].
      split; [by etrans|].
      exists (t ++ t'). rewrite Ht', Ht, app_assoc.
      rewrite entries_app, Hent.
      split; [done|]. split; [by apply prefix_cons|].
      intros Hok. simpl. f_equal. auto.
    + split; [done|]. exists t. split; [done|]. rewrite Hent.
      split; [|done]. apply prefix_cons, prefix_nil.
Qed.

Lemma wave_step : runs (step E_crawl) (wave W download_folder).
Proof.
  unfold wave. repeat runs_step.
  - apply runs_modify. intros st. split; [done| |].
    + by intros k u ?%elem_of_nil.
    + exists []. by rewrite app_nil_r.
  - intros st. destruct b. apply process_entry_crawl.
Qed.

Lemma waves_step fuel : runs (step E_crawl) (waves W download_folder fuel).
Proof.
  induction fuel as [|fuel IH]; simpl; repeat runs_step; try done.
  apply wave_step.
Qed.

Lemma seed_is_duplicate_quiet url key :
  runs (quiet E_crawl) (seed_is_duplicate W url key).
Proof.
  unfold seed_is_duplicate. repeat runs_step.
  by apply fetch_and_hash_content_quiet.
Qed.

Lemma seed_is_duplicate_fresh url key st :
  (seed_is_duplicate W url key st).1 = Ok false →
  seen_links st !! key = None.
Proof.
  unfold seed_is_duplicate. mrun.
  destruct (in_keys key (seen_links st)) eqn:Hk; [done|].
  intros _. by apply in_keys_false.
Qed.

(** The loop of [process_url] and what follows it. *)
Lemma process_url_loop_step fuel :
  runs (step E_crawl)
    (drained ← waves W download_folder fuel;
     if (drained : bool) then save_data;; quit_driver;; mret true
     else mret false).
Proof.
  repeat runs_step; try quiet_leaf.
  - apply waves_step.
  - unfold save_data. repeat runs_step; try quiet_leaf.
    apply runs_interact. intros st. by apply quiet_step, quiet_event.
  - apply runs_interact. intros st. by apply quiet_step, quiet_event.
Qed.

Lemma process_url_step fuel url :
  runs (step E_crawl) (process_url W download_folder fuel url).
Proof.
  intros st. unfold process_url.
  unfold mbind at 1, M_bind at 1, lift at 1.
  destruct (normalize_url url None) as [key|] eqn:Hkey; [|reflexivity].
  unfold mbind at 1, M_bind at 1.
  pose proof (seed_is_duplicate_quiet url key st) as Hq.
  pose proof (seed_is_duplicate_fresh url key st) as Hfresh.
  destruct (seed_is_duplicate W url key st) as [[[]|e] st1];
    simpl in Hq, Hfresh; [by apply quiet_step| |by apply quiet_step].
  specialize (Hfresh eq_refl).
  unfold mbind at 1, M_bind at 1.
  pose proof (fetch_and_hash_content_quiet E_crawl url I st1) as Hq'.
  destruct (fetch_and_hash_content W url st1) as [[h|e] st2];
    simpl in Hq'; [|apply quiet_step; by etrans].
  assert (quiet E_crawl st st2) as [Hs Hf Ht] by (by etrans).
  clear Hq Hq' st1.
  unfold mbind at 1, M_bind at 1, modify at 1.
  unfold mbind at 1, M_bind at 1, modify at 1.
  set (st3 := set_relevant_links _ _).
  assert (step E_crawl st st3) as Hstep.
  { subst st3. split; mrun.
    - rewrite Hs. by apply insert_subseteq.
    - intros k u [[= -> ->]|Hin]%dict_set_elem.
      + right. split; [done|]. split; [|done]. mrun.
        by rewrite lookup_insert_eq.
      + left. by rewrite <-Hf.
    - done. }
  etrans; [done|]. apply process_url_loop_step.
Qed.
End CrawlFacts.

Section FrontierFacts.
Context (W : World) (download_folder : string).
#[local] Arguments normalize_url : simpl never.
#[local] Arguments is_college_url : simpl never.

Lemma step_frontier_ok E st st' :
  step E st st' → frontier_ok st → frontier_ok st'.
Proof.
  intros [Hs Hf _] Hok k u Hku.
  destruct (Hf k u Hku) as [Hold|(_ & ? & ?)]; [|done].
  destruct (Hok k u Hold) as [[v Hv] ?]. split; [|done].
  exists v. by eapply lookup_weaken.
Qed.
End FrontierFacts.



Section EntryFacts.
Context (W : World) (download_folder : string).
#[local] Arguments normalize_url : simpl never.
#[local] Arguments is_college_url : simpl never.
#[local] Arguments is_pdf_url : simpl never.
#[local] Arguments is_google_drive_url : simpl never.
#[local] Arguments urljoin : simpl never.
#[local] Arguments existsb : simpl never.
#[local] Arguments truthy : simpl never.
#[local] Arguments in_keys : simpl never.
#[local] Arguments in_values : simpl never.

Lemma fetch_and_hash_content_eq url st :
  fetch_and_hash_content W url st
  = (Ok (fingerprint_at W (length (trace st)) url),
     set_trace (λ t, t ++ [EvHash url]) st).
Proof. reflexivity. Qed.

Lemma in_keys_None {V} k (d : gmap string V) :
  d !! k = None → in_keys k d = false.
Proof.
  intros H. apply bool_decide_eq_false. rewrite H. by intros [? ?].
Qed.

(** A link that is no media or document link, whose key is new and
    whose fingerprint is missing, leaves everything as it was. *)
Lemma process_anchor_no_fingerprint loc a full_url key st :
  urljoin (current_url st) (href a) = Ok full_url →
  normalize_url full_url None = Ok key →
  existsb (λ ext, endswith ext (href a)) media_extensions = false →
  existsb (λ ext, endswith ext (href a)) document_extensions = false →
  truthy key = true →
  seen_links st !! key = None →
  truthy_opt (fingerprint_at W (length (trace st)) full_url) = false →
  process_anchor W download_folder loc a st
  = (Ok loc, set_trace (λ t, t ++ [EvHash full_url]) st).
Proof.
  intros Hjoin Hkey Hmedia Hdoc Htruthy Hnew Hfp.
  unfold process_anchor. mrun. rewrite Hjoin. mrun. rewrite Hkey.
  rewrite Hmedia, Hdoc. mrun.
  rewrite Htruthy, (in_keys_None _ _ Hnew). mrun.
  rewrite fetch_and_hash_content_eq. mrun. by rewrite Hfp.
Qed.


(** A link that is no media or document link, whose key is new and whose
    fingerprint is there: it is recorded and put into the frontier unless
    the fingerprint is a value of the registry. *)
Lemma process_anchor_with_fingerprint loc a full_url key h st :
  urljoin (current_url st) (href a) = Ok full_url →
  normalize_url full_url None = Ok key →
  existsb (λ ext, endswith ext (href a)) media_extensions = false →
  existsb (λ ext, endswith ext (href a)) document_extensions = false →
  truthy key = true →
  seen_links st !! key = None →
  fingerprint_at W (length (trace st)) full_url = Some h →
  truthy h = true →
  process_anchor W download_folder loc a st
  = (Ok loc,
     if in_values (Some h) (seen_links st)
     then set_trace (λ t, t ++ [EvHash full_url]) st
     else set_relevant_links (dict_set key full_url)
            (set_seen_links <[key := Some h]>
               (set_trace (λ t, t ++ [EvHash full_url]) st))).
Proof.
  intros Hjoin Hkey Hmedia Hdoc Htruthy Hnew Hfp Hh.
  unfold process_anchor. mrun. rewrite Hjoin. mrun. rewrite Hkey.
  rewrite Hmedia, Hdoc. mrun.
  rewrite Htruthy, (in_keys_None _ _ Hnew). mrun.
  rewrite fetch_and_hash_content_eq. mrun. rewrite Hfp. simpl. rewrite Hh.
  by destruct (in_values (Some h) (seen_links st)).
Qed.

Lemma handle_downloadable_downloads full_url a_tag loc :
  runs (quiet E_download)
       (handle_downloadable W download_folder full_url a_tag loc).
Proof.
  unfold handle_downloadable. destruct loc as [dd counter].
  repeat runs_step;
    try (apply runs_modify; intros st; by apply quiet_same).
  by apply download_file_quiet.
Qed.

Lemma E_download_no_hash t : Forall E_download t → List.filter is_hash t = [].
Proof. induction 1 as [|ev t Hev _ IH]; [done|]. by destruct ev. Qed.

(** For one anchor the hasher is called at most once. *)
Lemma process_anchor_hashes_once loc a st :
  ∃ t, trace (process_anchor W download_folder loc a st).2 = trace st ++ t
       ∧ length (List.filter is_hash t) ≤ 1.
Proof.
  assert (∀ r : result Locals, ∃ t, trace (r, st).2 = trace st ++ t
                    ∧ length (List.filter is_hash t) ≤ 1) as Hnone.
  { intros r. exists []. rewrite app_nil_r. split; [done|simpl; lia]. }
  unfold process_anchor. mrun.
  destruct (urljoin (current_url st) (href a)) as [full_url|];
    [|apply (Hnone (Raise e))]. mrun.
  destruct (normalize_url full_url None) as [key|]; [|apply (Hnone (Raise e))].
  destruct (existsb _ media_extensions); [apply (Hnone (Ok loc))|].
  destruct (existsb _ document_extensions).
  { destruct (handle_downloadable_downloads full_url a loc st)
      as [_ _ (t & Ht & HE)].
    exists t. split; [done|]. rewrite (E_download_no_hash t HE). simpl. lia. }
  mrun. destruct (negb (truthy key) || in_keys key (seen_links st));
    [apply (Hnone (Ok loc))|].
  rewrite fetch_and_hash_content_eq. mrun.
  exists [EvHash full_url]. split; [|done].
  by destruct (truthy_opt _ && _).
Qed.
End EntryFacts.

(** Decides a closed proposition by evaluation. *)
Ltac by_eval :=
  lazymatch goal with
  | |- ?P => apply (@bool_decide_unpack P _); vm_compute; exact I
  end.




(** C3 (as amended).  A newly found link whose key is new and for which
    the hasher returns no fingerprint is dropped: after the one GET the
    state is as before, the link neither recorded into [seen_links] nor
    put into the frontier. *)
Theorem link_without_fingerprint_dropped (W : World) (download_folder : string)
    (st : ContentFetcher) (loc : Locals) (a : Anchor) (full_url key : string) :
  urljoin (current_url st) (href a) = Ok full_url →
  normalize_url full_url None = Ok key →
  existsb (λ ext, endswith ext (href a)) media_extensions = false →
  existsb (λ ext, endswith ext (href a)) document_extensions = false →
  truthy key = true →
  seen_links st !! key = None →
  fingerprint_at W (length (trace st)) full_url = None →
  process_anchor W download_folder loc a st
  = (Ok loc, set_trace (λ t, t ++ [EvHash full_url]) st).
Proof.
  intros Hjoin Hkey Hmedia Hdoc Htruthy Hnew Hfp.
  eapply process_anchor_no_fingerprint; eauto. by rewrite Hfp.
Qed.

Lemma link_without_fingerprint_dropped_witness :
  process_anchor no_fingerprint_world "fetched_downloadables" (∅, 1)
    (mkAnchor "/events" "Events") (init "http://nitj.ac.in/" None)
  = (Ok (∅, 1),
     set_trace (λ t, t ++ [EvHash "http://nitj.ac.in/events"])
       (init "http://nitj.ac.in/" None)).
Proof.
  apply (link_without_fingerprint_dropped no_fingerprint_world
           "fetched_downloadables" (init "http://nitj.ac.in/" None) (∅, 1)
           (mkAnchor "/events" "Events")
           "http://nitj.ac.in/events" "http://nitj.ac.in/events");
    reflexivity.
Defined.

(** C3, counterexample.  The GET of a link of the home page answers 503:
    when the run ends the link is no key of [seen_links], no wave has
    taken it and it is no error either. *)
Lemma link_without_fingerprint_not_enqueued :
  no_fingerprint_run.1 = Ok true
  ∧ EvHash "http://nitj.ac.in/events" ∈ trace no_fingerprint_run.2
  ∧ normalize_url "http://nitj.ac.in/events" None = Ok "http://nitj.ac.in/events"
  ∧ seen_links no_fingerprint_run.2 !! "http://nitj.ac.in/events" = None
  ∧ (EvEntry "http://nitj.ac.in/events" ∉ trace no_fingerprint_run.2)
  ∧ ("http://nitj.ac.in/events" ∉ error_urls no_fingerprint_run.2).
Proof. repeat split; try (vm_compute; reflexivity); by_eval. Qed.

(** C5.  The test at the head of [process_url] holds exactly when the key
    is in [seen_links] or the value returned by the hasher, [None]
    included, is one of its values; a link with a fingerprint is recorded
    exactly when its key is new and the fingerprint is no value of the
    registry.  So, once a seed has been recorded without a fingerprint, a
    new seed without a fingerprint is judged to be processed already: the
    second run below skips a URL it never saw. *)
Theorem absent_fingerprint_seed_judged_duplicate :
  (∀ W url key st,
     (seed_is_duplicate W url key st).1
     = Ok (in_keys key (seen_links st)
           || in_values (fingerprint_at W (length (trace st)) url)
                        (seen_links st)))
  ∧ (∀ W download_folder loc a full_url key h st,
       urljoin (current_url st) (href a) = Ok full_url →
       normalize_url full_url None = Ok key →
       existsb (λ ext, endswith ext (href a)) media_extensions = false →
       existsb (λ ext, endswith ext (href a)) document_extensions = false →
       truthy key = true →
       seen_links st !! key = None →
       fingerprint_at W (length (trace st)) full_url = Some h →
       truthy h = true →
       process_anchor W download_folder loc a st
       = (Ok loc,
          if in_values (Some h) (seen_links st)
          then set_trace (λ t, t ++ [EvHash full_url]) st
          else set_relevant_links (dict_set key full_url)
                 (set_seen_links <[key := Some h]>
                    (set_trace (λ t, t ++ [EvHash full_url]) st))))
  ∧ offline_first_run.1 = Ok true
  ∧ seen_links offline_second_start !! "http://nitj.ac.in/a" = Some None
  ∧ normalize_url "http://nitj.ac.in/b" None = Ok "http://nitj.ac.in/b"
  ∧ seen_links offline_second_start !! "http://nitj.ac.in/b" = None
  ∧ fingerprint_at offline_world 0 "http://nitj.ac.in/b" = None
  ∧ (seed_is_duplicate offline_world "http://nitj.ac.in/b"
       "http://nitj.ac.in/b" offline_second_start).1 = Ok true
  ∧ offline_second_run.1 = Ok true
  ∧ trace offline_second_run.2 = [EvHash "http://nitj.ac.in/b"]
  ∧ seen_links offline_second_run.2 !! "http://nitj.ac.in/b" = None.
Proof.
  split; [|split; [|repeat split; vm_compute; reflexivity]].
  - intros W url key st. unfold seed_is_duplicate. mrun.
    destruct (in_keys key (seen_links st)); [done|].
    by rewrite fetch_and_hash_content_eq.
  - intros. by eapply process_anchor_with_fingerprint.
Qed.

(** C6.  The name derived from a document URL is the same with and
    without a fragment, but a link that ends in a fragment is not taken
    for a document link: when a later page links to
    [http://nitj.ac.in/doc.pdf#section2] after [doc.pdf] was downloaded,
    the link is hashed, recorded in [seen_links], put into the frontier
    and opened in the browser as a page, whose record is stored. *)
Theorem fragment_link_not_skipped :
  (∀ n url frag,
     mem "#" url = false →
     get_name_from_url n (url +:+ String "#" frag) = get_name_from_url n url)
  ∧ (∀ n, get_name_from_url n "http://nitj.ac.in/doc.pdf" = Ok ("doc", n)
          ∧ get_name_from_url n "http://nitj.ac.in/doc.pdf#section2"
            = Ok ("doc", n))
  ∧ existsb (λ ext, endswith ext "http://nitj.ac.in/doc.pdf#section2")
      document_extensions = false
  ∧ is_pdf_url "http://nitj.ac.in/doc.pdf#section2" = false
  ∧ fragment_run.1 = Ok true
  ∧ downloadables fragment_run.2 !! "pdf"
    = Some [("doc", "http://nitj.ac.in/doc.pdf")]
  ∧ EvHash "http://nitj.ac.in/doc.pdf#section2" ∈ trace fragment_run.2
  ∧ EvEntry "http://nitj.ac.in/doc.pdf#section2" ∈ trace fragment_run.2
  ∧ EvBrowse "http://nitj.ac.in/doc.pdf#section2" ∈ trace fragment_run.2
  ∧ seen_links fragment_run.2 !! "http://nitj.ac.in/doc.pdf"
    = Some (Some "sha256 of http://nitj.ac.in/doc.pdf#section2")
  ∧ extracted_data fragment_run.2 !! "http://nitj.ac.in/doc.pdf"
    = Some (PageContent "text" "images"
              {[ "pdf" := []; "docx" := []; "xlsx" := []; "zip" := [] ]}
              "videos").
Proof.
  split; [apply get_name_from_url_fragment|].
  split; [intros n; split; reflexivity|].
  repeat split; try (vm_compute; reflexivity); by_eval.
Qed.

(** C8.  Saving the checkpoint and loading it in a new [ContentFetcher]
    gives back the registry, the three classification sets, the extracted
    data, the Google Drive set and the download registry. *)
Theorem checkpoint_round_trip (st : ContentFetcher) (driver_url : string) :
  let loaded := init driver_url (storage_file (save_data st).2) in
  seen_links loaded = seen_links st
  ∧ downloadables loaded = downloadables st
  ∧ extracted_data loaded = extracted_data st
  ∧ non_college_urls loaded = non_college_urls st
  ∧ urls_not_fetched loaded = urls_not_fetched st
  ∧ error_urls loaded = error_urls st
  ∧ google_drive_urls loaded = google_drive_urls st.
Proof. repeat split; reflexivity. Qed.

(** A seed that is no duplicate: the state when the loop starts. *)
Lemma process_url_fresh_seed (W : World) (download_folder : string)
    (fuel : nat) (url key : string) (st : ContentFetcher) :
  normalize_url url None = Ok key →
  seen_links st !! key = None →
  in_values (fingerprint_at W (length (trace st)) url) (seen_links st) = false →
  process_url W download_folder fuel url st
  = (drained ← waves W download_folder fuel;
     if (drained : bool) then save_data;; quit_driver;; mret true
     else mret false)
      (set_relevant_links (dict_set key url)
         (set_seen_links
            <[key := fingerprint_at W (S (length (trace st))) url]>
            (set_trace (λ t, t ++ [EvHash url; EvHash url]) st))).
Proof.
  intros Hkey Hnew Hnd.
  assert (seed_is_duplicate W url key st
          = (Ok false, set_trace (λ t, t ++ [EvHash url]) st)) as Hdup.
  { unfold seed_is_duplicate. mrun. rewrite (in_keys_None _ _ Hnew).
    rewrite fetch_and_hash_content_eq. mrun. by rewrite Hnd. }
  unfold process_url.
  unfold mbind at 1, M_bind at 1, lift at 1. rewrite Hkey.
  unfold mbind at 1, M_bind at 1. rewrite Hdup.
  unfold mbind at 1, M_bind at 1. rewrite fetch_and_hash_content_eq.
  unfold mbind at 1, M_bind at 1, modify at 1.
  unfold mbind at 1, M_bind at 1, modify at 1.
  f_equal. mrun. by rewrite length_app, Nat.add_1_r, <-app_assoc.
Qed.

(** C9.  For a seed that is not a duplicate, [process_url] calls the
    hasher twice: the first answer decides, the second is recorded.  In
    the run below the first GET gives a fingerprint and the second fails,
    so the seed is recorded without the fingerprint it was judged by.
    For a link [process_href_links] calls the hasher at most once. *)
Theorem seed_fingerprint_fetched_twice (W : World) (download_folder : string)
    (fuel : nat) (url key : string) (st : ContentFetcher) :
  normalize_url url None = Ok key →
  seen_links st !! key = None →
  in_values (fingerprint_at W (length (trace st)) url) (seen_links st) = false →
  (∃ t, trace (process_url W download_folder fuel url st).2
        = trace st ++ EvHash url :: EvHash url :: t)
  ∧ seen_links (process_url W download_folder fuel url st).2 !! key
    = Some (fingerprint_at W (S (length (trace st))) url)
  ∧ fingerprint_at flaky_world 0 "http://nitj.ac.in/"
    = Some "sha256 of http://nitj.ac.in/"
  ∧ seen_links flaky_run.2 !! "http://nitj.ac.in" = Some None
  ∧ (∀ loc a st0,
       ∃ t, trace (process_anchor W download_folder loc a st0).2
            = trace st0 ++ t
            ∧ length (List.filter is_hash t) ≤ 1).
Proof.
  intros Hkey Hnew Hnd.
  rewrite (process_url_fresh_seed _ _ _ _ _ _ Hkey Hnew Hnd).
  match goal with
  | |- context [(?m ?s).2] =>
      destruct (process_url_loop_step W download_folder fuel s)
        as [Hseen _ (t & Ht & _)]
  end.
  split; [|split; [|split; [|split]]].
  - exists t. rewrite Ht. mrun. by rewrite <-!app_assoc.
  - eapply lookup_weaken; [|exact Hseen]. mrun. apply lookup_insert_eq.
  - vm_compute. reflexivity.
  - vm_compute. reflexivity.
  - apply process_anchor_hashes_once.
Qed.

Lemma seed_fingerprint_fetched_twice_witness :
  (∃ t, trace flaky_run.2
        = [] ++ EvHash "http://nitj.ac.in/" :: EvHash "http://nitj.ac.in/" :: t)
  ∧ seen_links flaky_run.2 !! "http://nitj.ac.in"
    = Some (fingerprint_at flaky_world 1 "http://nitj.ac.in/").
Proof.
  destruct (seed_fingerprint_fetched_twice flaky_world "fetched_downloadables"
              5 "http://nitj.ac.in/" "http://nitj.ac.in" (init "data:," None)
              eq_refl eq_refl eq_refl) as (Ht & Hs & _).
  split; [exact Ht|exact Hs].
Defined.

(** * Further properties *)

(** ** What a crawl keeps and how it files what it adds *)

Section GrowsBase.
Implicit Types (st : ContentFetcher) (K : string → Prop).
#[local] Arguments normalize_url : simpl never.
#[local] Arguments urljoin : simpl never.
#[local] Arguments get_name_from_url : simpl never.
#[local] Arguments is_college_url : simpl never.
#[local] Arguments is_pdf_url : simpl never.
#[local] Arguments is_google_drive_url : simpl never.
#[local] Arguments extract_google_drive_file_id : simpl never.
#[local] Arguments existsb : simpl never.
#[local] Arguments truthy : simpl never.
#[local] Arguments in_keys : simpl never.
#[local] Arguments in_values : simpl never.
#[local] Arguments registered : simpl never.
#[local] Arguments path_join : simpl never.

Global Instance grows_preorder K : PreOrder (grows K).
Proof.
  split.
  - intros st. split; try done; try (intros; by left).
    intros k. destruct (downloadables st !! k) as [l|]; [|done].
    exists []. by rewrite app_nil_r.
  - intros st1 st2 st3 H1 H2. split.
    + etrans; [apply H1|apply H2].
    + intros u Hu. destruct (grows_non_college_new _ _ _ H2 u Hu); [|by right].
      by apply (grows_non_college_new _ _ _ H1).
    + etrans; [apply H1|apply H2].
    + intros u Hu. destruct (grows_not_fetched_new _ _ _ H2 u Hu); [|by right].
      by apply (grows_not_fetched_new _ _ _ H1).
    + etrans; [apply H1|apply H2].
    + intros u Hu. destruct (grows_error_new _ _ _ H2 u Hu); [|by right].
      by apply (grows_error_new _ _ _ H1).
    + etrans; [apply H1|apply H2].
    + intros k Hk. by apply H2, H1.
    + intros k Hk. destruct (grows_extracted_new _ _ _ H2 k Hk); [|by right].
      by apply (grows_extracted_new _ _ _ H1).
    + intros k. pose proof (grows_downloadables _ _ _ H1 k) as Hd1.
      pose proof (grows_downloadables _ _ _ H2 k) as Hd2.
      destruct (downloadables st1 !! k) as [l|].
      * destruct Hd1 as [l1 Hl1]. rewrite Hl1 in Hd2.
        destruct Hd2 as [l2 Hl2]. exists (l1 ++ l2). by rewrite app_assoc.
      * by rewrite Hd1 in Hd2.
    + intros Hn. by apply H2, H1.
Qed.

Lemma grows_mono K K' st st' :
  (∀ k, K k → K' k) → grows K st st' → grows K' st st'.
Proof.
  intros HK H. split; try apply H.
  intros k Hk. destruct (grows_extracted_new _ _ _ H k Hk); auto.
Qed.

(** A statement that writes none of the fields in question. *)
Lemma grows_same K st st' :
  non_college_urls st' = non_college_urls st →
  urls_not_fetched st' = urls_not_fetched st →
  error_urls st' = error_urls st →
  google_drive_urls st' = google_drive_urls st →
  extracted_data st' = extracted_data st →
  downloadables st' = downloadables st →
  grows K st st'.
Proof.
  intros Hn Hf He Hg Hx Hd.
  split; rewrite ?Hn, ?Hf, ?He, ?Hg, ?Hx, ?Hd; try done; try (intros; by left).
  intros k. destruct (downloadables st !! k) as [l|]; [|done].
  exists []. by rewrite app_nil_r.
Qed.

Lemma registered_false name k (d : gmap string (list (string * string))) l :
  registered name k d = false → d !! k = Some l → name ∉ l.*1.
Proof.
  unfold registered. intros H%bool_decide_eq_false Hk. by rewrite Hk in H.
Qed.

(** Appending a name that the list does not hold. *)
Lemma dict_append_grows K st st' k name url dl' :
  dict_append k (name, url) (downloadables st) = Ok dl' →
  registered name k (downloadables st) = false →
  non_college_urls st' = non_college_urls st →
  urls_not_fetched st' = urls_not_fetched st →
  error_urls st' = error_urls st →
  google_drive_urls st' = google_drive_urls st →
  extracted_data st' = extracted_data st →
  downloadables st' = dl' →
  grows K st st'.
Proof.
  unfold dict_append. intros Happ Hreg Hn Hf He Hg Hx Hd.
  destruct (downloadables st !! k) as [l|] eqn:Hk; [|done].
  injection Happ as <-.
  split; rewrite ?Hn, ?Hf, ?He, ?Hg, ?Hx, ?Hd; try done; try (intros; by left).
  - intros k'. destruct (decide (k = k')) as [<-|Hne].
    + rewrite Hk, lookup_insert_eq. by exists [(name, url)].
    + rewrite lookup_insert_ne by done.
      destruct (downloadables st !! k') as [l'|]; [|done].
      exists []. by rewrite app_nil_r.
  - intros Hnd k' l'. destruct (decide (k = k')) as [<-|Hne].
    + rewrite lookup_insert_eq. intros [= <-].
      rewrite fmap_app. apply NoDup_app. split; [by eapply Hnd|].
      split; [|apply NoDup_singleton].
      intros x Hx1 ->%list_elem_of_singleton.
      by eapply registered_false.
    + rewrite lookup_insert_ne by done. apply Hnd.
Qed.

(** The keys of [downloadables_data]. *)
End GrowsBase.

Ltac grows_leaf :=
  first
    [ apply runs_modify; intros ?; apply grows_same; reflexivity
    | apply runs_interact; intros ?; apply grows_same; reflexivity ].

Section GrowsFacts.
Context (W : World) (download_folder : string).
Implicit Types (st : ContentFetcher) (K : string → Prop).
#[local] Arguments normalize_url : simpl never.
#[local] Arguments urljoin : simpl never.
#[local] Arguments get_name_from_url : simpl never.
#[local] Arguments is_college_url : simpl never.
#[local] Arguments is_pdf_url : simpl never.
#[local] Arguments is_google_drive_url : simpl never.
#[local] Arguments extract_google_drive_file_id : simpl never.
#[local] Arguments existsb : simpl never.
#[local] Arguments truthy : simpl never.
#[local] Arguments in_keys : simpl never.
#[local] Arguments in_values : simpl never.
#[local] Arguments registered : simpl never.
#[local] Arguments path_join : simpl never.

Lemma registered_formats name k (d : gmap string (list (string * string))) :
  k ∈ formats →
  negb (registered name "pdf" d) && negb (registered name "docx" d)
  && negb (registered name "xlsx" d) && negb (registered name "zip" d) = true →
  registered name k d = false.
Proof.
  intros Hk H. repeat apply andb_true_iff in H as [H ?].
  unfold formats in Hk. repeat apply elem_of_cons in Hk as [->|Hk];
    [by apply negb_true_iff..|by apply elem_of_nil in Hk].
Qed.

Lemma handle_downloadable_grows K full_url a_tag loc st :
  locals_ok loc →
  grows K st (handle_downloadable W download_folder full_url a_tag loc st).2
  ∧ ∀ loc', (handle_downloadable W download_folder full_url a_tag loc st).1
            = Ok loc' → locals_ok loc'.
Proof.
  intros Hloc. unfold handle_downloadable. destruct loc as [dd counter].
  mrun.
  destruct (get_name_from_url counter full_url) as [[name counter']|];
    [|split; [reflexivity|done]]. mrun.
  destruct (_ && _) eqn:Hreg; [|split; [reflexivity|by intros ? [= <-]]].
  unfold download_file. mrun.
  destruct (requests_download W _ full_url); mrun;
    [|split; [by apply grows_same|by intros ? [= <-]]].
  destruct (truthy (path_join _ _)); mrun;
    [|split; [by apply grows_same|by intros ? [= <-]]].
  destruct (dd !! _) as [l|] eqn:Hext; mrun;
    [|split; [by apply grows_same|by intros ? [= <-]]].
  assert (List.last (split "." full_url) "" ∈ formats) as Hfmt.
  { apply Hloc. simpl. by rewrite Hext. }
  destruct (dict_append _ _ (downloadables st)) as [dl'|] eqn:Happ; mrun.
  - split.
    + eapply dict_append_grows; try done.
      by eapply registered_formats.
    + intros ? [= <-] k. simpl. destruct (decide (k = List.last (split "." full_url) "")) as [->|Hne]; [done|].
      rewrite lookup_insert_ne by done. apply Hloc.
  - split; [by apply grows_same|done].
Qed.

Lemma fetch_and_hash_content_grows K url :
  runs (grows K) (fetch_and_hash_content W url).
Proof. unfold fetch_and_hash_content. repeat runs_step; grows_leaf. Qed.

Lemma process_anchor_grows K loc a st :
  locals_ok loc →
  grows K st (process_anchor W download_folder loc a st).2
  ∧ ∀ loc', (process_anchor W download_folder loc a st).1 = Ok loc' →
            locals_ok loc'.
Proof.
  intros Hloc. unfold process_anchor. mrun.
  destruct (urljoin (current_url st) (href a)) as [full_url|];
    [|split; [reflexivity|done]]. mrun.
  destruct (normalize_url full_url None) as [key|];
    [|split; [reflexivity|done]].
  destruct (existsb _ media_extensions);
    [split; [reflexivity|by intros ? [= <-]]|].
  destruct (existsb _ document_extensions);
    [by apply handle_downloadable_grows|].
  mrun. destruct (negb (truthy key) || in_keys key (seen_links st));
    [split; [reflexivity|by intros ? [= <-]]|].
  rewrite fetch_and_hash_content_eq. mrun.
  destruct (truthy_opt _ && _); mrun;
    (split; [by apply grows_same|by intros ? [= <-]]).
Qed.

Lemma for_each_anchors_grows K l loc st :
  locals_ok loc →
  grows K st (for_each l (process_anchor W download_folder) loc st).2.
Proof.
  revert loc st. induction l as [|a l IH]; intros loc st Hloc; simpl.
  - reflexivity.
  - unfold mbind, M_bind.
    destruct (process_anchor_grows K loc a st Hloc) as [Hg Hl].
    destruct (process_anchor W download_folder loc a st) as [[loc'|e] st1];
      simpl in *; [|done].
    etrans; [done|]. apply IH. by apply Hl.
Qed.

Lemma process_href_links_grows K soup :
  runs (grows K) (process_href_links W download_folder soup).
Proof.
  intros st. unfold process_href_links.
  set (dd := ({[ "pdf" := []; "docx" := []; "xlsx" := []; "zip" := [] ]}
              : gmap string (list DownloadableInfo))).
  assert (locals_ok (dd, 1)) as Hloc.
  { intros k [l Hk]. simpl in Hk. unfold formats.
    destruct (decide (k = "pdf")) as [->|]; [set_solver|].
    destruct (decide (k = "docx")) as [->|]; [set_solver|].
    destruct (decide (k = "xlsx")) as [->|]; [set_solver|].
    destruct (decide (k = "zip")) as [->|]; [set_solver|].
    subst dd. by rewrite !lookup_insert_ne, lookup_singleton_ne in Hk. }
  pose proof (for_each_anchors_grows K (all_links soup) (dd, 1) st Hloc) as Hg.
  unfold mbind, M_bind.
  by destruct (for_each _ _ _ st) as [[loc'|e] st1].
Qed.

Lemma fetch_content_grows K url :
  runs (grows K) (fetch_content W download_folder url).
Proof.
  unfold fetch_content. repeat runs_step; try grows_leaf.
  apply process_href_links_grows.
Qed.

Lemma own_name_from_url_grows K url : runs (grows K) (own_name_from_url url).
Proof. unfold own_name_from_url. repeat runs_step; grows_leaf. Qed.

Lemma can_fetch_content_grows K url :
  runs (grows K) (can_fetch_content W url).
Proof. unfold can_fetch_content. repeat runs_step; grows_leaf. Qed.

Lemma extracted_insert_grows K st key content :
  K key → grows K st (set_extracted_data <[key := content]> st).
Proof.
  intros HK. split; try done; try (intros; by left); mrun.
  - intros k Hk. destruct (decide (key = k)) as [->|];
      [by rewrite lookup_insert_eq|by rewrite lookup_insert_ne].
  - intros k. destruct (decide (key = k)) as [->|]; [by right|].
    rewrite lookup_insert_ne by done. by left.
  - intros k. destruct (downloadables st !! k) as [l|]; [|done].
    exists []. by rewrite app_nil_r.
Qed.

Lemma google_drive_insert_grows K st url :
  grows K st (set_google_drive_urls (λ s, {[url]} ∪ s) st).
Proof.
  split; try done; try (intros; by left); mrun.
  - set_solver.
  - intros k. destruct (downloadables st !! k) as [l|]; [|done].
    exists []. by rewrite app_nil_r.
Qed.

Lemma download_pdf_grows K download_url url key filename gd st :
  K key →
  grows K st (download_pdf W download_url url key filename gd st).2.
Proof.
  intros HK. unfold download_pdf. mrun.
  destruct (registered filename "pdf" (downloadables st)) eqn:Hreg; mrun;
    [reflexivity|].
  unfold download_file. mrun.
  destruct (requests_download W _ download_url); mrun; [|by apply grows_same].
  destruct (truthy (path_join _ _)); mrun; [|by apply grows_same].
  destruct (dict_append "pdf" (filename, url) (downloadables st))
    as [dl'|] eqn:Happ; mrun.
  - set (st1 := set_trace (λ t, t ++ [EvDownload download_url
                   (path_join "fetched_downloadables" filename)]) st).
    set (st2 := set_extracted_data
                  <[key := PdfContent (path_join "fetched_downloadables" filename)
                             url (current_url st)]> st1).
    set (st3 := set_downloadables (λ _, dl') st2).
    trans st1; [by apply grows_same|].
    trans st2; [by apply extracted_insert_grows|].
    trans st3;
      [apply (dict_append_grows K st2 st3 "pdf" filename url dl');
       [exact Happ|exact Hreg|reflexivity..]|].
    destruct gd; [apply google_drive_insert_grows|reflexivity].
  - trans (set_trace (λ t, t ++ [EvDownload download_url
                   (path_join "fetched_downloadables" filename)]) st);
      [by apply grows_same|].
    by apply (extracted_insert_grows K
                (set_trace (λ t, t ++ [EvDownload download_url
                   (path_join "fetched_downloadables" filename)]) st) key
                (PdfContent (path_join "fetched_downloadables" filename) url
                   (current_url st))).
Qed.
Lemma scope_insert_grows K st url :
  (if is_college_url url
   then grows K st (set_error_urls (λ s, {[url]} ∪ s) st)
        ∧ grows K st (set_urls_not_fetched (λ s, {[url]} ∪ s) st)
   else grows K st (set_non_college_urls (λ s, {[url]} ∪ s) st)).
Proof.
  assert (∀ st, ∀ k,
    match downloadables st !! k with
    | Some l => ∃ l', downloadables st !! k = Some (l ++ l')
    | None => downloadables st !! k = None
    end) as Hd.
  { intros st0 k. destruct (downloadables st0 !! k) as [l|]; [|done].
    exists []. by rewrite app_nil_r. }
  destruct (is_college_url url) eqn:Hscope; [split|];
    (split; try done; try (intros; by left); mrun; try apply Hd;
     [set_solver|intros u [->%elem_of_singleton|]%elem_of_union; auto]).
Qed.

Lemma process_entry_grows url st :
  grows (λ k, normalize_url url None = Ok k) st
        (process_entry W download_folder () url st).2.
Proof.
  unfold process_entry. unfold mbind at 1 2, M_bind at 1 2, interact at 1.
  cbn [fst snd].
  trans (set_trace (λ t, t ++ [EvEntry url]) st); [by apply grows_same|].
  generalize (set_trace (λ t, t ++ [EvEntry url]) st). clear st. intros st.
  unfold lift at 1.
  destruct (normalize_url url None) as [key|e] eqn:Hkey; cbn [fst snd];
    [|reflexivity].
  revert st.
  match goal with
  | |- ∀ s, grows ?K s (?m s).2 => change (runs (grows K) m)
  end.
  repeat runs_step; try grows_leaf.
  - apply own_name_from_url_grows.
  - intros st. by apply download_pdf_grows.
  - intros st. by apply download_pdf_grows.
  - apply can_fetch_content_grows.
  - apply fetch_content_grows.
  - intros st. by apply extracted_insert_grows.
  - intros st.
    pose proof (scope_insert_grows (λ k, Ok key = Ok k) st url) as H.
    rewrite Heqb in H. apply H.
  - intros st.
    pose proof (scope_insert_grows (λ k, Ok key = Ok k) st url) as H.
    rewrite Heqb in H. apply H.
  - intros st.
    pose proof (scope_insert_grows (λ k, Ok key = Ok k) st url) as H.
    rewrite Heqb in H. apply H.
Qed.
Lemma for_each_entries_grows K l :
  (∀ u k, u ∈ l → normalize_url u None = Ok k → K k) →
  runs (grows K) (for_each l (process_entry W download_folder) ()).
Proof.
  induction l as [|url l IH]; intros HK; simpl.
  - intros st. reflexivity.
  - apply runs_bind; [apply _| |intros []].
    + intros st. eapply grows_mono; [|apply process_entry_grows].
      intros k Hk. apply (HK url); [by left|done].
    + apply IH. intros u k Hu. apply HK. by right.
Qed.

(** The records a wave files are filed under keys of the registry. *)
Lemma wave_grows (S : gmap string (option string)) st :
  frontier_ok st → seen_links st ⊆ S →
  grows (λ k, is_Some (S !! k)) st (wave W download_folder st).2.
Proof.
  intros Hok HS. unfold wave. mrun.
  set (st0 := mkContentFetcher _ _ _ _ _ _ _ _ _ _ _ _).
  trans st0; [by apply grows_same|].
  apply for_each_entries_grows.
  intros u k [[k0 u0] [-> Hin]]%list_elem_of_fmap Hk. simpl in Hk.
  destruct (Hok k0 u0 Hin) as [Hseen Hk0].
  assert (k = k0) as -> by congruence.
  by eapply lookup_weaken_is_Some.
Qed.

Lemma waves_grows (S : gmap string (option string)) fuel st :
  frontier_ok st →
  seen_links (waves W download_folder fuel st).2 ⊆ S →
  grows (λ k, is_Some (S !! k)) st (waves W download_folder fuel st).2.
Proof.
  revert st. induction fuel as [|fuel IH]; intros st Hok; simpl; mrun.
  - destruct (relevant_links st); reflexivity.
  - destruct (relevant_links st) as [|e l] eqn:Hl; [reflexivity|].
    pose proof (wave_step W download_folder st) as Hstep.
    pose proof (wave_grows S st Hok) as Hgrows.
    destruct (wave W download_folder st) as [[[]|e'] st1]; simpl in *.
    + intros HS.
      pose proof (waves_step W download_folder fuel st1) as Hstep'.
      etrans; [apply Hgrows|apply IH].
      * etrans; [apply Hstep|]. etrans; [apply Hstep'|done].
      * by eapply step_frontier_ok.
      * done.
    + intros HS. apply Hgrows. etrans; [apply Hstep|done].
Qed.

Lemma save_data_grows K : runs (grows K) save_data.
Proof. unfold save_data. repeat runs_step; grows_leaf. Qed.

Lemma quit_driver_grows K : runs (grows K) quit_driver.
Proof. unfold quit_driver. grows_leaf. Qed.

Lemma process_url_loop_grows (S : gmap string (option string)) fuel st :
  let loop := (drained ← waves W download_folder fuel;
               if (drained : bool) then save_data;; quit_driver;; mret true
               else mret false) in
  frontier_ok st →
  seen_links (loop st).2 ⊆ S →
  grows (λ k, is_Some (S !! k)) st (loop st).2.
Proof.
  intros loop Hok.
  assert (loop st
          = match waves W download_folder fuel st with
            | (Ok true, st1) => (save_data;; quit_driver;; mret true) st1
            | (r, st1) => (r, st1)
            end) as ->.
  { unfold loop, mbind at 1, M_bind at 1.
    by destruct (waves W download_folder fuel st) as [[[]|e] st1]. }
  pose proof (waves_grows S fuel st Hok) as Hgrows.
  destruct (waves W download_folder fuel st) as [[[]|e] st1];
    cbn [fst snd] in *.
  - intros HS. etrans; [by apply Hgrows|]. revert st1 HS Hgrows. intros st1 _ _.
    revert st1.
    match goal with
    | |- ∀ s, grows ?K s (?m s).2 => change (runs (grows K) m)
    end.
    runs_step; [apply save_data_grows|].
    runs_step; [apply quit_driver_grows|]. runs_step.
  - done.
  - done.
Qed.

Lemma seed_is_duplicate_grows K url key :
  runs (grows K) (seed_is_duplicate W url key).
Proof.
  unfold seed_is_duplicate. repeat runs_step.
  apply fetch_and_hash_content_grows.
Qed.

Lemma process_url_grows_in (S : gmap string (option string)) fuel url st r st' :
  process_url W download_folder fuel url st = (r, st') →
  frontier_ok st →
  seen_links st' ⊆ S →
  grows (λ k, is_Some (S !! k)) st st'.
Proof.
  intros Hrun Hok HS. revert Hrun. unfold process_url.
  unfold mbind at 1, M_bind at 1, lift at 1.
  destruct (normalize_url url None) as [key|] eqn:Hkey;
    [|intros [= <- <-]; reflexivity].
  unfold mbind at 1, M_bind at 1.
  pose proof (seed_is_duplicate_quiet W url key st) as Hq.
  pose proof (seed_is_duplicate_grows (λ k, is_Some (S !! k)) url key st) as Hg.
  destruct (seed_is_duplicate W url key st) as [[[]|e] st1];
    cbn [fst snd] in Hq, Hg |- *; try (by intros [= <- <-]).
  unfold mbind at 1, M_bind at 1.
  pose proof (fetch_and_hash_content_quiet W E_crawl url I st1) as Hq'.
  pose proof (fetch_and_hash_content_grows
                (λ k, is_Some (S !! k)) url st1) as Hg'.
  destruct (fetch_and_hash_content W url st1) as [[h|e] st2];
    cbn [fst snd] in Hq', Hg' |- *; [|intros [= <- <-]; by etrans].
  unfold mbind at 1, M_bind at 1, modify at 1.
  unfold mbind at 1, M_bind at 1, modify at 1.
  set (st3 := set_relevant_links _ _). cbn [fst snd].
  assert (frontier_ok st3) as Hok3.
  { intros k u Hin. subst st3. revert Hin. unfold frontier_ok. mrun.
    intros [[= -> ->]|Hin]%dict_set_elem.
    - split; [|done]. by rewrite lookup_insert_eq.
    - rewrite (quiet_frontier _ _ _ Hq'), (quiet_frontier _ _ _ Hq) in Hin.
      destruct (Hok k u Hin) as [Hs Hk]. split; [|done].
      rewrite (quiet_seen _ _ _ Hq'), (quiet_seen _ _ _ Hq).
      destruct (decide (key = k)) as [->|];
        [by rewrite lookup_insert_eq|by rewrite lookup_insert_ne]. }
  intros Hrun.
  pose proof (process_url_loop_grows S fuel st3 Hok3) as Hl.
  cbv zeta in Hl. rewrite Hrun in Hl.
  trans st1; [done|]. trans st2; [done|].
  trans st3; [by apply grows_same|]. by apply Hl.
Qed.

Lemma process_url_grows fuel url st :
  let st' := (process_url W download_folder fuel url st).2 in
  frontier_ok st →
  grows (λ k, is_Some (seen_links st' !! k)) st st'.
Proof.
  intros st' Hok.
  destruct (process_url W download_folder fuel url st) as [r st1] eqn:Hrun.
  by eapply process_url_grows_in.
Qed.
End GrowsFacts.

Section RecordFacts.
Context (W : World) (download_folder : string).
Implicit Types (st : ContentFetcher).

Lemma wave_records : runs (grows (λ _, True)) (wave W download_folder).
Proof.
  unfold wave. repeat runs_step; try grows_leaf.
  intros st. destruct b. eapply grows_mono; [|apply process_entry_grows]. done.
Qed.

Lemma waves_records fuel : runs (grows (λ _, True)) (waves W download_folder fuel).
Proof.
  induction fuel as [|fuel IH]; simpl; repeat runs_step; try done.
  apply wave_records.
Qed.

Lemma process_url_records fuel url :
  runs (grows (λ _, True)) (process_url W download_folder fuel url).
Proof.
  unfold process_url. repeat runs_step; try grows_leaf.
  - apply seed_is_duplicate_grows.
  - apply waves_records.
Qed.
End RecordFacts.

(** X1.  A run removes nothing from what the crawler keeps. *)
Theorem process_url_keeps_records (W : World) (download_folder : string)
    (fuel : nat) (url : string) (st : ContentFetcher) :
  let st' := (process_url W download_folder fuel url st).2 in
  seen_links st ⊆ seen_links st'
  ∧ non_college_urls st ⊆ non_college_urls st'
  ∧ urls_not_fetched st ⊆ urls_not_fetched st'
  ∧ error_urls st ⊆ error_urls st'
  ∧ google_drive_urls st ⊆ google_drive_urls st'
  ∧ (∀ k, is_Some (extracted_data st !! k) → is_Some (extracted_data st' !! k))
  ∧ (∀ k l, downloadables st !! k = Some l →
            ∃ l', downloadables st' !! k = Some (l ++ l'))
  ∧ (∀ k, downloadables st !! k = None → downloadables st' !! k = None).
Proof.
  intros st'.
  pose proof (process_url_records W download_folder fuel url st) as H.
  pose proof (process_url_step W download_folder fuel url st) as Hstep.
  split; [apply Hstep|]. repeat split; try apply H.
  - intros k l Hk. pose proof (grows_downloadables _ _ _ H k) as Hd.
    by rewrite Hk in Hd.
  - intros k Hk. pose proof (grows_downloadables _ _ _ H k) as Hd.
    by rewrite Hk in Hd.
Qed.

(** X2.  What a run adds to the three classification sets is filed by
    scope. *)
Theorem process_url_files_by_scope (W : World) (download_folder : string)
    (fuel : nat) (url : string) (st : ContentFetcher) :
  let st' := (process_url W download_folder fuel url st).2 in
  (∀ u, u ∈ non_college_urls st' → u ∉ non_college_urls st →
        is_college_url u = false)
  ∧ (∀ u, u ∈ urls_not_fetched st' → u ∉ urls_not_fetched st →
          is_college_url u = true)
  ∧ (∀ u, u ∈ error_urls st' → u ∉ error_urls st →
          is_college_url u = true).
Proof.
  intros st'.
  pose proof (process_url_records W download_folder fuel url st) as H.
  assert (∀ u, u ∈ non_college_urls st' → u ∉ non_college_urls st →
               is_college_url u = false) as H1.
  { intros u Hu Hn. by destruct (grows_non_college_new _ _ _ H u Hu). }
  assert (∀ u, u ∈ urls_not_fetched st' → u ∉ urls_not_fetched st →
               is_college_url u = true) as H2.
  { intros u Hu Hn. by destruct (grows_not_fetched_new _ _ _ H u Hu). }
  assert (∀ u, u ∈ error_urls st' → u ∉ error_urls st →
               is_college_url u = true) as H3.
  { intros u Hu Hn. by destruct (grows_error_new _ _ _ H u Hu). }
  repeat split; done.
Qed.

(** X3.  The classification sets stay sorted by scope, so no URL is both
    in [non_college_urls] and in one of the two other sets. *)
Theorem process_url_scope_sorted (W : World) (download_folder : string)
    (fuel : nat) (url : string) (st : ContentFetcher) :
  scope_sorted st →
  let st' := (process_url W download_folder fuel url st).2 in
  scope_sorted st'
  ∧ non_college_urls st' ## urls_not_fetched st' ∪ error_urls st'.
Proof.
  intros [Hout Hin] st'.
  pose proof (process_url_records W download_folder fuel url st) as H.
  assert (scope_sorted st') as Hsorted.
  { split.
    - intros u Hu. destruct (grows_non_college_new _ _ _ H u Hu); auto.
    - intros u [Hu|Hu]%elem_of_union.
      + destruct (grows_not_fetched_new _ _ _ H u Hu); [|done].
        apply Hin. set_solver.
      + destruct (grows_error_new _ _ _ H u Hu); [|done].
        apply Hin. set_solver. }
  split; [done|]. intros u Hu Hu'.
  destruct Hsorted as [Hout' Hin'].
  specialize (Hout' u Hu). specialize (Hin' u Hu'). congruence.
Qed.

Lemma process_url_scope_sorted_witness :
  scope_sorted scope_run.2
  ∧ non_college_urls scope_run.2
    ## urls_not_fetched scope_run.2 ∪ error_urls scope_run.2.
Proof.
  apply (process_url_scope_sorted scope_world "fetched_downloadables" 5
           "http://nitj.ac.in/" (init "data:," None)).
  split; intros u Hu; simpl in Hu.
  - by apply elem_of_empty in Hu.
  - by apply elem_of_union in Hu as [Hu%elem_of_empty|Hu%elem_of_empty].
Defined.

(** X4.  No list of the download registry ever holds a file name
    twice. *)
Theorem process_url_names_unique (W : World) (download_folder : string)
    (fuel : nat) (url : string) (st : ContentFetcher) :
  names_unique st →
  names_unique (process_url W download_folder fuel url st).2.
Proof.
  intros Hn.
  pose proof (process_url_records W download_folder fuel url st) as H.
  exact (grows_names _ _ _ H Hn).
Qed.

Lemma process_url_names_unique_witness : names_unique scope_run.2.
Proof.
  apply (process_url_names_unique scope_world "fetched_downloadables" 5
           "http://nitj.ac.in/" (init "data:," None)).
  intros k l Hk. simpl in Hk. unfold empty_downloadables in Hk.
  assert (l = []) as ->; [|constructor].
  repeat (apply lookup_insert_Some in Hk as [[_ <-]|[_ Hk]]; [done|]).
  by apply lookup_singleton_Some in Hk as [_ <-].
Defined.

(** X5.  Every record of [extracted_data] is filed under a key of
    [seen_links]. *)
Theorem process_url_extracted_seen (W : World) (download_folder : string)
    (fuel : nat) (url : string) (st : ContentFetcher) :
  frontier_ok st →
  extracted_seen st →
  extracted_seen (process_url W download_folder fuel url st).2.
Proof.
  intros Hok Hx k Hk.
  pose proof (process_url_grows W download_folder fuel url st Hok) as H.
  pose proof (process_url_step W download_folder fuel url st) as Hstep.
  destruct (grows_extracted_new _ _ _ H k Hk) as [Hold|Hnew]; [|done].
  eapply lookup_weaken_is_Some; [by apply Hx|apply Hstep].
Qed.

Lemma process_url_extracted_seen_witness : extracted_seen scope_run.2.
Proof.
  apply (process_url_extracted_seen scope_world "fetched_downloadables" 5
           "http://nitj.ac.in/" (init "data:," None)).
  - intros k u Hku. simpl in Hku. by apply elem_of_nil in Hku.
  - intros k [x Hk]. simpl in Hk. by rewrite lookup_empty in Hk.
Defined.

(** ** The storage file *)

Global Instance keeps_preorder {A} (f : ContentFetcher → A) : PreOrder (keeps f).
Proof.
  split; [by intros st|]. intros st1 st2 st3 H1 H2. unfold keeps in *. congruence.
Qed.

Ltac keeps_leaf :=
  first
    [ apply runs_modify; intros ?; reflexivity
    | apply runs_interact; intros ?; reflexivity ].

Section KeepsFacts.
Context (W : World) (download_folder : string).
Implicit Types (st : ContentFetcher).
#[local] Arguments normalize_url : simpl never.
#[local] Arguments urljoin : simpl never.
#[local] Arguments get_name_from_url : simpl never.
#[local] Arguments is_college_url : simpl never.
#[local] Arguments is_pdf_url : simpl never.
#[local] Arguments is_google_drive_url : simpl never.
#[local] Arguments extract_google_drive_file_id : simpl never.
#[local] Arguments existsb : simpl never.
#[local] Arguments truthy : simpl never.
#[local] Arguments in_keys : simpl never.
#[local] Arguments in_values : simpl never.
#[local] Arguments registered : simpl never.
#[local] Arguments path_join : simpl never.

Lemma handle_downloadable_keeps_storage full_url a loc :
  runs (keeps storage_file) (handle_downloadable W download_folder full_url a loc).
Proof.
  unfold handle_downloadable, download_file. destruct loc as [dd c].
  repeat runs_step; try keeps_leaf.
Qed.

Lemma process_anchor_keeps_storage loc a :
  runs (keeps storage_file) (process_anchor W download_folder loc a).
Proof.
  unfold process_anchor, fetch_and_hash_content.
  repeat runs_step; try keeps_leaf.
  apply handle_downloadable_keeps_storage.
Qed.

Lemma fetch_content_keeps_storage url :
  runs (keeps storage_file) (fetch_content W download_folder url).
Proof.
  unfold fetch_content, process_href_links.
  repeat runs_step; try keeps_leaf.
  apply process_anchor_keeps_storage.
Qed.

Lemma download_pdf_keeps_storage download_url url key filename gd :
  runs (keeps storage_file) (download_pdf W download_url url key filename gd).
Proof.
  unfold download_pdf, download_file. repeat runs_step; try keeps_leaf.
Qed.

Lemma process_entry_keeps_storage url :
  runs (keeps storage_file) (process_entry W download_folder () url).
Proof.
  unfold process_entry, own_name_from_url, can_fetch_content.
  repeat runs_step; try keeps_leaf.
  all: first [apply download_pdf_keeps_storage|apply fetch_content_keeps_storage].
Qed.

Lemma waves_keeps_storage fuel :
  runs (keeps storage_file) (waves W download_folder fuel).
Proof.
  induction fuel as [|fuel IH]; simpl; repeat runs_step; try done.
  unfold wave. repeat runs_step; try keeps_leaf.
  destruct b. apply process_entry_keeps_storage.
Qed.

Lemma waves_drained fuel st :
  (waves W download_folder fuel st).1 = Ok true →
  relevant_links (waves W download_folder fuel st).2 = [].
Proof.
  revert st. induction fuel as [|fuel IH]; intros st; simpl; mrun.
  - by destruct (relevant_links st) eqn:Hl.
  - destruct (relevant_links st) eqn:Hl; [done|].
    destruct (wave W download_folder st) as [[[]|e] st1]; simpl; [|done].
    apply IH.
Qed.

Lemma process_url_keeps_storage fuel url st r st' :
  process_url W download_folder fuel url st = (r, st') →
  r ≠ Ok true →
  storage_file st' = storage_file st.
Proof.
  unfold process_url.
  unfold mbind at 1, M_bind at 1, lift at 1.
  destruct (normalize_url url None) as [key|] eqn:Hkey;
    [|by intros [= <- <-]].
  unfold mbind at 1, M_bind at 1.
  assert (runs (keeps storage_file) (seed_is_duplicate W url key)) as Hdup.
  { unfold seed_is_duplicate, fetch_and_hash_content.
    repeat runs_step; try keeps_leaf. }
  specialize (Hdup st).
  destruct (seed_is_duplicate W url key st) as [[[]|e] st1];
    cbn [fst snd] in Hdup |- *; try (by intros [= <- <-]).
  unfold mbind at 1, M_bind at 1.
  assert (runs (keeps storage_file) (fetch_and_hash_content W url)) as Hfetch.
  { unfold fetch_and_hash_content. repeat runs_step; try keeps_leaf. }
  specialize (Hfetch st1).
  destruct (fetch_and_hash_content W url st1) as [[h|e] st2];
    cbn [fst snd] in Hfetch |- *;
    [|intros [= <- <-] _; unfold keeps in *; congruence].
  unfold mbind at 1, M_bind at 1, modify at 1.
  unfold mbind at 1, M_bind at 1, modify at 1.
  set (st3 := set_relevant_links _ _). cbn [fst snd].
  assert (storage_file st3 = storage_file st) as H3.
  { subst st3. mrun. unfold keeps in *. congruence. }
  unfold mbind at 1, M_bind at 1.
  pose proof (waves_keeps_storage fuel st3) as Hwaves.
  destruct (waves W download_folder fuel st3) as [[[]|e] st4];
    cbn [fst snd] in Hwaves |- *.
  - intros [= <- _]. done.
  - intros [= <- <-] _. unfold keeps in *. congruence.
  - intros [= <- <-] _. unfold keeps in *. congruence.
Qed.

Lemma process_url_completed fuel url key st st' :
  normalize_url url None = Ok key →
  (seed_is_duplicate W url key st).1 = Ok false →
  process_url W download_folder fuel url st = (Ok true, st') →
  relevant_links st' = []
  ∧ storage_file st' = Some (saved_data st')
  ∧ (∃ t, trace st' = trace st ++ t ++ [EvSave; EvQuit])
  ∧ is_Some (seen_links st' !! key).
Proof.
  intros Hkey. unfold process_url.
  unfold mbind at 1, M_bind at 1, lift at 1. rewrite Hkey.
  unfold mbind at 1, M_bind at 1.
  pose proof (seed_is_duplicate_quiet W url key st) as Hq.
  destruct (seed_is_duplicate W url key st) as [[[]|e] st1];
    cbn [fst snd] in Hq |- *; try done. intros _.
  unfold mbind at 1, M_bind at 1.
  pose proof (fetch_and_hash_content_quiet W E_crawl url I st1) as Hq'.
  destruct (fetch_and_hash_content W url st1) as [[h|e] st2];
    cbn [fst snd] in Hq' |- *; [|done].
  unfold mbind at 1, M_bind at 1, modify at 1.
  unfold mbind at 1, M_bind at 1, modify at 1.
  set (st3 := set_relevant_links _ _). cbn [fst snd].
  assert (seen_links st3 !! key = Some h) as Hseen.
  { subst st3. mrun. by rewrite lookup_insert_eq. }
  assert (∃ t, trace st3 = trace st ++ t) as [t3 Ht3].
  { destruct (quiet_trace _ _ _ Hq) as (t & Ht & _).
    destruct (quiet_trace _ _ _ Hq') as (t' & Ht' & _).
    exists (t ++ t'). subst st3. mrun. by rewrite Ht', Ht, app_assoc. }
  clearbody st3.
  unfold mbind at 1, M_bind at 1.
  pose proof (waves_step W download_folder fuel st3) as Hstep.
  pose proof (waves_drained fuel st3) as Hdrained.
  destruct (waves W download_folder fuel st3) as [[[]|e] st4];
    cbn [fst snd] in Hstep, Hdrained |- *; try done.
  intros [= <-]. mrun. split; [by apply Hdrained|]. split; [done|].
  destruct (step_trace _ _ _ Hstep) as (t4 & Ht4 & _). split.
  - exists (t3 ++ t4). rewrite Ht4, Ht3, <-!app_assoc. done.
  - eapply lookup_weaken_is_Some; [by rewrite Hseen|apply Hstep].
Qed.

Lemma process_url_seen fuel url key st :
  normalize_url url None = Ok key →
  is_Some (seen_links st !! key) →
  process_url W download_folder fuel url st = (Ok true, st).
Proof.
  intros Hkey Hseen. unfold process_url.
  unfold mbind at 1, M_bind at 1, lift at 1. rewrite Hkey.
  unfold mbind at 1, M_bind at 1, seed_is_duplicate.
  unfold mbind at 1, M_bind at 1, gets at 1.
  assert (in_keys key (seen_links st) = true) as ->; [|done].
  by apply bool_decide_eq_true.
Qed.

End KeepsFacts.

(** X6.  A run that does not return normally leaves the storage file as it
    was: what it collected is lost. *)
Theorem interrupted_run_keeps_checkpoint (W : World) (download_folder : string)
    (fuel : nat) (url : string) (st : ContentFetcher) :
  (process_url W download_folder fuel url st).1 ≠ Ok true →
  storage_file (process_url W download_folder fuel url st).2 = storage_file st.
Proof.
  destruct (process_url W download_folder fuel url st) as [r st'] eqn:Hrun.
  simpl. by eapply process_url_keeps_storage.
Qed.

Lemma interrupted_run_keeps_checkpoint_witness :
  storage_file probe_crash_run.2 = None
  ∧ probe_crash_run.1 = Raise (ValueError "label empty or too long")
  ∧ is_Some (extracted_data probe_crash_run.2 !! "http://nitj.ac.in").
Proof.
  split; [|split].
  - apply (interrupted_run_keeps_checkpoint probe_crash_world
             "fetched_downloadables" 5 "http://nitj.ac.in/" (init "data:," None)).
    vm_compute. intros [=].
  - vm_compute. reflexivity.
  - by_eval.
Defined.

(** X7.  A run on a seed that is no duplicate, when it returns, has
    emptied the frontier, written the state it ends in to the storage
    file and quit the driver, in this order and as its last two
    actions; the seed is a key of the registry. *)
Theorem completed_run_checkpoint (W : World) (download_folder : string)
    (fuel : nat) (url key : string) (st : ContentFetcher) :
  normalize_url url None = Ok key →
  (seed_is_duplicate W url key st).1 = Ok false →
  (process_url W download_folder fuel url st).1 = Ok true →
  let st' := (process_url W download_folder fuel url st).2 in
  relevant_links st' = []
  ∧ storage_file st' = Some (saved_data st')
  ∧ (∃ t, trace st' = trace st ++ t ++ [EvSave; EvQuit])
  ∧ is_Some (seen_links st' !! key).
Proof.
  intros Hkey Hdup Hres.
  destruct (process_url W download_folder fuel url st) as [r st'] eqn:Hrun.
  simpl in *. subst r. by eapply process_url_completed.
Qed.

Lemma completed_run_checkpoint_witness :
  relevant_links scope_run.2 = []
  ∧ storage_file scope_run.2 = Some (saved_data scope_run.2)
  ∧ (∃ t, trace scope_run.2 = [] ++ t ++ [EvSave; EvQuit])
  ∧ is_Some (seen_links scope_run.2 !! "http://nitj.ac.in").
Proof.
  apply (completed_run_checkpoint scope_world "fetched_downloadables" 5
           "http://nitj.ac.in/" "http://nitj.ac.in" (init "data:," None));
    vm_compute; reflexivity.
Defined.

(** X8.  A seed that a run has crawled to the end is skipped by every
    later run started from the storage file, whatever the spelling of the
    URL, as long as its key is the same: the later run makes no
    request. *)
Theorem completed_crawl_skipped_by_next_run (W : World)
    (download_folder : string) (fuel : nat) (url key : string)
    (st : ContentFetcher) :
  normalize_url url None = Ok key →
  (seed_is_duplicate W url key st).1 = Ok false →
  (process_url W download_folder fuel url st).1 = Ok true →
  ∀ W' download_folder' fuel' driver_url url',
    normalize_url url' None = Ok key →
    let start :=
      init driver_url
        (storage_file (process_url W download_folder fuel url st).2) in
    process_url W' download_folder' fuel' url' start = (Ok true, start).
Proof.
  intros Hkey Hdup Hres W' download_folder' fuel' driver_url url' Hkey' start.
  destruct (process_url W download_folder fuel url st) as [r st'] eqn:Hrun.
  simpl in *. subst r.
  destruct (process_url_completed _ _ _ _ _ _ _ Hkey Hdup Hrun)
    as (_ & Hfile & _ & Hseen).
  apply (process_url_seen _ _ _ _ key); [done|].
  subst start. rewrite Hfile. exact Hseen.
Qed.

Lemma completed_crawl_skipped_by_next_run_witness :
  let start := init "data:," (storage_file scope_run.2) in
  process_url timeout_world "fetched_downloadables" 3 "HTTPS://nitj.ac.in"
    start = (Ok true, start).
Proof.
  apply (completed_crawl_skipped_by_next_run scope_world
           "fetched_downloadables" 5 "http://nitj.ac.in/" "http://nitj.ac.in"
           (init "data:," None)); vm_compute; reflexivity.
Defined.

(** ** What raises, and what a page loses *)

Section ReturnFacts.
Context (W : World) (download_folder : string).
Implicit Types (st : ContentFetcher).
#[local] Arguments normalize_url : simpl never.
#[local] Arguments urljoin : simpl never.
#[local] Arguments get_name_from_url : simpl never.
#[local] Arguments is_college_url : simpl never.
#[local] Arguments is_pdf_url : simpl never.
#[local] Arguments is_google_drive_url : simpl never.
#[local] Arguments extract_google_drive_file_id : simpl never.
#[local] Arguments existsb : simpl never.
#[local] Arguments truthy : simpl never.
#[local] Arguments in_keys : simpl never.
#[local] Arguments in_values : simpl never.
#[local] Arguments registered : simpl never.
#[local] Arguments path_join : simpl never.

Lemma download_pdf_returns download_url url key filename gd st :
  is_Some (downloadables st !! "pdf") →
  (download_pdf W download_url url key filename gd st).1 = Ok ().
Proof.
  intros [l Hl]. unfold download_pdf, download_file, dict_append. mrun.
  destruct (registered filename "pdf" (downloadables st)); mrun; [done|].
  destruct (requests_download W _ download_url); mrun; [|done].
  destruct (truthy (path_join _ _)); mrun; [|done].
  rewrite Hl. mrun. by destruct gd.
Qed.

Lemma get_name_from_url_returns n url key :
  normalize_url url None = Ok key → is_ok (get_name_from_url n url) = true.
Proof.
  unfold normalize_url, get_name_from_url.
  destruct (urlparse url) as [p|]; [|done]. intros _. simpl.
  by destruct (negb (truthy (path p)) || String.eqb (path p) "/").
Qed.

Lemma process_entry_returns url key st :
  head_raises_request_exception W →
  normalize_url url None = Ok key →
  is_Some (downloadables st !! "pdf") →
  (process_entry W download_folder () url st).1 = Ok ().
Proof.
  intros Hhead Hkey Hpdf. unfold process_entry.
  unfold mbind at 1 2, M_bind at 1 2, interact at 1, lift at 1.
  rewrite Hkey. cbn [fst snd].
  set (st0 := set_trace _ st).
  assert (is_Some (downloadables st0 !! "pdf")) as Hpdf0 by done.
  clearbody st0. clear Hpdf st.
  destruct (is_college_url url); [|done].
  destruct (is_pdf_url url).
  - unfold own_name_from_url. mrun.
    pose proof (get_name_from_url_returns (empty_path_counter st0) _ _ Hkey) as Hn.
    destruct (get_name_from_url _ url) as [[name c]|]; [|done]. mrun.
    by apply download_pdf_returns.
  - destruct (is_google_drive_url url).
    + destruct (extract_google_drive_file_id url) as [file_id|]; [|done].
      destruct (truthy file_id); [|done]. by apply download_pdf_returns.
    + unfold can_fetch_content. mrun.
      destruct (requests_head W _ url) as [status|e] eqn:Hh; mrun.
      * destruct (status =? 200); mrun; [|done].
        unfold try_except. mrun.
        by destruct (fetch_content W download_folder url _) as [[c|e] st1].
      * destruct (Hhead _ _ _ Hh) as [m ->]. done.
Qed.

Lemma pdf_list_kept K st st' :
  grows K st st' →
  is_Some (downloadables st !! "pdf") → is_Some (downloadables st' !! "pdf").
Proof.
  intros H [l Hl]. pose proof (grows_downloadables _ _ _ H "pdf") as Hd.
  rewrite Hl in Hd. destruct Hd as [l' ->]. done.
Qed.

Lemma for_each_entries_returns l st :
  head_raises_request_exception W →
  Forall (λ u, is_ok (normalize_url u None) = true) l →
  is_Some (downloadables st !! "pdf") →
  (for_each l (process_entry W download_folder) () st).1 = Ok ().
Proof.
  intros Hhead Hl. revert st.
  induction Hl as [|url l Hurl _ IH]; intros st Hpdf; simpl; [done|].
  destruct (normalize_url url None) as [key|] eqn:Hkey; [|done].
  unfold mbind, M_bind.
  pose proof (process_entry_returns url key st Hhead Hkey Hpdf) as Hret.
  pose proof (process_entry_grows W download_folder url st) as Hg.
  destruct (process_entry W download_folder () url st) as [[[]|e] st1];
    simpl in *; [|done].
  apply IH. by eapply pdf_list_kept.
Qed.

Lemma wave_returns st :
  head_raises_request_exception W →
  frontier_ok st →
  is_Some (downloadables st !! "pdf") →
  (wave W download_folder st).1 = Ok ().
Proof.
  intros Hhead Hok Hpdf. unfold wave. mrun.
  apply for_each_entries_returns; [done| |done].
  apply Forall_forall. intros u [[k u'] [-> Hin]]%list_elem_of_fmap.
  destruct (Hok k u' Hin) as [_ Hk]. simpl. by rewrite Hk.
Qed.

Lemma waves_returns fuel st :
  head_raises_request_exception W →
  frontier_ok st →
  is_Some (downloadables st !! "pdf") →
  ∃ b, (waves W download_folder fuel st).1 = Ok b.
Proof.
  intros Hhead. revert st.
  induction fuel as [|fuel IH]; intros st Hok Hpdf; simpl; mrun.
  - destruct (relevant_links st); by eexists.
  - destruct (relevant_links st) eqn:Hl; [by eexists|].
    pose proof (wave_returns st Hhead Hok Hpdf) as Hret.
    pose proof (wave_step W download_folder st) as Hstep.
    pose proof (wave_records W download_folder st) as Hg.
    destruct (wave W download_folder st) as [[[]|e] st1]; simpl in *; [|done].
    apply IH; [by eapply step_frontier_ok|by eapply pdf_list_kept].
Qed.

Lemma process_url_returns fuel url key st :
  head_raises_request_exception W →
  normalize_url url None = Ok key →
  frontier_ok st →
  is_Some (downloadables st !! "pdf") →
  ∃ b, (process_url W download_folder fuel url st).1 = Ok b.
Proof.
  intros Hhead Hkey Hok Hpdf. unfold process_url.
  unfold mbind at 1, M_bind at 1, lift at 1. rewrite Hkey.
  unfold mbind at 1, M_bind at 1.
  destruct (in_keys key (seen_links st)) eqn:Hin.
  { unfold seed_is_duplicate. mrun. rewrite Hin. by eexists. }
  assert ((seed_is_duplicate W url key st)
          = (Ok (in_values (fingerprint_at W (length (trace st)) url)
                           (seen_links st)),
             set_trace (λ t, t ++ [EvHash url]) st)) as ->.
  { unfold seed_is_duplicate. mrun. rewrite Hin.
    by rewrite fetch_and_hash_content_eq. }
  destruct (in_values _ (seen_links st)); [by eexists|].
  unfold mbind at 1, M_bind at 1. rewrite fetch_and_hash_content_eq.
  unfold mbind at 1, M_bind at 1, modify at 1.
  unfold mbind at 1, M_bind at 1, modify at 1.
  set (st3 := set_relevant_links _ _). cbn [fst snd].
  assert (frontier_ok st3) as Hok3.
  { intros k u Hku. subst st3. revert Hku. unfold frontier_ok. mrun.
    intros [[= -> ->]|Hku]%dict_set_elem.
    - split; [|done]. by rewrite lookup_insert_eq.
    - destruct (Hok k u Hku) as [Hs Hk]. split; [|done].
      destruct (decide (key = k)) as [->|];
        [by rewrite lookup_insert_eq|by rewrite lookup_insert_ne]. }
  assert (is_Some (downloadables st3 !! "pdf")) as Hpdf3 by done.
  clearbody st3.
  unfold mbind at 1, M_bind at 1.
  destruct (waves_returns fuel st3 Hhead Hok3 Hpdf3) as [b Hb].
  destruct (waves W download_folder fuel st3) as [r st4]. simpl in Hb.
  subst r. destruct b; by eexists.
Qed.
End ReturnFacts.

(** X9.  A run raises no exception when the seed has a key, the frontier
    it starts from holds keys of the registry, the download registry has
    its list of PDF files and the probe fails with [RequestException]
    only. *)
Theorem process_url_raises_nothing (W : World) (download_folder : string)
    (fuel : nat) (url key : string) (st : ContentFetcher) :
  head_raises_request_exception W →
  normalize_url url None = Ok key →
  frontier_ok st →
  is_Some (downloadables st !! "pdf") →
  is_ok (process_url W download_folder fuel url st).1 = true.
Proof.
  intros Hhead Hkey Hok Hpdf.
  destruct (process_url_returns W download_folder fuel url key st
              Hhead Hkey Hok Hpdf) as [b ->]. done.
Qed.

Lemma process_url_raises_nothing_witness :
  is_ok scope_run.1 = true.
Proof.
  apply (process_url_raises_nothing scope_world "fetched_downloadables" 5
           "http://nitj.ac.in/" "http://nitj.ac.in" (init "data:," None)).
  - intros t u e H. simpl in H. discriminate.
  - vm_compute. reflexivity.
  - intros k u Hku. simpl in Hku. by apply elem_of_nil in Hku.
  - vm_compute. by eexists.
Defined.

Section PageFacts.
Context (W : World) (download_folder : string).
Implicit Types (st : ContentFetcher).
#[local] Arguments normalize_url : simpl never.
#[local] Arguments urljoin : simpl never.
#[local] Arguments get_name_from_url : simpl never.
#[local] Arguments is_college_url : simpl never.
#[local] Arguments is_pdf_url : simpl never.
#[local] Arguments is_google_drive_url : simpl never.
#[local] Arguments extract_google_drive_file_id : simpl never.
#[local] Arguments existsb : simpl never.
#[local] Arguments truthy : simpl never.
#[local] Arguments in_keys : simpl never.
#[local] Arguments in_values : simpl never.
#[local] Arguments registered : simpl never.
#[local] Arguments path_join : simpl never.

Lemma process_anchor_keeps_page loc a :
  runs (keeps page_fields) (process_anchor W download_folder loc a).
Proof.
  unfold process_anchor, fetch_and_hash_content, handle_downloadable,
    download_file.
  destruct loc as [dd c]. repeat runs_step; try keeps_leaf.
Qed.

Lemma process_anchor_raises loc a st :
  is_ok (urljoin (current_url st) (href a)
         ≫= λ full_url, normalize_url full_url None) = false →
  is_ok (process_anchor W download_folder loc a st).1 = false.
Proof.
  unfold process_anchor. mrun.
  destruct (urljoin (current_url st) (href a)) as [full_url|]; [|done].
  simpl. mrun. by destruct (normalize_url full_url None).
Qed.

Lemma for_each_anchors_raises l a loc st :
  a ∈ l →
  is_ok (urljoin (current_url st) (href a)
         ≫= λ full_url, normalize_url full_url None) = false →
  is_ok (for_each l (process_anchor W download_folder) loc st).1 = false.
Proof.
  revert loc st. induction l as [|a' l IH]; intros loc st Hin Hbad.
  - by apply elem_of_nil in Hin.
  - simpl. unfold mbind, M_bind.
    pose proof (process_anchor_keeps_page loc a' st) as Hkeep.
    pose proof (process_anchor_raises loc a' st) as Hraise.
    destruct (process_anchor W download_folder loc a' st) as [[loc'|e] st1];
      [|done].
    apply elem_of_cons in Hin as [->|Hin]; [by apply Hraise in Hbad|].
    apply IH; [done|]. unfold keeps, page_fields in Hkeep. simpl in Hkeep.
    injection Hkeep as Hc _ _. by rewrite Hc.
Qed.

Lemma process_entry_unparsable_link url key soup a st :
  is_college_url url = true →
  is_pdf_url url = false →
  is_google_drive_url url = false →
  normalize_url url None = Ok key →
  requests_head W (length (trace st ++ [EvEntry url])) url = Ok 200 →
  let nav := driver_get W (length (trace st ++ [EvEntry url; EvHead url])) url in
  nav_soup nav = Ok soup →
  a ∈ all_links soup →
  is_ok (urljoin (nav_url nav) (href a)
         ≫= λ full_url, normalize_url full_url None) = false →
  ∃ st', process_entry W download_folder () url st = (Ok (), st')
         ∧ url ∈ error_urls st'
         ∧ extracted_data st' = extracted_data st.
Proof.
  intros Hin Hpdf Hgd Hkey Hhead nav Hnav Ha Hbad.
  unfold process_entry. mrun. rewrite Hkey, Hin, Hpdf, Hgd.
  unfold can_fetch_content. mrun. rewrite Hhead. mrun.
  unfold try_except, fetch_content. mrun.
  rewrite <-!app_assoc. simpl. fold nav. rewrite Hnav. mrun.
  destruct (text_data soup) as [text|]; mrun;
    [|eexists; split; [done|]; mrun; split; [by apply elem_of_union_l, elem_of_singleton|done]].
  destruct (images_data soup) as [images|]; mrun;
    [|eexists; split; [done|]; mrun; split; [by apply elem_of_union_l, elem_of_singleton|done]].
  destruct (video_data soup) as [videos|]; mrun;
    [|eexists; split; [done|]; mrun; split; [by apply elem_of_union_l, elem_of_singleton|done]].
  unfold process_href_links. mrun.
  match goal with
  | |- context [for_each _ _ ?loc ?s] =>
      pose proof (for_each_anchors_raises _ a loc s Ha Hbad) as Hraise;
      assert (keeps page_fields s
                (for_each (all_links soup)
                   (process_anchor W download_folder) loc s).2) as Hkeep
        by (apply runs_for_each; [apply _|];
            intros ??; apply process_anchor_keeps_page);
      destruct (for_each (all_links soup)
                  (process_anchor W download_folder) loc s) as [[loc'|e] st1]
  end; [done|].
  unfold keeps, page_fields in Hkeep. simpl in Hkeep.
  injection Hkeep as _ Hx _.
  eexists; split; [done|]. mrun.
  split; [by apply elem_of_union_l, elem_of_singleton|done].
Qed.

End PageFacts.

(** X10.  One link that cannot be parsed loses the page that holds it:
    the page is recorded into [error_urls] and gets no record in
    [extracted_data], whatever else it holds. *)
Theorem unparsable_link_loses_page (W : World) (download_folder : string)
    (url key : string) (soup : Soup) (a : Anchor) (st : ContentFetcher) :
  is_college_url url = true →
  is_pdf_url url = false →
  is_google_drive_url url = false →
  normalize_url url None = Ok key →
  requests_head W (length (trace st ++ [EvEntry url])) url = Ok 200 →
  let nav := driver_get W (length (trace st ++ [EvEntry url; EvHead url])) url in
  nav_soup nav = Ok soup →
  a ∈ all_links soup →
  is_ok (urljoin (nav_url nav) (href a)
         ≫= λ full_url, normalize_url full_url None) = false →
  ∃ st', process_entry W download_folder () url st = (Ok (), st')
         ∧ url ∈ error_urls st'
         ∧ extracted_data st' = extracted_data st.
Proof. apply process_entry_unparsable_link. Qed.

Lemma unparsable_link_loses_page_witness :
  (∃ st', process_entry broken_link_world "fetched_downloadables" ()
            "http://nitj.ac.in/" (init "data:," None) = (Ok (), st')
          ∧ "http://nitj.ac.in/" ∈ error_urls st'
          ∧ extracted_data st' = extracted_data (init "data:," None))
  ∧ broken_link_run.1 = Ok true
  ∧ extracted_data broken_link_run.2 !! "http://nitj.ac.in" = None
  ∧ is_Some (extracted_data broken_link_run.2 !! "http://nitj.ac.in/about").
Proof.
  split; [|repeat split; try (vm_compute; reflexivity); by_eval].
  apply (unparsable_link_loses_page broken_link_world "fetched_downloadables"
           "http://nitj.ac.in/" "http://nitj.ac.in"
           (plain_page [mkAnchor "/about" "About";
                        mkAnchor "http://[broken" "Broken"])
           (mkAnchor "http://[broken" "Broken") (init "data:," None));
    try (vm_compute; reflexivity).
  repeat constructor.
Defined.

Section RegistryFacts.
Context (W : World) (download_folder : string).
Implicit Types (st : ContentFetcher).
#[local] Arguments normalize_url : simpl never.
#[local] Arguments urljoin : simpl never.
#[local] Arguments get_name_from_url : simpl never.
#[local] Arguments is_college_url : simpl never.
#[local] Arguments is_pdf_url : simpl never.
#[local] Arguments is_google_drive_url : simpl never.
#[local] Arguments extract_google_drive_file_id : simpl never.
#[local] Arguments existsb : simpl never.
#[local] Arguments in_keys : simpl never.
#[local] Arguments in_values : simpl never.

Lemma path_join_truthy filename :
  truthy (path_join "fetched_downloadables" filename) = true.
Proof.
  unfold path_join. destruct filename as [|c filename]; [done|].
  destruct (startswith "/" (String c filename)); [done|]. done.
Qed.

Lemma registered_absent name k (d : gmap string (list (string * string))) :
  d !! k = None → registered name k d = false.
Proof.
  intros Hk. unfold registered. by rewrite Hk.
Qed.

Lemma process_entry_without_pdf_list url key st :
  is_college_url url = true →
  is_pdf_url url = true →
  normalize_url url None = Ok key →
  downloadables st !! "pdf" = None →
  requests_download W (length (trace st ++ [EvEntry url])) url = true →
  ∃ st' msg,
    process_entry W download_folder () url st = (Raise (AttributeError msg), st')
    ∧ is_Some (extracted_data st' !! key)
    ∧ downloadables st' = downloadables st.
Proof.
  intros Hin Hpdf Hkey Hnone Hdl.
  unfold process_entry. mrun. rewrite Hkey, Hin, Hpdf.
  unfold own_name_from_url. mrun.
  pose proof (get_name_from_url_returns (empty_path_counter st) _ _ Hkey) as Hn.
  destruct (get_name_from_url _ url) as [[name c]|]; [|done]. mrun.
  unfold download_pdf. mrun.
  rewrite (registered_absent _ _ _ Hnone). mrun.
  unfold download_file. mrun. rewrite Hdl. mrun.
  rewrite path_join_truthy. mrun.
  unfold dict_append. rewrite Hnone. mrun.
  do 2 eexists. split; [done|]. mrun. split; [|done].
  by rewrite lookup_insert_eq.
Qed.
End RegistryFacts.

(** X11.  When the download registry loaded from the storage file has no
    list of PDF files, a PDF entry whose download succeeds raises
    [AttributeError], after its record was stored in [extracted_data]. *)
Theorem pdf_entry_without_pdf_list (W : World) (download_folder : string)
    (url key : string) (st : ContentFetcher) :
  is_college_url url = true →
  is_pdf_url url = true →
  normalize_url url None = Ok key →
  downloadables st !! "pdf" = None →
  requests_download W (length (trace st ++ [EvEntry url])) url = true →
  ∃ st' msg,
    process_entry W download_folder () url st = (Raise (AttributeError msg), st')
    ∧ is_Some (extracted_data st' !! key)
    ∧ downloadables st' = downloadables st.
Proof. apply process_entry_without_pdf_list. Qed.

Lemma pdf_entry_without_pdf_list_witness :
  ∃ st' msg,
    process_entry scope_world "fetched_downloadables" ()
      "http://nitj.ac.in/notes.pdf" (init "data:," (Some foreign_store))
    = (Raise (AttributeError msg), st')
    ∧ is_Some (extracted_data st' !! "http://nitj.ac.in/notes.pdf")
    ∧ downloadables st' = downloadables (init "data:," (Some foreign_store)).
Proof.
  apply (pdf_entry_without_pdf_list scope_world "fetched_downloadables"
           "http://nitj.ac.in/notes.pdf" "http://nitj.ac.in/notes.pdf"
           (init "data:," (Some foreign_store)));
    vm_compute; reflexivity.
Defined.

(** ** Entries and fingerprints *)

Global Instance keeps_frontier_keys_preorder : PreOrder keeps_frontier_keys.
Proof.
  split; [intros st H; exact H|]. intros st1 st2 st3 H1 H2 H. by apply H2, H1.
Qed.

Lemma dict_set_keys k v d :
  (dict_set k v d).*1 = if bool_decide (k ∈ d.*1) then d.*1 else d.*1 ++ [k].
Proof.
  induction d as [|[k0 v0] d IH]; [done|].
  cbn [dict_set]. destruct (String.eqb k0 k) eqn:Heq.
  - apply String.eqb_eq in Heq as ->. rewrite !fmap_cons. cbn [fst].
    rewrite bool_decide_eq_true_2; [done|by left].
  - apply String.eqb_neq in Heq. rewrite !fmap_cons. cbn [fst]. rewrite IH.
    destruct (bool_decide (k ∈ d.*1)) eqn:Hk.
    + apply bool_decide_eq_true in Hk.
      rewrite bool_decide_eq_true_2; [done|by right].
    + apply bool_decide_eq_false in Hk.
      rewrite bool_decide_eq_false_2; [done|].
      intros [?|?]%elem_of_cons; congruence.
Qed.

Lemma dict_set_keys_unique k v d : NoDup d.*1 → NoDup (dict_set k v d).*1.
Proof.
  intros Hd. rewrite dict_set_keys.
  destruct (bool_decide (k ∈ d.*1)) eqn:Hk; [done|].
  apply bool_decide_eq_false in Hk.
  apply NoDup_app. split; [done|]. split; [|apply NoDup_singleton].
  intros x Hx ->%list_elem_of_singleton. done.
Qed.

Ltac frontier_keys_leaf :=
  first
    [ apply runs_modify; intros ? H; exact H
    | apply runs_interact; intros ? H; exact H
    | apply runs_modify; intros ? H; by apply dict_set_keys_unique ].

Section EntryKeyFacts.
Context (W : World) (download_folder : string).
Implicit Types (st : ContentFetcher).
#[local] Arguments normalize_url : simpl never.
#[local] Arguments urljoin : simpl never.
#[local] Arguments get_name_from_url : simpl never.
#[local] Arguments is_college_url : simpl never.
#[local] Arguments is_pdf_url : simpl never.
#[local] Arguments is_google_drive_url : simpl never.
#[local] Arguments extract_google_drive_file_id : simpl never.
#[local] Arguments existsb : simpl never.
#[local] Arguments truthy : simpl never.
#[local] Arguments in_keys : simpl never.
#[local] Arguments in_values : simpl never.
#[local] Arguments registered : simpl never.
#[local] Arguments path_join : simpl never.

Lemma process_anchor_frontier_keys loc a :
  runs keeps_frontier_keys (process_anchor W download_folder loc a).
Proof.
  unfold process_anchor, fetch_and_hash_content, handle_downloadable,
    download_file.
  destruct loc as [dd c]. repeat runs_step; try frontier_keys_leaf.
Qed.

Lemma process_entry_frontier_keys url :
  runs keeps_frontier_keys (process_entry W download_folder () url).
Proof.
  unfold process_entry, own_name_from_url, can_fetch_content, download_pdf,
    download_file, fetch_content, process_href_links.
  repeat runs_step; try frontier_keys_leaf.
  apply process_anchor_frontier_keys.
Qed.

Lemma for_each_entries_frontier_keys l :
  runs keeps_frontier_keys (for_each l (process_entry W download_folder) ()).
Proof. runs_step. destruct b. apply process_entry_frontier_keys. Qed.

(** The keys of a prefix of the URLs of a frontier. *)
Lemma frontier_prefix_keys st us :
  frontier_ok st → frontier_keys_unique st →
  us `prefix_of` (relevant_links st).*2 →
  ∃ ks, keys_of us ks ∧ NoDup ks ∧ ∀ k, k ∈ ks → k ∈ (relevant_links st).*1.
Proof.
  intros Hok Hnd [rest Hrest].
  set (l1 := take (length us) (relevant_links st)).
  assert (l1 `sublist_of` relevant_links st) as Hsub by apply sublist_take.
  assert (us = l1.*2) as Hus.
  { unfold l1. rewrite fmap_take, Hrest. by rewrite take_app_length. }
  clearbody l1. subst us.
  exists l1.*1. split; [|split].
  - apply Forall2_fmap, Forall_Forall2_diag, Forall_forall.
    intros [k u] Hin. simpl. apply Hok. by eapply elem_of_sublist.
  - eapply sublist_NoDup; [exact Hnd|]. by apply fmap_sublist.
  - intros k Hk. eapply elem_of_sublist; [exact Hk|]. by apply fmap_sublist.
Qed.

Lemma wave_entry_keys st :
  frontier_ok st → frontier_keys_unique st →
  let st1 := (wave W download_folder st).2 in
  frontier_ok st1 ∧ frontier_keys_unique st1
  ∧ seen_links st ⊆ seen_links st1
  ∧ (∀ k, k ∈ (relevant_links st1).*1 → seen_links st !! k = None)
  ∧ ∃ t ks, trace st1 = trace st ++ t ∧ keys_of (entries t) ks ∧ NoDup ks
            ∧ ∀ k, k ∈ ks → k ∈ (relevant_links st).*1.
Proof.
  intros Hok Hnd. unfold wave. mrun.
  set (st0 := mkContentFetcher _ _ _ _ _ _ _ _ _ _ _ _).
  destruct (for_each_entries W download_folder ((relevant_links st).*2) st0)
    as [Hstep (t & Ht & Hpre & _)].
  pose proof (for_each_entries_frontier_keys ((relevant_links st).*2) st0) as Hk.
  assert (frontier_ok st0) as Hok0 by (by intros k u ?%elem_of_nil).
  split; [by eapply step_frontier_ok|].
  split; [apply Hk; apply NoDup_nil_2|].
  split; [apply Hstep|]. split.
  - intros k [[k' u] [-> Hin]]%list_elem_of_fmap.
    destruct (step_frontier _ _ _ Hstep k' u Hin) as [Hin0|[Hnone _]];
      [by apply elem_of_nil in Hin0|done].
  - destruct (frontier_prefix_keys st (entries t) Hok Hnd Hpre)
      as (ks & Hks & Hnd' & Hin).
    by exists t, ks.
Qed.

Lemma waves_entry_keys fuel st :
  frontier_ok st → frontier_keys_unique st →
  ∃ t ks, trace (waves W download_folder fuel st).2 = trace st ++ t
          ∧ keys_of (entries t) ks ∧ NoDup ks
          ∧ ∀ k, k ∈ ks →
                 k ∈ (relevant_links st).*1 ∨ seen_links st !! k = None.
Proof.
  assert (∀ st (P : string → Prop),
            ∃ t ks, trace st = trace st ++ t ∧ keys_of (entries t) ks
                    ∧ NoDup ks ∧ ∀ k, k ∈ ks → P k) as Hnone.
  { intros st0 P. exists [], []. rewrite app_nil_r.
    split; [done|]. split; [constructor|]. split; [constructor|].
    by intros k ?%elem_of_nil. }
  revert st. induction fuel as [|fuel IH]; intros st Hok Hnd; simpl; mrun.
  - destruct (relevant_links st); apply Hnone.
  - destruct (relevant_links st) as [|e l] eqn:Hl; [apply Hnone|].
    rewrite <-Hl. clear e l Hl.
    destruct (wave_entry_keys st Hok Hnd)
      as (Hok1 & Hnd1 & Hseen & Hfresh & t & ks & Ht & Hks & Hndk & Hin).
    destruct (wave W download_folder st) as [[[]|e] st1]; simpl in *.
    + destruct (IH st1 Hok1 Hnd1) as (t' & ks' & Ht' & Hks' & Hndk' & Hin').
      exists (t ++ t'), (ks ++ ks'). split; [by rewrite Ht', Ht, app_assoc|].
      split; [rewrite entries_app; by apply Forall2_app|].
      assert (∀ k, k ∈ ks → is_Some (seen_links st1 !! k)) as Hold.
      { intros k [[k' u] [-> Hk]]%Hin%list_elem_of_fmap.
        eapply lookup_weaken_is_Some; [by apply (Hok k' u)|done]. }
      assert (∀ k, k ∈ ks' → seen_links st !! k = None) as Hnew.
      { intros k [Hk|Hk]%Hin'; [by apply Hfresh|].
        destruct (seen_links st !! k) as [h|] eqn:Hh; [|done].
        by rewrite (lookup_weaken _ _ _ _ Hh Hseen) in Hk. }
      split.
      * apply NoDup_app. split; [done|]. split; [|done].
        intros k Hk Hk'. apply Hin in Hk. apply Hnew in Hk'.
        apply list_elem_of_fmap in Hk as [[k' u] [-> Hk]].
        destruct (Hok k' u Hk) as [[h Hh] _]. simpl in Hk'. congruence.
      * intros k [Hk|Hk]%elem_of_app; [left; by apply Hin|right; by apply Hnew].
    + exists t, ks. repeat split; try done. intros k Hk. left. by apply Hin.
Qed.

Lemma process_url_entry_keys fuel url st :
  frontier_ok st → frontier_keys_unique st →
  ∃ t ks, trace (process_url W download_folder fuel url st).2 = trace st ++ t
          ∧ keys_of (entries t) ks ∧ NoDup ks.
Proof.
  intros Hok Hnd.
  assert (∀ st0 t, entries t = [] → trace st0 = trace st ++ t →
            ∃ t ks, trace st0 = trace st ++ t ∧ keys_of (entries t) ks
                    ∧ NoDup ks) as Hnone.
  { intros st0 t Hent Ht. exists t, []. rewrite Hent.
    split; [done|]. split; constructor. }
  unfold process_url.
  unfold mbind at 1, M_bind at 1, lift at 1.
  destruct (normalize_url url None) as [key|] eqn:Hkey;
    [|apply (Hnone _ []); [done|by rewrite app_nil_r]].
  unfold mbind at 1, M_bind at 1.
  destruct (in_keys key (seen_links st)) eqn:Hin.
  { unfold seed_is_duplicate. mrun. rewrite Hin.
    apply (Hnone _ []); [done|by rewrite app_nil_r]. }
  assert ((seed_is_duplicate W url key st)
          = (Ok (in_values (fingerprint_at W (length (trace st)) url)
                           (seen_links st)),
             set_trace (λ t, t ++ [EvHash url]) st)) as ->.
  { unfold seed_is_duplicate. mrun. rewrite Hin.
    by rewrite fetch_and_hash_content_eq. }
  destruct (in_values _ (seen_links st)); [by apply (Hnone _ [EvHash url])|].
  unfold mbind at 1, M_bind at 1. rewrite fetch_and_hash_content_eq.
  unfold mbind at 1, M_bind at 1, modify at 1.
  unfold mbind at 1, M_bind at 1, modify at 1.
  set (st3 := set_relevant_links _ _). cbn [fst snd].
  assert (frontier_ok st3) as Hok3.
  { intros k u Hku. subst st3. revert Hku. unfold frontier_ok. mrun.
    intros [[= -> ->]|Hku]%dict_set_elem.
    - split; [|done]. by rewrite lookup_insert_eq.
    - destruct (Hok k u Hku) as [Hs Hk]. split; [|done].
      destruct (decide (key = k)) as [->|];
        [by rewrite lookup_insert_eq|by rewrite lookup_insert_ne]. }
  assert (frontier_keys_unique st3) as Hnd3.
  { subst st3. unfold frontier_keys_unique. mrun.
    by apply dict_set_keys_unique. }
  assert (trace st3 = trace st ++ [EvHash url; EvHash url]) as Ht3.
  { subst st3. mrun. by rewrite <-app_assoc. }
  clearbody st3.
  unfold mbind at 1, M_bind at 1.
  destruct (waves_entry_keys fuel st3 Hok3 Hnd3) as (t & ks & Ht & Hks & Hndk & _).
  destruct (waves W download_folder fuel st3) as [[[]|e] st4]; simpl in Ht.
  - exists ([EvHash url; EvHash url] ++ t ++ [EvSave; EvQuit]), ks.
    split; [|split; [|done]].
    + unfold save_data, quit_driver. mrun. rewrite Ht, Ht3, <-!app_assoc. done.
    + rewrite !entries_app. simpl. by rewrite app_nil_r.
  - exists ([EvHash url; EvHash url] ++ t), ks.
    split; [|split; [|done]].
    + mrun. rewrite Ht, Ht3, <-!app_assoc. done.
    + by rewrite entries_app.
  - exists ([EvHash url; EvHash url] ++ t), ks.
    split; [|split; [|done]].
    + mrun. rewrite Ht, Ht3, <-!app_assoc. done.
    + by rewrite entries_app.
Qed.

End EntryKeyFacts.

(** X12.  In one run no key is taken from the frontier twice: the URLs of
    the entries that the waves of a call of [process_url] take have
    pairwise distinct keys. *)
Theorem no_key_crawled_twice (W : World) (download_folder : string)
    (fuel : nat) (url : string) (st : ContentFetcher) :
  frontier_ok st →
  frontier_keys_unique st →
  ∃ t ks, trace (process_url W download_folder fuel url st).2 = trace st ++ t
          ∧ keys_of (entries t) ks ∧ NoDup ks.
Proof. apply process_url_entry_keys. Qed.

Lemma no_key_crawled_twice_witness :
  ∃ t ks, trace scope_run.2 = [] ++ t ∧ keys_of (entries t) ks ∧ NoDup ks.
Proof.
  apply (no_key_crawled_twice scope_world "fetched_downloadables" 5
           "http://nitj.ac.in/" (init "data:," None)).
  - intros k u Hku. simpl in Hku. by apply elem_of_nil in Hku.
  - apply NoDup_nil_2.
Defined.

Global Instance keeps_fingerprints_preorder : PreOrder keeps_fingerprints.
Proof.
  split; [intros st H; exact H|]. intros st1 st2 st3 H1 H2 H. by apply H2, H1.
Qed.

Lemma in_values_false {V} `{EqDecision V} (v : V) (m : gmap string V) k :
  in_values v m = false → m !! k ≠ Some v.
Proof.
  unfold in_values. intros H%bool_decide_eq_false Hk. apply H.
  apply list_elem_of_fmap. exists (k, v). split; [done|].
  by apply elem_of_map_to_list.
Qed.

Lemma insert_fingerprint (m : gmap string (option string)) key fp :
  (∀ k1 k2 h, m !! k1 = Some (Some h) → m !! k2 = Some (Some h) → k1 = k2) →
  in_values fp m = false →
  ∀ k1 k2 h, <[key := fp]> m !! k1 = Some (Some h) →
             <[key := fp]> m !! k2 = Some (Some h) → k1 = k2.
Proof.
  intros Hm Hfp k1 k2 h.
  destruct (decide (k1 = key)) as [->|H1], (decide (k2 = key)) as [->|H2];
    rewrite ?lookup_insert_eq, ?lookup_insert_ne by done; try done.
  - intros [= ->] H. by apply (in_values_false _ _ k2) in Hfp.
  - intros H [= ->]. by apply (in_values_false _ _ k1) in Hfp.
  - apply Hm.
Qed.

Ltac invariant_leaf :=
  first
    [ apply runs_modify; intros ? H; exact H
    | apply runs_interact; intros ? H; exact H ].

Section FingerprintFacts.
Context (W : World) (download_folder : string).
Implicit Types (st : ContentFetcher).
#[local] Arguments normalize_url : simpl never.
#[local] Arguments urljoin : simpl never.
#[local] Arguments get_name_from_url : simpl never.
#[local] Arguments is_college_url : simpl never.
#[local] Arguments is_pdf_url : simpl never.
#[local] Arguments is_google_drive_url : simpl never.
#[local] Arguments extract_google_drive_file_id : simpl never.
#[local] Arguments existsb : simpl never.
#[local] Arguments truthy : simpl never.
#[local] Arguments in_keys : simpl never.
#[local] Arguments in_values : simpl never.
#[local] Arguments registered : simpl never.
#[local] Arguments path_join : simpl never.

Lemma process_anchor_fingerprints loc a :
  runs keeps_fingerprints (process_anchor W download_folder loc a).
Proof.
  intros st. unfold process_anchor. simpl.
  unfold mbind at 1, M_bind at 1. simpl.
  unfold mbind at 1, M_bind at 1. unfold lift at 1.
  destruct (urljoin (current_url st) (href a)) as [full_url|]; [|reflexivity].
  unfold mbind at 1, M_bind at 1. unfold lift at 1.
  destruct (normalize_url full_url None) as [key|] eqn:Hkey; [|reflexivity].
  destruct (existsb _ media_extensions); [reflexivity|].
  destruct (existsb _ document_extensions).
  { revert st. 
    match goal with
    | |- ∀ s, keeps_fingerprints s (?m s).2 => change (runs keeps_fingerprints m)
    end.
    unfold handle_downloadable, download_file. destruct loc as [dd c].
    repeat runs_step; try invariant_leaf. }
  unfold mbind at 1, M_bind at 1. simpl.
  destruct (negb (truthy key) || in_keys key (seen_links st)); [reflexivity|].
  unfold mbind at 1, M_bind at 1. rewrite fetch_and_hash_content_eq. mrun.
  destruct (truthy_opt _ && negb (in_values _ (seen_links st))) eqn:Hnew; mrun.
  - apply andb_true_iff in Hnew as [_ Hnew%negb_true_iff].
    intros Hu. unfold fingerprints_unique. mrun.
    by apply insert_fingerprint.
  - intros Hu. exact Hu.
Qed.

Lemma waves_fingerprints fuel :
  runs keeps_fingerprints (waves W download_folder fuel).
Proof.
  induction fuel as [|fuel IH]; simpl; repeat runs_step; try done.
  unfold wave. repeat runs_step; try invariant_leaf.
  destruct b. unfold process_entry, own_name_from_url, can_fetch_content,
    download_pdf, download_file, fetch_content, process_href_links.
  repeat runs_step; try invariant_leaf.
  apply process_anchor_fingerprints.
Qed.

Lemma process_url_fingerprints fuel url st :
  (∀ h, fingerprint_at W (S (length (trace st))) url = Some h →
        fingerprint_at W (length (trace st)) url = Some h) →
  fingerprints_unique st →
  fingerprints_unique (process_url W download_folder fuel url st).2.
Proof.
  intros Hsame Hu. unfold process_url.
  unfold mbind at 1, M_bind at 1, lift at 1.
  destruct (normalize_url url None) as [key|] eqn:Hkey; [|done].
  unfold mbind at 1, M_bind at 1.
  destruct (in_keys key (seen_links st)) eqn:Hin.
  { unfold seed_is_duplicate. mrun. by rewrite Hin. }
  assert ((seed_is_duplicate W url key st)
          = (Ok (in_values (fingerprint_at W (length (trace st)) url)
                           (seen_links st)),
             set_trace (λ t, t ++ [EvHash url]) st)) as ->.
  { unfold seed_is_duplicate. mrun. rewrite Hin.
    by rewrite fetch_and_hash_content_eq. }
  destruct (in_values _ (seen_links st)) eqn:Hnew; [done|].
  unfold mbind at 1, M_bind at 1. rewrite fetch_and_hash_content_eq.
  unfold mbind at 1, M_bind at 1, modify at 1.
  unfold mbind at 1, M_bind at 1, modify at 1.
  set (st3 := set_relevant_links _ _). cbn [fst snd].
  assert (fingerprints_unique st3) as Hu3.
  { subst st3. unfold fingerprints_unique. mrun.
    rewrite length_app, Nat.add_1_r.
    destruct (fingerprint_at W (S (length (trace st))) url) as [h|] eqn:Hfp.
    - apply insert_fingerprint; [done|]. by rewrite <-(Hsame h eq_refl).
    - intros k1 k2 h.
      destruct (decide (k1 = key)) as [->|H1], (decide (k2 = key)) as [->|H2];
        rewrite ?lookup_insert_eq, ?lookup_insert_ne by done; try done.
      apply Hu. }
  clearbody st3.
  unfold mbind at 1, M_bind at 1.
  pose proof (waves_fingerprints fuel st3 Hu3) as Hw.
  destruct (waves W download_folder fuel st3) as [[[]|e] st4]; simpl in Hw;
    done.
Qed.
End FingerprintFacts.

(** X13.  No two keys of the registry get the same fingerprint, as long as
    the second GET of the seed, the one whose answer is recorded, gives no
    other fingerprint than the first, the one that was compared. *)
Theorem fingerprints_stay_unique (W : World) (download_folder : string)
    (fuel : nat) (url : string) (st : ContentFetcher) :
  (∀ h, fingerprint_at W (S (length (trace st))) url = Some h →
        fingerprint_at W (length (trace st)) url = Some h) →
  fingerprints_unique st →
  fingerprints_unique (process_url W download_folder fuel url st).2.
Proof. apply process_url_fingerprints. Qed.

Lemma fingerprints_stay_unique_witness : fingerprints_unique scope_run.2.
Proof.
  apply (fingerprints_stay_unique scope_world "fetched_downloadables" 5
           "http://nitj.ac.in/" (init "data:," None)).
  - intros h H. exact H.
  - intros k1 k2 h H. simpl in H. by rewrite lookup_empty in H.
Defined.

(** ** Documents *)

Section DocumentFacts.
Context (W : World) (download_folder : string).
Implicit Types (st : ContentFetcher).
#[local] Arguments normalize_url : simpl never.
#[local] Arguments urljoin : simpl never.
#[local] Arguments get_name_from_url : simpl never.
#[local] Arguments existsb : simpl never.
#[local] Arguments truthy : simpl never.
#[local] Arguments registered : simpl never.
#[local] Arguments path_join : simpl never.

Lemma handle_downloadable_registered full_url a dd c name c' k st :
  get_name_from_url c full_url = Ok (name, c') →
  k ∈ formats →
  registered (replace "/" "_" name) k (downloadables st) = true →
  handle_downloadable W download_folder full_url a (dd, c) st
  = (Ok (dd, c'), st).
Proof.
  intros Hname Hk Hreg. unfold handle_downloadable. mrun. rewrite Hname. mrun.
  assert (negb (registered (replace "/" "_" name) "pdf" (downloadables st))
          && negb (registered (replace "/" "_" name) "docx" (downloadables st))
          && negb (registered (replace "/" "_" name) "xlsx" (downloadables st))
          && negb (registered (replace "/" "_" name) "zip" (downloadables st))
          = false) as ->; [|done].
  destruct (_ && _) eqn:Hnone; [|done].
  by rewrite (registered_formats _ _ _ Hk Hnone) in Hreg.
Qed.

Lemma replace_no_slash s : mem "/" (replace "/" "_" s) = false.
Proof.
  induction s as [|a s IH]; [done|].
  unfold replace in *. cbn [map mem]. rewrite IH, orb_false_r.
  destruct (chr_eqb a "/") eqn:Ha; [done|exact Ha].
Qed.

Lemma path_join_no_slash folder f :
  mem "/" f = false →
  path_join folder f
  = if negb (truthy folder) || endswith "/" folder
    then folder +:+ f else folder +:+ "/" +:+ f.
Proof.
  intros Hf. unfold path_join.
  destruct f as [|a f]; [done|]. simpl in Hf.
  apply orb_false_iff in Hf as [Ha _]. cbn [startswith].
  destruct (chr_eqb "/" a) eqn:Ha'; [|done].
  apply chr_eqb_eq in Ha' as <-. by rewrite chr_eqb_refl in Ha.
Qed.

Lemma handle_downloadable_target full_url a loc st :
  ∃ t, trace (handle_downloadable W download_folder full_url a loc st).2
       = trace st ++ t
       ∧ (t = []
          ∨ ∃ f, mem "/" f = false
                 ∧ t = [EvDownload full_url
                          (if negb (truthy download_folder)
                              || endswith "/" download_folder
                           then download_folder +:+ f
                           else download_folder +:+ "/" +:+ f)]).
Proof.
  assert (∀ r : result Locals, ∃ t, trace (r, st).2 = trace st ++ t
            ∧ (t = [] ∨ ∃ f, mem "/" f = false
                 ∧ t = [EvDownload full_url
                          (if negb (truthy download_folder)
                              || endswith "/" download_folder
                           then download_folder +:+ f
                           else download_folder +:+ "/" +:+ f)])) as Hnone.
  { intros r. exists []. rewrite app_nil_r. split; [done|by left]. }
  unfold handle_downloadable. destruct loc as [dd c]. mrun.
  destruct (get_name_from_url c full_url) as [[name c']|];
    [|apply (Hnone (Raise e))]. mrun.
  destruct (_ && _); [|apply (Hnone (Ok (dd, c')))].
  unfold download_file. mrun.
  rewrite (path_join_no_slash _ _ (replace_no_slash name)).
  eexists. split; [|right; exists (replace "/" "_" name);
                    split; [apply replace_no_slash|reflexivity]].
  destruct (requests_download W _ full_url); mrun;
    [|reflexivity].
  match goal with
  | |- context [truthy (if ?b then ?x else ?y)] =>
      destruct (truthy (if b then x else y))
  end; mrun; [|reflexivity].
  destruct (dd !! _); mrun; [|reflexivity].
  destruct (dict_append _ _ _); mrun; reflexivity.
Qed.

End DocumentFacts.

(** X14.  A document link whose file name is in one of the four lists of
    the download registry is skipped, whatever its URL and its extension:
    nothing is downloaded and nothing is recorded.  The name is the path
    of the URL without its extension, so the second of two documents
    that a script serves under one path is never downloaded. *)
Theorem registered_document_skipped (W : World) (download_folder : string)
    (full_url : string) (a : Anchor)
    (dd : gmap string (list DownloadableInfo)) (c c' : nat)
    (name k : string) (st : ContentFetcher) :
  get_name_from_url c full_url = Ok (name, c') →
  k ∈ formats →
  registered (replace "/" "_" name) k (downloadables st) = true →
  handle_downloadable W download_folder full_url a (dd, c) st
  = (Ok (dd, c'), st).
Proof. apply handle_downloadable_registered. Qed.

Lemma registered_document_skipped_witness :
  handle_downloadable served_documents_world "fetched_downloadables"
    "http://nitj.ac.in/download.php?file=b.pdf"
    (mkAnchor "/download.php?file=b.pdf" "B") (∅, 1) served_documents_run.2
  = (Ok (∅, 1), served_documents_run.2)
  ∧ downloadables served_documents_run.2 !! "pdf"
    = Some [("download", "http://nitj.ac.in/download.php?file=a.pdf")]
  ∧ List.filter is_download (trace served_documents_run.2)
    = [EvDownload "http://nitj.ac.in/download.php?file=a.pdf"
         "fetched_downloadables/download"].
Proof.
  split; [|split; vm_compute; reflexivity].
  apply (registered_document_skipped served_documents_world
           "fetched_downloadables" "http://nitj.ac.in/download.php?file=b.pdf"
           (mkAnchor "/download.php?file=b.pdf" "B") ∅ 1 1 "download" "pdf"
           served_documents_run.2).
  - vm_compute. reflexivity.
  - repeat constructor.
  - vm_compute. reflexivity.
Defined.

(** X15.  A document link makes at most one download, and the file is
    written directly into the download folder: the file name holds no
    slash, so it neither leaves the folder through a directory of its
    own nor replaces it as an absolute path. *)
Theorem document_download_target (W : World) (download_folder : string)
    (full_url : string) (a : Anchor) (loc : Locals) (st : ContentFetcher) :
  ∃ t, trace (handle_downloadable W download_folder full_url a loc st).2
       = trace st ++ t
       ∧ (t = []
          ∨ ∃ f, mem "/" f = false
                 ∧ t = [EvDownload full_url
                          (if negb (truthy download_folder)
                              || endswith "/" download_folder
                           then download_folder +:+ f
                           else download_folder +:+ "/" +:+ f)]).
Proof. apply handle_downloadable_target. Qed.

(** ** Keys *)


(** X16.  A URL has the same key under [https] and under [http]. *)
Theorem normalize_url_ignores_https (rest : string) :
  normalize_url ("https://" +:+ rest) None
  = normalize_url ("http://" +:+ rest) None.
Proof. apply normalize_url_https. Qed.

(** X17.  The key of a URL does not depend on its fragment. *)
Theorem normalize_url_ignores_fragment (url frag : string) :
  mem "#" url = false →
  normalize_url (url +:+ String "#" frag) None = normalize_url url None.
Proof. apply normalize_url_fragment. Qed.

Lemma normalize_url_ignores_fragment_witness :
  normalize_url ("http://nitj.ac.in/a?b=1" +:+ "#top") None
  = normalize_url "http://nitj.ac.in/a?b=1" None.
Proof.
  apply (normalize_url_ignores_fragment "http://nitj.ac.in/a?b=1" "top").
  reflexivity.
Defined.

(** X18.  The key of an ASCII URL without square brackets does not
    depend on the case of its letters, those of the path and of the
    query included: such a URL has a key, and every URL that differs from
    it in case only has the same key.  (Between square brackets the case
    matters: [urlparse] accepts [[v1.a]] and rejects [[V1.a]].) *)
Theorem normalize_url_ignores_case (url1 url2 : string) :
  isascii url1 = true → mem "[" url1 = false → mem "]" url1 = false →
  lower url1 = lower url2 →
  is_ok (normalize_url url1 None) = true
  ∧ normalize_url url1 None = normalize_url url2 None.
Proof.
  intros Hascii H1 H2. apply normalize_url_case; [done|].
  by apply no_bracket_mem.
Qed.

Lemma normalize_url_ignores_case_witness :
  is_ok (normalize_url "http://nitj.ac.in/Admissions/Fees?Year=2024" None)
  = true
  ∧ normalize_url "http://nitj.ac.in/Admissions/Fees?Year=2024" None
    = normalize_url "HTTP://NITJ.AC.IN/admissions/FEES?year=2024" None.
Proof.
  apply (normalize_url_ignores_case
           "http://nitj.ac.in/Admissions/Fees?Year=2024"
           "HTTP://NITJ.AC.IN/admissions/FEES?year=2024");
    reflexivity.
Defined.

(** ** Google Drive links and file names *)

Section FileIdFacts.

Lemma split_hd c s :
  mem c (hd "" (split c s)) = false ∧ ∃ r, s = hd "" (split c s) +:+ r.
Proof.
  induction s as [|a s [IH1 [r IH2]]]; [split; [done|by exists ""]|].
  cbn [split]. destruct (chr_eqb a c) eqn:Ha; [split; [done|by eexists]|].
  destruct (split c s) as [|x xs]; cbn [cons_head hd] in *.
  - split; [cbn [mem]; by rewrite Ha|]. exists s. done.
  - split; [cbn [mem]; by rewrite Ha, IH1|].
    exists r. rewrite str_app_cons. by rewrite <-IH2.
Qed.

Lemma split_go_skip sep s r :
  split_go sep (String.length s) (s +:+ r) = split_go sep 0 r.
Proof.
  induction s as [|a s IH]; [done|].
  rewrite str_app_cons. cbn [String.length split_go]. exact IH.
Qed.

Lemma split_go_occurrence sep rest :
  truthy sep = true →
  split_go sep 0 (sep +:+ rest) = "" :: split_go sep 0 rest.
Proof.
  destruct sep as [|c sep']; [done|]. intros _.
  rewrite str_app_cons. cbn [split_go].
  rewrite <-str_app_cons.
  assert (startswith (String c sep') (String c sep' +:+ rest) = true) as ->
    by (apply startswith_spec; by eexists).
  cbn [String.length].
  destruct sep' as [|c' sep'']; [done|]. cbn [String.length].
  f_equal. apply (split_go_skip (String c (String c' sep'')) (String c' sep'')).
Qed.

Lemma split_go_absent sep s :
  truthy sep = true → contains sep s = false → split_go sep 0 s = [s].
Proof.
  intros Hsep. induction s as [|a s IH]; [done|].
  cbn [contains split_go]. intros [-> Hs]%orb_false_iff.
  by rewrite (IH Hs).
Qed.

Lemma split_go_first sep s :
  truthy sep = true → contains sep s = true →
  ∃ before rest, s = before +:+ sep +:+ rest
                 ∧ split_go sep 0 s = before :: split_go sep 0 rest.
Proof.
  intros Hsep. induction s as [|a s IH].
  - destruct sep; done.
  - cbn [contains]. destruct (startswith sep (String a s)) eqn:Hsw.
    + intros _. apply startswith_spec in Hsw as [rest Hrest].
      exists "", rest. rewrite Hrest. split; [done|].
      by apply split_go_occurrence.
    + intros Hs. destruct (IH Hs) as (before & rest & -> & Hsplit).
      exists (String a before), rest. split; [by rewrite str_app_cons|].
      cbn [split_go]. rewrite <-str_app_cons at 1.
      assert (String a before +:+ sep +:+ rest
              = String a (before +:+ sep +:+ rest)) as Heq
        by apply str_app_cons.
      rewrite Heq, Hsw in *. by rewrite Hsplit.
Qed.

Lemma split_go_hd sep s :
  truthy sep = true → ∃ r, s = hd "" (split_go sep 0 s) +:+ r.
Proof.
  intros Hsep. destruct (contains sep s) eqn:Hs.
  - destruct (split_go_first sep s Hsep Hs) as (before & rest & -> & ->).
    by eexists.
  - rewrite (split_go_absent sep s Hsep Hs). exists "". cbn [hd].
    by rewrite str_app_nil_r.
Qed.

Lemma replace_absent a b s : mem a s = false → replace a b s = s.
Proof.
  unfold replace. induction s as [|c s IH]; [done|]. cbn [mem map].
  intros [-> Hs]%orb_false_iff. by rewrite (IH Hs).
Qed.

Lemma extract_google_drive_file_id_inv url file_id :
  extract_google_drive_file_id url = Some file_id →
  mem "/" file_id = false
  ∧ replace "/" "_" file_id = file_id
  ∧ ∃ before after, url = before +:+ "file/d/" +:+ file_id +:+ after.
Proof.
  unfold extract_google_drive_file_id.
  destruct (contains "file/d/" url) eqn:Hc; [|done]. intros [= <-].
  destruct (split_go_first "file/d/" url eq_refl Hc)
    as (before & rest & -> & Hsplit).
  unfold split_str. rewrite Hsplit.
  change (nth 1 (before :: split_go "file/d/" 0 rest) "")
    with (nth 0 (split_go "file/d/" 0 rest) "").
  assert (nth 0 (split_go "file/d/" 0 rest) ""
          = hd "" (split_go "file/d/" 0 rest)) as ->
    by (by destruct (split_go "file/d/" 0 rest)).
  destruct (split_go_hd "file/d/" rest eq_refl) as [r1 Hr1].
  set (part := hd "" (split_go "file/d/" 0 rest)) in *.
  destruct (split_hd "/" part) as [Hno [r2 Hr2]].
  split; [done|]. split; [by apply replace_absent|].
  exists before, (r2 +:+ r1). rewrite Hr1 at 1. rewrite Hr2 at 1.
  by rewrite !str_app_assoc.
Qed.

End FileIdFacts.

(** X19.  The file id that [extract_google_drive_file_id] returns holds
    no slash, so that replacing the slashes of it, as [process_url] does
    for the file name, changes nothing; the URL holds [file/d/] followed by
    the id. *)
Theorem google_drive_file_id_spec (url file_id : string) :
  extract_google_drive_file_id url = Some file_id →
  mem "/" file_id = false
  ∧ replace "/" "_" file_id = file_id
  ∧ ∃ before after, url = before +:+ "file/d/" +:+ file_id +:+ after.
Proof. apply extract_google_drive_file_id_inv. Qed.

Lemma google_drive_file_id_spec_witness :
  mem "/" "1AbC" = false
  ∧ replace "/" "_" "1AbC" = "1AbC"
  ∧ ∃ before after,
      "https://drive.google.com/file/d/1AbC/view?usp=sharing"
      = before +:+ "file/d/" +:+ "1AbC" +:+ after.
Proof.
  apply (google_drive_file_id_spec
           "https://drive.google.com/file/d/1AbC/view?usp=sharing" "1AbC").
  vm_compute. reflexivity.
Defined.

(** ** [handle_dataframes_in_dict] *)

Section DataFrameFacts.
Context {DataFrame : Type} (to_dict_records : DataFrame → PyObj DataFrame).

Lemma PyObj_induction (P : PyObj DataFrame → Prop) :
  (∀ items, Forall (λ kv, P kv.2) items → P (PDict items)) →
  (∀ items, Forall P items → P (PList items)) →
  (∀ frame, P (PFrame frame)) →
  (∀ items, Forall P items → P (PTuple items)) →
  (∀ value, P (PAtom value)) →
  ∀ d, P d.
Proof.
  intros Hdict Hlist Hframe Htuple Hatom. fix IH 1.
  intros [items|items|frame|items|value].
  - apply Hdict. induction items as [|[k v] items IHitems]; constructor;
      [apply IH|apply IHitems].
  - apply Hlist. induction items as [|v items IHitems]; constructor;
      [apply IH|apply IHitems].
  - apply Hframe.
  - apply Htuple. induction items as [|v items IHitems]; constructor;
      [apply IH|apply IHitems].
  - apply Hatom.
Qed.

Lemma handle_dataframes_frame_free d :
  frame_free d = true → handle_dataframes_in_dict to_dict_records d = d.
Proof.
  induction d as [items IH|items IH| |items IH|] using PyObj_induction;
    cbn [frame_free handle_dataframes_in_dict]; try done.
  - intros Hfree. f_equal.
    induction IH as [|[k v] items Hv _ IHitems]; [done|].
    cbn [List.forallb List.map snd] in *.
    apply andb_true_iff in Hfree as [Hfv Hfree].
    by rewrite (Hv Hfv), (IHitems Hfree).
  - intros Hfree. f_equal.
    induction IH as [|v items Hv _ IHitems]; [done|].
    cbn [List.forallb List.map] in *.
    apply andb_true_iff in Hfree as [Hfv Hfree].
    by rewrite (Hv Hfv), (IHitems Hfree).
Qed.

Lemma handle_dataframes_clean d :
  frame_free (handle_dataframes_in_dict to_dict_records d)
  = converts_clean to_dict_records d.
Proof.
  induction d as [items IH|items IH| |items IH|] using PyObj_induction;
    cbn [frame_free handle_dataframes_in_dict converts_clean]; try done.
  - induction IH as [|[k v] items Hv _ IHitems]; [done|].
    cbn [List.forallb List.map]. simpl in Hv. by rewrite Hv, IHitems.
  - induction IH as [|v items Hv _ IHitems]; [done|].
    cbn [List.forallb List.map]. by rewrite Hv, IHitems.
Qed.

End DataFrameFacts.

(** X20.  [handle_dataframes_in_dict] gives back a value that holds no
    [DataFrame] as it is. *)
Theorem handle_dataframes_identity {DataFrame : Type}
    (to_dict_records : DataFrame → PyObj DataFrame) (d : PyObj DataFrame) :
  frame_free d = true →
  handle_dataframes_in_dict to_dict_records d = d.
Proof. apply handle_dataframes_frame_free. Qed.

Lemma handle_dataframes_identity_witness :
  handle_dataframes_in_dict table_records
    (PDict [("text", PAtom "Fees"); ("links", PList [PTuple [PAtom "a"]])])
  = PDict [("text", PAtom "Fees"); ("links", PList [PTuple [PAtom "a"]])].
Proof.
  apply (handle_dataframes_identity table_records
           (PDict [("text", PAtom "Fees"); ("links", PList [PTuple [PAtom "a"]])])).
  reflexivity.
Defined.

(** X21.  The value that [handle_dataframes_in_dict] returns holds no
    [DataFrame] exactly when every [DataFrame] of the argument is reached
    through dictionaries and lists only, a [DataFrame] in a tuple is
    left where it is, and the records of the converted ones hold none;
    the function then changes nothing when it is applied again. *)
Theorem handle_dataframes_result {DataFrame : Type}
    (to_dict_records : DataFrame → PyObj DataFrame) (d : PyObj DataFrame) :
  frame_free (handle_dataframes_in_dict to_dict_records d)
  = converts_clean to_dict_records d
  ∧ (converts_clean to_dict_records d = true →
     handle_dataframes_in_dict to_dict_records
       (handle_dataframes_in_dict to_dict_records d)
     = handle_dataframes_in_dict to_dict_records d)
  ∧ (∀ items, handle_dataframes_in_dict to_dict_records (PTuple items)
              = PTuple items).
Proof.
  split; [apply handle_dataframes_clean|]. split; [|done].
  intros Hclean. apply handle_dataframes_frame_free.
  by rewrite handle_dataframes_clean.
Qed.

Lemma handle_dataframes_result_witness :
  frame_free (handle_dataframes_in_dict table_records page_record) = true
  ∧ handle_dataframes_in_dict table_records
      (handle_dataframes_in_dict table_records page_record)
    = handle_dataframes_in_dict table_records page_record
  ∧ frame_free (handle_dataframes_in_dict table_records
                  (PList [PTuple [PFrame fees_table]])) = false.
Proof.
  destruct (handle_dataframes_result table_records page_record)
    as (Hfree & Hagain & _).
  split; [rewrite Hfree; reflexivity|]. split; [apply Hagain; reflexivity|].
  reflexivity.
Defined.

(** ** Requests of an entry and keys of the registry *)

Section RequestFacts.
Context (W : World) (download_folder : string).
Implicit Types (st : ContentFetcher).
#[local] Arguments normalize_url : simpl never.
#[local] Arguments urljoin : simpl never.
#[local] Arguments get_name_from_url : simpl never.
#[local] Arguments is_college_url : simpl never.
#[local] Arguments is_pdf_url : simpl never.
#[local] Arguments is_google_drive_url : simpl never.
#[local] Arguments extract_google_drive_file_id : simpl never.
#[local] Arguments existsb : simpl never.
#[local] Arguments truthy : simpl never.
#[local] Arguments in_keys : simpl never.
#[local] Arguments in_values : simpl never.
#[local] Arguments registered : simpl never.
#[local] Arguments path_join : simpl never.

Lemma process_entry_probe_fails url key st :
  is_college_url url = true →
  is_pdf_url url = false →
  is_google_drive_url url = false →
  normalize_url url None = Ok key →
  probe_fails (requests_head W (length (trace st ++ [EvEntry url])) url) →
  process_entry W download_folder () url st
  = (Ok (), set_urls_not_fetched (λ s, {[url]} ∪ s)
              (set_trace (λ t, t ++ [EvEntry url; EvHead url]) st)).
Proof.
  intros Hin Hpdf Hgd Hkey Hprobe.
  unfold process_entry. mrun. rewrite Hkey, Hin, Hpdf, Hgd.
  unfold can_fetch_content. mrun.
  destruct (requests_head W _ url) as [status|[]]; try done; mrun.
  - apply Nat.eqb_neq in Hprobe. rewrite Hprobe. mrun.
    by rewrite <-app_assoc.
  - by rewrite <-app_assoc.
Qed.

Lemma process_anchor_known loc a full_url key st :
  urljoin (current_url st) (href a) = Ok full_url →
  normalize_url full_url None = Ok key →
  existsb (λ ext, endswith ext (href a)) media_extensions = true
  ∨ (existsb (λ ext, endswith ext (href a)) document_extensions = false
     ∧ (key = "" ∨ is_Some (seen_links st !! key))) →
  process_anchor W download_folder loc a st = (Ok loc, st).
Proof.
  intros Hjoin Hkey Hcase. unfold process_anchor. mrun.
  rewrite Hjoin. mrun. rewrite Hkey.
  destruct Hcase as [->|[Hdoc Hknown]]; [done|].
  destruct (existsb _ media_extensions); [done|]. rewrite Hdoc. mrun.
  assert (negb (truthy key) || in_keys key (seen_links st) = true) as ->;
    [|done].
  destruct Hknown as [->|Hseen]; [done|].
  apply orb_true_iff. right. by apply bool_decide_eq_true.
Qed.

Lemma process_entry_pdf url st :
  is_college_url url = true →
  is_pdf_url url = true →
  ∃ t, trace (process_entry W download_folder () url st).2
       = trace st ++ EvEntry url :: t
       ∧ (t = []
          ∨ ∃ f, mem "/" f = false
                 ∧ t = [EvDownload url ("fetched_downloadables/" +:+ f)]).
Proof.
  intros Hin Hpdf.
  assert (∃ t, trace st ++ [EvEntry url] = trace st ++ EvEntry url :: t
               ∧ (t = []
                  ∨ ∃ f, mem "/" f = false
                         ∧ t = [EvDownload url
                                  ("fetched_downloadables/" +:+ f)]))
    as Hnone.
  { exists []. split; [done|by left]. }
  unfold process_entry. mrun.
  destruct (normalize_url url None) as [key|]; [|exact Hnone].
  rewrite Hin, Hpdf. unfold own_name_from_url. mrun.
  destruct (get_name_from_url _ url) as [[name c]|]; [|exact Hnone]. mrun.
  unfold download_pdf. mrun.
  destruct (registered _ "pdf" _); mrun; [exact Hnone|].
  unfold download_file. mrun.
  rewrite (path_join_no_slash _ _ (replace_no_slash name)).
  change (if negb (truthy "fetched_downloadables")
             || endswith "/" "fetched_downloadables"
          then "fetched_downloadables" +:+ replace "/" "_" name
          else "fetched_downloadables" +:+ "/" +:+ replace "/" "_" name)
    with ("fetched_downloadables/" +:+ replace "/" "_" name).
  exists [EvDownload url ("fetched_downloadables/" +:+ replace "/" "_" name)].
  split; [|right; exists (replace "/" "_" name);
           split; [apply replace_no_slash|reflexivity]].
  destruct (requests_download W _ url); mrun;
    [|by rewrite <-app_assoc].
  match goal with
  | |- context [truthy ?p] => destruct (truthy p)
  end; mrun; [|by rewrite <-app_assoc].
  destruct (dict_append _ _ _); mrun; by rewrite <-app_assoc.
Qed.

End RequestFacts.

(** X22.  A page in scope whose probe gives no status 200 (a redirect
    that [requests.head] does not follow, an error status, a
    [RequestException]) is recorded into [urls_not_fetched] and is not
    opened: the probe is the one request of the entry. *)
Theorem unanswered_probe_not_opened (W : World) (download_folder : string)
    (url key : string) (st : ContentFetcher) :
  is_college_url url = true →
  is_pdf_url url = false →
  is_google_drive_url url = false →
  normalize_url url None = Ok key →
  probe_fails (requests_head W (length (trace st ++ [EvEntry url])) url) →
  process_entry W download_folder () url st
  = (Ok (), set_urls_not_fetched (λ s, {[url]} ∪ s)
              (set_trace (λ t, t ++ [EvEntry url; EvHead url]) st)).
Proof. apply process_entry_probe_fails. Qed.

Lemma unanswered_probe_not_opened_witness :
  process_entry moved_world "fetched_downloadables" () "http://nitj.ac.in/"
    (init "data:," None)
  = (Ok (), set_urls_not_fetched (λ s, {["http://nitj.ac.in/"]} ∪ s)
              (set_trace (λ t, t ++ [EvEntry "http://nitj.ac.in/";
                                    EvHead "http://nitj.ac.in/"])
                 (init "data:," None))).
Proof.
  apply (unanswered_probe_not_opened moved_world "fetched_downloadables"
           "http://nitj.ac.in/" "http://nitj.ac.in" (init "data:," None));
    try (vm_compute; reflexivity).
  simpl. lia.
Defined.

(** X23.  A link that is a media link, or that is no document link and
    whose key is empty or a key of [seen_links], is passed over: no
    request is made and nothing changes. *)
Theorem known_link_makes_no_request (W : World) (download_folder : string)
    (loc : Locals) (a : Anchor) (full_url key : string) (st : ContentFetcher) :
  urljoin (current_url st) (href a) = Ok full_url →
  normalize_url full_url None = Ok key →
  existsb (λ ext, endswith ext (href a)) media_extensions = true
  ∨ (existsb (λ ext, endswith ext (href a)) document_extensions = false
     ∧ (key = "" ∨ is_Some (seen_links st !! key))) →
  process_anchor W download_folder loc a st = (Ok loc, st).
Proof. apply process_anchor_known. Qed.

Lemma known_link_makes_no_request_witness :
  process_anchor scope_world "fetched_downloadables" (∅, 1)
    (mkAnchor "HTTPS://nitj.ac.in/#top" "Home") scope_run.2
  = (Ok (∅, 1), scope_run.2).
Proof.
  apply (known_link_makes_no_request scope_world "fetched_downloadables"
           (∅, 1) (mkAnchor "HTTPS://nitj.ac.in/#top" "Home")
           "HTTPS://nitj.ac.in/#top" "http://nitj.ac.in" scope_run.2).
  - vm_compute. reflexivity.
  - vm_compute. reflexivity.
  - right. split; [vm_compute; reflexivity|]. right. vm_compute. by eexists.
Defined.

(** X24.  A PDF entry in scope is neither probed nor opened in the
    browser: apart from taking the entry, the only request is at most
    one download, and the file is written into the folder
    [fetched_downloadables] whatever the download folder of the link
    processor is. *)
Theorem pdf_entry_only_downloads (W : World) (download_folder : string)
    (url : string) (st : ContentFetcher) :
  is_college_url url = true →
  is_pdf_url url = true →
  ∃ t, trace (process_entry W download_folder () url st).2
       = trace st ++ EvEntry url :: t
       ∧ (t = []
          ∨ ∃ f, mem "/" f = false
                 ∧ t = [EvDownload url ("fetched_downloadables/" +:+ f)]).
Proof. apply process_entry_pdf. Qed.

Lemma pdf_entry_only_downloads_witness :
  ∃ t, trace (process_entry scope_world "downloads" ()
                "http://nitj.ac.in/docs/notes.pdf" (init "data:," None)).2
       = trace (init "data:," None)
         ++ EvEntry "http://nitj.ac.in/docs/notes.pdf" :: t
       ∧ (t = []
          ∨ ∃ f, mem "/" f = false
                 ∧ t = [EvDownload "http://nitj.ac.in/docs/notes.pdf"
                          ("fetched_downloadables/" +:+ f)]).
Proof.
  apply (pdf_entry_only_downloads scope_world "downloads"
           "http://nitj.ac.in/docs/notes.pdf" (init "data:," None));
    vm_compute; reflexivity.
Defined.

Global Instance keeps_keys_normalized_preorder : PreOrder keeps_keys_normalized.
Proof.
  split; [intros st H; exact H|]. intros st1 st2 st3 H1 H2 H. by apply H2, H1.
Qed.

(** ** Failures *)

Section FailureFacts.
Context (W : World) (download_folder : string).
Implicit Types (st : ContentFetcher).
#[local] Arguments normalize_url : simpl never.
#[local] Arguments urljoin : simpl never.
#[local] Arguments get_name_from_url : simpl never.
#[local] Arguments is_college_url : simpl never.
#[local] Arguments is_pdf_url : simpl never.
#[local] Arguments is_google_drive_url : simpl never.
#[local] Arguments extract_google_drive_file_id : simpl never.
#[local] Arguments existsb : simpl never.
#[local] Arguments truthy : simpl never.
#[local] Arguments in_keys : simpl never.
#[local] Arguments in_values : simpl never.
#[local] Arguments registered : simpl never.
#[local] Arguments path_join : simpl never.







End FailureFacts.




Section RegistryKeyFacts.
Context (W : World) (download_folder : string).
Implicit Types (st : ContentFetcher).
#[local] Arguments normalize_url : simpl never.
#[local] Arguments urljoin : simpl never.
#[local] Arguments get_name_from_url : simpl never.
#[local] Arguments is_college_url : simpl never.
#[local] Arguments is_pdf_url : simpl never.
#[local] Arguments is_google_drive_url : simpl never.
#[local] Arguments extract_google_drive_file_id : simpl never.
#[local] Arguments existsb : simpl never.
#[local] Arguments truthy : simpl never.
#[local] Arguments in_keys : simpl never.
#[local] Arguments in_values : simpl never.
#[local] Arguments registered : simpl never.
#[local] Arguments path_join : simpl never.

Lemma insert_key_normalized st url key fp :
  normalize_url url None = Ok key →
  keys_normalized st →
  keys_normalized (set_seen_links <[key := fp]> st).
Proof.
  intros Hkey Hst k. unfold keys_normalized in *. mrun.
  destruct (decide (k = key)) as [->|Hne]; [by exists url|].
  rewrite lookup_insert_ne by done. apply Hst.
Qed.

Lemma process_anchor_keys_normalized loc a :
  runs keeps_keys_normalized (process_anchor W download_folder loc a).
Proof.
  intros st. unfold process_anchor. simpl.
  unfold mbind at 1, M_bind at 1. simpl.
  unfold mbind at 1, M_bind at 1. unfold lift at 1.
  destruct (urljoin (current_url st) (href a)) as [full_url|]; [|reflexivity].
  unfold mbind at 1, M_bind at 1. unfold lift at 1.
  destruct (normalize_url full_url None) as [key|] eqn:Hkey; [|reflexivity].
  destruct (existsb _ media_extensions); [reflexivity|].
  destruct (existsb _ document_extensions).
  { revert st.
    match goal with
    | |- ∀ s, keeps_keys_normalized s (?m s).2 =>
        change (runs keeps_keys_normalized m)
    end.
    unfold handle_downloadable, download_file. destruct loc as [dd c].
    repeat runs_step; try invariant_leaf. }
  unfold mbind at 1, M_bind at 1. simpl.
  destruct (negb (truthy key) || in_keys key (seen_links st)); [reflexivity|].
  unfold mbind at 1, M_bind at 1. rewrite fetch_and_hash_content_eq. mrun.
  destruct (truthy_opt _ && negb (in_values _ (seen_links st))); mrun.
  - intros Hst. by apply (insert_key_normalized _ full_url).
  - intros Hst. exact Hst.
Qed.

Lemma waves_keys_normalized fuel :
  runs keeps_keys_normalized (waves W download_folder fuel).
Proof.
  induction fuel as [|fuel IH]; simpl; repeat runs_step; try done.
  unfold wave. repeat runs_step; try invariant_leaf.
  destruct b. unfold process_entry, own_name_from_url, can_fetch_content,
    download_pdf, download_file, fetch_content, process_href_links.
  repeat runs_step; try invariant_leaf.
  apply process_anchor_keys_normalized.
Qed.

Lemma process_url_keys_normalized fuel url :
  runs keeps_keys_normalized (process_url W download_folder fuel url).
Proof.
  intros st Hst. unfold process_url.
  unfold mbind at 1, M_bind at 1, lift at 1.
  destruct (normalize_url url None) as [key|] eqn:Hkey; [|done].
  unfold mbind at 1, M_bind at 1.
  pose proof (seed_is_duplicate_quiet W url key st) as Hq.
  destruct (seed_is_duplicate W url key st) as [[[]|e] st1];
    cbn [fst snd] in Hq |- *;
    [intros k; mrun; rewrite (quiet_seen _ _ _ Hq); apply Hst| |
     intros k; mrun; rewrite (quiet_seen _ _ _ Hq); apply Hst].
  unfold mbind at 1, M_bind at 1. rewrite fetch_and_hash_content_eq.
  unfold mbind at 1, M_bind at 1, modify at 1.
  unfold mbind at 1, M_bind at 1, modify at 1.
  set (st3 := set_relevant_links _ _). cbn [fst snd].
  assert (keys_normalized st3) as Hst3.
  { subst st3. intros k. mrun. rewrite (quiet_seen _ _ _ Hq).
    destruct (decide (k = key)) as [->|Hne]; [by exists url|].
    rewrite lookup_insert_ne by done. apply Hst. }
  clearbody st3.
  unfold mbind at 1, M_bind at 1.
  pose proof (waves_keys_normalized fuel st3 Hst3) as Hw.
  destruct (waves W download_folder fuel st3) as [[[]|e] st4]; simpl in Hw;
    done.
Qed.
End RegistryKeyFacts.

(** X25.  Every key of the registry is the key that [normalize_url]
    gives for some URL: the seed and the links are recorded under their
    keys only. *)
Theorem registry_keys_normalized (W : World) (download_folder : string)
    (fuel : nat) (url : string) (st : ContentFetcher) :
  keys_normalized st →
  keys_normalized (process_url W download_folder fuel url st).2.
Proof. apply process_url_keys_normalized. Qed.

Lemma registry_keys_normalized_witness : keys_normalized scope_run.2.
Proof.
  apply (registry_keys_normalized scope_world "fetched_downloadables" 5
           "http://nitj.ac.in/" (init "data:," None)).
  intros k [h Hk]. simpl in Hk. by rewrite lookup_empty in Hk.
Defined.

(** ** The end of the loop *)

Section FuelFacts.
Context (W : World) (download_folder : string).
Implicit Types (st : ContentFetcher).
#[local] Arguments normalize_url : simpl never.

Lemma waves_more_fuel fuel n st :
  (waves W download_folder fuel st).1 ≠ Ok false →
  waves W download_folder (fuel + n) st = waves W download_folder fuel st.
Proof.
  revert st. induction fuel as [|fuel IH]; intros st.
  - simpl. mrun. destruct (relevant_links st) eqn:Hl; [|done]. intros _.
    destruct n; simpl; mrun; by rewrite Hl.
  - simpl. mrun. destruct (relevant_links st) eqn:Hl; [done|].
    destruct (wave W download_folder st) as [[[]|e] st1]; [|done].
    apply IH.
Qed.

Lemma process_url_more_fuel fuel n url st :
  (process_url W download_folder fuel url st).1 ≠ Ok false →
  process_url W download_folder (fuel + n) url st
  = process_url W download_folder fuel url st.
Proof.
  unfold process_url, mbind, M_bind, lift, modify. cbv beta.
  destruct (normalize_url url None) as [key|]; [|done].
  destruct (seed_is_duplicate W url key st) as [[[]|e] st1]; try done.
  destruct (fetch_and_hash_content W url st1) as [[h|e] st2]; [|done].
  cbv beta iota.
  set (st3 := set_relevant_links _ _).
  pose proof (waves_more_fuel fuel n st3) as Hw.
  destruct (waves W download_folder fuel st3) as [[[]|e] st4] eqn:Hrun;
    cbn [fst snd] in Hw.
  - intros _. by rewrite Hw.
  - done.
  - intros _. by rewrite Hw.
Qed.

(** Forward progress: a wave that leaves an entry in the frontier has
    recorded a new key. *)
Lemma wave_progress st :
  let st1 := (wave W download_folder st).2 in
  relevant_links st1 = []
  ∨ size (dom (seen_links st)) < size (dom (seen_links st1)).
Proof.
  unfold wave. mrun.
  set (st0 := mkContentFetcher _ _ _ _ _ _ _ _ _ _ _ _).
  destruct (for_each_entries W download_folder ((relevant_links st).*2) st0)
    as [Hstep _].
  set (st1 := (for_each _ _ _ st0).2) in *.
  destruct (relevant_links st1) as [|[k u] l] eqn:Hl; [by left|]. right.
  destruct (step_frontier _ _ _ Hstep k u) as [Hold|(Hnone & Hsome & _)].
  { rewrite Hl. by apply elem_of_cons; left. }
  { by apply elem_of_nil in Hold. }
  apply subset_size. split.
  - apply subseteq_dom, Hstep.
  - intros Hsub. apply not_elem_of_dom in Hnone. apply Hnone, Hsub.
    by apply elem_of_dom.
Qed.

(** If the registry never holds more than [N] keys, the loop ends as soon
    as the waves allowed and the keys recorded are more than [N]. *)
Lemma waves_end N fuel st :
  (∀ n, size (dom (seen_links (waves W download_folder n st).2)) ≤ N) →
  relevant_links st = [] ∨ N < fuel + size (dom (seen_links st)) →
  (waves W download_folder fuel st).1 ≠ Ok false.
Proof.
  revert st. induction fuel as [|fuel IH]; intros st Hbound Hfuel.
  - pose proof (Hbound 0) as H0. revert H0. simpl. mrun.
    destruct (relevant_links st) eqn:Hl; [done|].
    destruct Hfuel as [|Hfuel]; [done|]. cbn [snd]. lia.
  - pose proof (wave_progress st) as Hprog. cbv zeta in Hprog.
    assert (∀ n, (waves W download_folder (S n) st)
                 = (wave W download_folder;; waves W download_folder n) st
                 ∨ relevant_links st = []) as Hstep.
    { intros n. simpl. mrun. destruct (relevant_links st); auto. }
    simpl. mrun. destruct (relevant_links st) as [|e l] eqn:Hl; [done|].
    destruct Hfuel as [|Hfuel]; [done|].
    destruct (wave W download_folder st) as [[[]|e'] st1] eqn:Hwave; [|done].
    cbn [snd] in Hprog. apply IH.
    + intros n. specialize (Hbound (S n)).
      destruct (Hstep n) as [Heq|]; [|done].
      rewrite Heq in Hbound. unfold mbind, M_bind in Hbound.
      by rewrite Hwave in Hbound.
    + destruct Hprog as [|Hprog]; [by left|right]. lia.
Qed.

(** A run that never holds more than [N] keys ends within [N] waves. *)
Lemma process_url_ends N fuel url st :
  (∀ n, size (dom (seen_links (process_url W download_folder n url st).2))
        ≤ N) →
  N ≤ fuel →
  (process_url W download_folder fuel url st).1 ≠ Ok false.
Proof.
  intros Hbound Hfuel. revert Hbound.
  unfold process_url, mbind, M_bind, lift, modify. cbv beta.
  destruct (normalize_url url None) as [key|]; [|done].
  destruct (seed_is_duplicate W url key st) as [[[]|e] st1]; try done.
  destruct (fetch_and_hash_content W url st1) as [[h|e] st2]; [|done].
  cbv beta iota.
  set (st3 := set_relevant_links _ _). intros Hbound.
  assert (0 < size (dom (seen_links st3))) as Hseed.
  { subst st3. mrun. rewrite dom_insert.
    apply Nat.neq_0_lt_0. intros Hz%size_empty_inv.
    apply (not_elem_of_empty (C:=gset string) key). rewrite <-Hz.
    by apply elem_of_union_l, elem_of_singleton. }
  pose proof (waves_end N fuel st3) as Hw.
  destruct (waves W download_folder fuel st3) as [[[]|e] st4] eqn:Hrun;
    cbn [fst snd] in *; try done.
  exfalso. apply Hw; [|right; lia|done].
  intros n. specialize (Hbound n).
  destruct (waves W download_folder n st3) as [[[]|e] st5];
    revert Hbound; unfold save_data, quit_driver; by mrun.
Qed.

End FuelFacts.

(** X26.  The loop of [process_url] ends.  A wave that leaves an entry in
    the frontier has recorded a new key, so a run whose registry never
    holds more than [N] keys, however many waves it is allowed, makes at
    most [N] waves: allowed [N] waves or more, it returns or raises
    before the bound is reached, and with a larger bound it does the same
    and ends in the same state. *)
Theorem crawl_ends_within_bound (W : World) (download_folder : string)
    (N fuel fuel' : nat) (url : string) (st : ContentFetcher) :
  (∀ n, size (dom (seen_links (process_url W download_folder n url st).2))
        ≤ N) →
  N ≤ fuel → fuel ≤ fuel' →
  (process_url W download_folder fuel url st).1 ≠ Ok false
  ∧ process_url W download_folder fuel' url st
    = process_url W download_folder fuel url st
  ∧ ∀ st0, let st1 := (wave W download_folder st0).2 in
           relevant_links st1 = []
           ∨ size (dom (seen_links st0)) < size (dom (seen_links st1)).
Proof.
  intros Hbound Hfuel Hmore.
  pose proof (process_url_ends W download_folder N fuel url st Hbound Hfuel)
    as Hend.
  split; [done|]. split; [|apply wave_progress].
  replace fuel' with (fuel + (fuel' - fuel)) by lia.
  by apply process_url_more_fuel.
Qed.

Lemma crawl_ends_within_bound_witness :
  scope_run.1 ≠ Ok false
  ∧ process_url scope_world "fetched_downloadables" 5 "http://nitj.ac.in/"
      (init "data:," None)
    = process_url scope_world "fetched_downloadables" 2 "http://nitj.ac.in/"
        (init "data:," None).
Proof.
  assert (∀ n, size (dom (seen_links
                 (process_url scope_world "fetched_downloadables" n
                    "http://nitj.ac.in/" (init "data:," None)).2)) ≤ 2)
    as Hbound.
  { intros [|[|n]]; [vm_compute; lia..|].
    change (S (S n)) with (2 + n).
    rewrite process_url_more_fuel; [vm_compute; lia|].
    vm_compute. intros [=]. }
  destruct (crawl_ends_within_bound scope_world "fetched_downloadables"
              2 2 5 "http://nitj.ac.in/" (init "data:," None) Hbound)
    as (Hend & Heq & _); [lia..|].
  split; [|exact Heq].
  unfold scope_run. rewrite Heq. exact Hend.
Defined.

(** ** [normalize_href] and [is_internal_link] *)

Section HrefFacts.
#[local] Arguments parse_qs : simpl never.
#[local] Arguments lower_keys : simpl never.
#[local] Arguments sorted_items : simpl never.
#[local] Arguments urlencode_doseq : simpl never.

Lemma normalize_href_inv href r :
  normalize_href href = Ok r →
  ∃ p, urlparse href = Ok p
       ∧ r = lower (rstrip "/" (path p))
             +:+ (if truthy (params p) then ";" +:+ params p else "")
             +:+ (let q := urlencode_doseq
                             (sorted_items (lower_keys (parse_qs (query p)))) in
                  if truthy q then "?" +:+ q else "").
Proof.
  unfold normalize_href. destruct (urlparse href) as [p|]; [|done].
  cbn [mbind result_bind]. intros [= <-]. exists p. split; [done|].
  unfold urlunparse, urlunsplit.
  cbn [scheme netloc path params query fragment truthy orb andb].
  destruct (truthy (params p)), (truthy (urlencode_doseq _));
    by rewrite ?str_app_assoc, ?str_app_nil_r.
Qed.

Lemma normalize_href_fragment href frag :
  mem "#" href = false →
  normalize_href (href +:+ String "#" frag) = normalize_href href.
Proof.
  intros Hhref. unfold normalize_href.
  rewrite (urlparse_fragment href frag Hhref).
  by destruct (urlparse href) as [p|].
Qed.

Lemma normalize_href_total href :
  isascii href = true → forallb no_bracket href = true →
  is_ok (normalize_href href) = true.
Proof.
  intros Hascii Hhref. unfold normalize_href.
  pose proof (urlparse_total href Hascii Hhref) as Hok.
  by destruct (urlparse href).
Qed.

(** The network location of a parse does not depend on the default
    scheme. *)
Lemma urlparse_with_netloc url s1 s2 :
  match urlparse_with url s1, urlparse_with url s2 with
  | Ok p1, Ok p2 => netloc p1 = netloc p2
  | Raise e1, Raise e2 => e1 = e2
  | _, _ => False
  end.
Proof.
  unfold urlparse_with, urlsplit.
  set (d1 := remove unsafe_url_byte _).
  set (u := remove unsafe_url_byte (lstrip c0_control_or_space url)).
  set (d2 := remove unsafe_url_byte _).
  assert (∀ d, (split_scheme d u).2 = (split_scheme "" u).2) as Hrest.
  { intros d. unfold split_scheme.
    destruct (partition ":" u) as [[[|a pre] rest]|]; try done.
    by destruct (_ && _). }
  pose proof (Hrest d1) as H1. pose proof (Hrest d2) as H2.
  destruct (split_scheme d1 u) as [sch1 rest1],
           (split_scheme d2 u) as [sch2 rest2].
  cbn [snd] in H1, H2. subst rest1 rest2.
  set (rest := (split_scheme "" u).2).
  destruct (startswith "//" rest).
  - destruct (splitnetloc rest) as [nl r1].
    destruct (_ || _); [done|].
    destruct (if mem "[" nl && mem "]" nl then _ else _) as [[]|]; [|done].
    cbn [mbind result_bind].
    destruct (split_at "#" r1) as [r2 frag].
    destruct (split_at "?" r2) as [r3 q].
    destruct (checknetloc nl) as [[]|]; [|done].
    cbn [mbind result_bind scheme path].
    destruct (str_in_list sch1 uses_params && mem ";" r3),
             (str_in_list sch2 uses_params && mem ";" r3);
      by destruct (splitparams r3).
  - cbn [mbind result_bind].
    destruct (split_at "#" rest) as [r2 frag].
    destruct (split_at "?" r2) as [r3 q].
    cbn [mbind result_bind scheme path checknetloc truthy negb orb].
    destruct (str_in_list sch1 uses_params && mem ";" r3),
             (str_in_list sch2 uses_params && mem ";" r3);
      by destruct (splitparams r3).
Qed.

Lemma is_internal_link_empty base :
  is_internal_link base "" = (λ _, true) <$> urlparse base.
Proof.
  unfold is_internal_link, urljoin.
  destruct base as [|a base]; [done|]. cbn [truthy negb mbind result_bind].
  destruct (urlparse (String a base)) as [b|]; [|done].
  cbn [mbind result_bind fmap result_fmap]. by rewrite String.eqb_refl.
Qed.

Lemma is_internal_link_other_scheme base link b u :
  truthy base = true → truthy link = true →
  urlparse base = Ok b →
  urlparse_with link (scheme b) = Ok u →
  scheme u ≠ scheme b ∨ str_in_list (scheme u) uses_relative = false →
  is_internal_link base link = Ok (String.eqb (netloc u) (netloc b)).
Proof.
  intros Hbase Hlink Hb Hu Hother. unfold is_internal_link, urljoin.
  rewrite Hbase, Hlink. cbn [negb].
  change (urlparse_with base "") with (urlparse base). rewrite Hb.
  cbn [mbind result_bind]. rewrite Hu. cbn [mbind result_bind].
  assert (negb (String.eqb (scheme u) (scheme b))
          || negb (str_in_list (scheme u) uses_relative) = true) as ->.
  { destruct Hother as [Hne| ->]; [|by rewrite orb_true_r].
    apply String.eqb_neq in Hne. by rewrite Hne. }
  cbn [mbind result_bind].
  pose proof (urlparse_with_netloc link "" (scheme b)) as Hnl.
  change (urlparse_with link "") with (urlparse link) in Hnl.
  rewrite Hu in Hnl. destruct (urlparse link) as [p|]; [|done].
  cbn [mbind result_bind]. by rewrite Hnl.
Qed.

End HrefFacts.

(** X27.  [normalize_href], on an ASCII href without [%], keeps the
    path without its last slashes and in lower case, the parameters, and
    the query with its keys in lower case and sorted: the scheme, the host
    and the fragment are dropped.  Any href without [#] has the same
    result with a fragment added, and an ASCII href without square
    brackets always has a result.  Of two keys that differ in case only,
    the values of the later one replace those of the earlier one. *)
Theorem normalize_href_contract :
  (∀ href r,
     isascii href = true → mem "%" href = false →
     normalize_href href = Ok r →
     ∃ p, urlparse href = Ok p
          ∧ r = lower (rstrip "/" (path p))
                +:+ (if truthy (params p) then ";" +:+ params p else "")
                +:+ (let q := urlencode_doseq
                                (sorted_items
                                   (lower_keys (parse_qs (query p)))) in
                     if truthy q then "?" +:+ q else ""))
  ∧ (∀ href frag,
       mem "#" href = false →
       normalize_href (href +:+ String "#" frag) = normalize_href href)
  ∧ (∀ href, isascii href = true →
             mem "[" href = false → mem "]" href = false →
             is_ok (normalize_href href) = true)
  ∧ normalize_href "https://nitj.ac.in/Admissions/?B=2&a=1&b=3&b=4#top"
    = Ok "/admissions?a=1&b=3&b=4"
  ∧ normalize_href "/A/b/?x=1&X=2" = Ok "/a/b?x=2"
  ∧ normalize_href "http://nitj.ac.in℀/Admissions/"
    = Raise (ValueError
               "netloc 'nitj.ac.in℀' contains invalid characters under NFKC normalization").
Proof.
  split; [intros href r _ _; apply normalize_href_inv|].
  split; [apply normalize_href_fragment|].
  split.
  { intros href Hascii H1 H2. apply normalize_href_total; [done|].
    by apply no_bracket_mem. }
  repeat split; vm_compute; reflexivity.
Qed.

(** X28.  [is_internal_link] compares the network locations as they are
    written.  The empty link is internal to every base that parses; a
    link with a scheme of its own, another one than the scheme of the
    base or one that has no relative form, is internal exactly when its
    network location is that of the base, character by character. *)
Theorem is_internal_link_compares_netloc :
  (∀ base, is_internal_link base "" = (λ _, true) <$> urlparse base)
  ∧ (∀ base link b u,
       truthy base = true → truthy link = true →
       urlparse base = Ok b →
       urlparse_with link (scheme b) = Ok u →
       scheme u ≠ scheme b ∨ str_in_list (scheme u) uses_relative = false →
       is_internal_link base link = Ok (String.eqb (netloc u) (netloc b)))
  ∧ is_internal_link "http://nitj.ac.in/a" "https://nitj.ac.in/b" = Ok true
  ∧ is_internal_link "http://nitj.ac.in/a" "https://NITJ.ac.in/b" = Ok false
  ∧ is_internal_link "http://nitj.ac.in/a" "mailto:office@nitj.ac.in"
    = Ok false.
Proof.
  split; [apply is_internal_link_empty|].
  split; [apply is_internal_link_other_scheme|].
  repeat split; vm_compute; reflexivity.
Qed.

(** ** Sessions *)

Section SessionFacts.
Implicit Types (st : ContentFetcher).

Lemma store_ok_fields st st' :
  seen_links st' = seen_links st →
  non_college_urls st' = non_college_urls st →
  urls_not_fetched st' = urls_not_fetched st →
  error_urls st' = error_urls st →
  extracted_data st' = extracted_data st →
  downloadables st' = downloadables st →
  store_ok st → store_ok st'.
Proof.
  intros Hs Hn Hf He Hx Hd (Hscope & Hnames & Hseen & Hkeys & Hpdf).
  unfold store_ok, scope_sorted, names_unique, extracted_seen, keys_normalized.
  by rewrite Hs, Hn, Hf, He, Hx, Hd.
Qed.

Lemma store_ok_new driver_url : store_ok (init driver_url None).
Proof.
  split; [|split; [|split; [|split]]].
  - split; intros u Hu; simpl in Hu.
    + by apply elem_of_empty in Hu.
    + by apply elem_of_union in Hu as [Hu%elem_of_empty|Hu%elem_of_empty].
  - intros k l Hk. simpl in Hk. unfold empty_downloadables in Hk.
    assert (l = []) as ->; [|constructor].
    repeat (apply lookup_insert_Some in Hk as [[_ <-]|[_ Hk]]; [done|]).
    by apply lookup_singleton_Some in Hk as [_ <-].
  - intros k [x Hk]. simpl in Hk. by rewrite lookup_empty in Hk.
  - intros k [x Hk]. simpl in Hk. by rewrite lookup_empty in Hk.
  - by eexists.
Qed.

Lemma store_ok_loaded st driver_url :
  store_ok st → store_ok (init driver_url (Some (saved_data st))).
Proof. by apply store_ok_fields. Qed.

Lemma init_frontier driver_url file :
  frontier_ok (init driver_url file)
  ∧ frontier_keys_unique (init driver_url file)
  ∧ storage_file (init driver_url file) = file.
Proof.
  destruct file as [data|].
  - split; [|split; [|done]].
    + intros k u Hku. by apply elem_of_nil in Hku.
    + apply NoDup_nil_2.
  - split; [|split; [|done]].
    + intros k u Hku. by apply elem_of_nil in Hku.
    + apply NoDup_nil_2.
Qed.

Lemma process_url_store_ok W download_folder fuel url st :
  frontier_ok st → store_ok st →
  store_ok (process_url W download_folder fuel url st).2.
Proof.
  intros Hok (Hscope & Hnames & Hseen & Hkeys & Hpdf).
  pose proof (process_url_records W download_folder fuel url st) as Hrec.
  pose proof (process_url_grows W download_folder fuel url st Hok) as Hgrows.
  pose proof (process_url_step W download_folder fuel url st) as Hstep.
  cbv zeta in Hgrows.
  split; [|split; [|split; [|split]]].
  - destruct Hscope as [Hout Hin]. split.
    + intros u Hu. destruct (grows_non_college_new _ _ _ Hrec u Hu); auto.
    + intros u [Hu|Hu]%elem_of_union.
      * destruct (grows_not_fetched_new _ _ _ Hrec u Hu); [|done].
        apply Hin. by apply elem_of_union_l.
      * destruct (grows_error_new _ _ _ Hrec u Hu); [|done].
        apply Hin. by apply elem_of_union_r.
  - exact (grows_names _ _ _ Hrec Hnames).
  - intros k Hk.
    destruct (grows_extracted_new _ _ _ Hgrows k Hk) as [Hold|Hnew]; [|done].
    eapply lookup_weaken_is_Some; [by apply Hseen|apply Hstep].
  - by apply process_url_keys_normalized.
  - by eapply pdf_list_kept.
Qed.

(** The storage file is as before the call, or holds the state in which
    the call ends. *)
Lemma process_url_storage W download_folder fuel url st :
  let st' := (process_url W download_folder fuel url st).2 in
  storage_file st' = storage_file st
  ∨ storage_file st' = Some (saved_data st').
Proof.
  intros st'. subst st'.
  destruct (process_url W download_folder fuel url st) as [r st'] eqn:Hrun.
  cbn [snd].
  destruct r as [[]|e0];
    [|left; by eapply process_url_keeps_storage..].
  destruct (normalize_url url None) as [key|e] eqn:Hkey.
  - destruct ((seed_is_duplicate W url key st).1) as [[]|e] eqn:Hdup.
    + left. revert Hrun. unfold process_url.
      unfold mbind at 1, M_bind at 1, lift at 1. rewrite Hkey.
      unfold mbind at 1, M_bind at 1.
      assert (runs (keeps storage_file) (seed_is_duplicate W url key)) as Hk.
      { unfold seed_is_duplicate, fetch_and_hash_content.
        repeat runs_step; try keeps_leaf. }
      specialize (Hk st).
      destruct (seed_is_duplicate W url key st) as [r1 st1].
      cbn [fst snd] in Hdup, Hk. subst r1. by intros [= <-].
    + right. by destruct (process_url_completed W download_folder fuel url key
                            st st' Hkey Hdup Hrun) as (_ & ? & _).
    + exfalso. revert Hrun. unfold process_url.
      unfold mbind at 1, M_bind at 1, lift at 1. rewrite Hkey.
      unfold mbind at 1, M_bind at 1.
      destruct (seed_is_duplicate W url key st) as [r1 st1].
      cbn [fst] in Hdup. by subst r1.
  - exfalso. revert Hrun. unfold process_url.
    unfold mbind at 1, M_bind at 1, lift at 1. by rewrite Hkey.
Qed.

Lemma sessions_store_ok l file :
  (∀ driver_url, store_ok (init driver_url file)) →
  ∀ driver_url, store_ok (init driver_url (sessions l file)).
Proof.
  revert file. induction l as [|s l IH]; intros file Hfile; [done|].
  cbn [sessions fold_left]. apply IH. intros driver_url. unfold session.
  set (st := init (session_driver_url s) file).
  destruct (init_frontier (session_driver_url s) file) as (Hok & _ & Hstore).
  fold st in Hok, Hstore.
  destruct (process_url_storage (session_world s) (session_folder s)
              (session_fuel s) (session_url s) st) as [-> | ->].
  - rewrite Hstore. apply Hfile.
  - apply store_ok_loaded, process_url_store_ok; [done|apply Hfile].
Qed.

End SessionFacts.

(** X29.  Over any sequence of sessions that starts without a storage
    file, each a new [ContentFetcher] on the file the sessions before it
    left and one call of [process_url], whatever the site answers and
    however the calls end, the data of the next [ContentFetcher] is in
    order: the classification sets are sorted by scope, no list of the
    download registry holds a name twice, every record is filed under a
    key of the registry, every key of the registry is the key of a URL,
    and the list of PDF files is there; the frontier is empty. *)
Theorem sessions_keep_store_ok (l : list Session) (driver_url : string) :
  store_ok (init driver_url (sessions l None))
  ∧ relevant_links (init driver_url (sessions l None)) = []
  ∧ frontier_ok (init driver_url (sessions l None))
  ∧ frontier_keys_unique (init driver_url (sessions l None)).
Proof.
  split; [|split].
  - apply sessions_store_ok. apply store_ok_new.
  - by destruct (sessions l None).
  - destruct (init_frontier driver_url (sessions l None)) as (? & ? & _).
    by split.
Qed.

(** ** The probe before the page *)

Lemma probed_app t1 t2 : probed t1 → probed t2 → probed (t1 ++ t2).
Proof.
  induction 1 as [|ev t Hev _ IH|u t _ IH]; intros H2; simpl;
    [done|by constructor; auto|by constructor; auto].
Qed.

Lemma probed_inv t :
  probed t →
  ∀ t1 u t2, t = t1 ++ EvBrowse u :: t2 → ∃ t0, t1 = t0 ++ [EvHead u].
Proof.
  induction 1 as [|ev t Hev _ IH|u' t _ IH]; intros t1 u t2 Ht.
  - by destruct t1.
  - destruct t1 as [|ev' t1]; simplify_eq/=; [by destruct (Hev u)|].
    destruct (IH _ _ _ eq_refl) as [t0 ->]. by exists (ev' :: t0).
  - destruct t1 as [|ev1 [|ev2 t1]]; simplify_eq/=.
    + by exists [].
    + destruct (IH _ _ _ eq_refl) as [t0 ->].
      by exists (EvHead u' :: EvBrowse u' :: t0).
Qed.

Global Instance probes_first_preorder : PreOrder probes_first.
Proof.
  split.
  - intros st. exists []. split; [by rewrite app_nil_r|constructor].
  - intros st1 st2 st3 (t1 & Ht1 & H1) (t2 & Ht2 & H2).
    exists (t1 ++ t2). split; [by rewrite Ht2, Ht1, app_assoc|].
    by apply probed_app.
Qed.

Ltac probes_leaf :=
  first
    [ apply runs_modify; intros ?; exists []; split;
      [by rewrite app_nil_r|constructor]
    | apply runs_interact; intros ?; eexists [_]; split;
      [reflexivity|by repeat constructor] ].

Section ProbeFacts.
Context (W : World) (download_folder : string).
Implicit Types (st : ContentFetcher).
#[local] Arguments normalize_url : simpl never.
#[local] Arguments urljoin : simpl never.
#[local] Arguments get_name_from_url : simpl never.
#[local] Arguments is_college_url : simpl never.
#[local] Arguments is_pdf_url : simpl never.
#[local] Arguments is_google_drive_url : simpl never.
#[local] Arguments extract_google_drive_file_id : simpl never.
#[local] Arguments existsb : simpl never.
#[local] Arguments truthy : simpl never.
#[local] Arguments in_keys : simpl never.
#[local] Arguments in_values : simpl never.
#[local] Arguments registered : simpl never.
#[local] Arguments path_join : simpl never.

Lemma process_href_links_probes soup :
  runs probes_first (process_href_links W download_folder soup).
Proof.
  unfold process_href_links. repeat runs_step.
  destruct b as [dd c].
  unfold process_anchor, fetch_and_hash_content, handle_downloadable,
    download_file.
  repeat runs_step; try probes_leaf.
Qed.

(** The page is opened first; the links are processed after it. *)
Lemma fetch_content_probes url st :
  ∃ t, trace (fetch_content W download_folder url st).2
       = trace st ++ EvBrowse url :: t
       ∧ probed t.
Proof.
  unfold fetch_content.
  unfold mbind at 1, M_bind at 1, interact at 1.
  set (st1 := set_trace _ st).
  assert (trace st1 = trace st ++ [EvBrowse url]) as Ht1 by done.
  match goal with
  | |- context [(?m st1).2] =>
      assert (runs probes_first m) as Hrest
  end.
  { repeat runs_step; try probes_leaf. apply process_href_links_probes. }
  destruct (Hrest st1) as (t & Ht & Hp). exists t. split; [|done].
  cbn [fst snd] in *. by rewrite Ht, Ht1, <-app_assoc.
Qed.

Lemma process_entry_probes url :
  runs probes_first (process_entry W download_folder () url).
Proof.
  unfold process_entry. runs_step; [probes_leaf|].
  runs_step; [runs_step|]. runs_step; [|probes_leaf].
  runs_step.
  { unfold own_name_from_url, download_pdf, download_file.
    repeat runs_step; try probes_leaf. }
  runs_step.
  { unfold download_pdf, download_file. repeat runs_step; try probes_leaf. }
  intros st. unfold can_fetch_content, try_except. mrun.
  destruct (requests_head W (length (trace st)) url) as [status|e]; mrun.
  - destruct (status =? 200); mrun.
    + match goal with
      | |- context [fetch_content W download_folder url ?s] =>
          destruct (fetch_content_probes url s) as (t & Ht & Hp);
          destruct (fetch_content W download_folder url s) as [[c|e] st2]
      end; cbn [fst snd trace] in *; mrun;
        exists (EvHead url :: EvBrowse url :: t);
        (split; [by rewrite Ht, <-app_assoc|by constructor]).
    + exists [EvHead url]. split; [done|by repeat constructor].
  - destruct e; mrun;
      exists [EvHead url]; (split; [done|by repeat constructor]).
Qed.

Lemma process_url_probes fuel url :
  runs probes_first (process_url W download_folder fuel url).
Proof.
  assert (∀ fuel, runs probes_first (waves W download_folder fuel)) as Hwaves.
  { clear fuel. intros fuel.
    induction fuel as [|fuel IH]; simpl; repeat runs_step; try done.
    unfold wave. repeat runs_step; try probes_leaf.
    destruct b. apply process_entry_probes. }
  unfold process_url, seed_is_duplicate, fetch_and_hash_content, save_data,
    quit_driver.
  repeat runs_step; try probes_leaf. apply Hwaves.
Qed.

End ProbeFacts.

(** X30.  In a run the browser opens a page only right after the probe of
    that page: every opening of a URL is preceded, without anything in
    between, by the HEAD request to the same URL. *)
Theorem page_opened_right_after_probe (W : World) (download_folder : string)
    (fuel : nat) (url : string) (st : ContentFetcher) :
  ∃ t, trace (process_url W download_folder fuel url st).2 = trace st ++ t
       ∧ ∀ t1 u t2, t = t1 ++ EvBrowse u :: t2 →
                    ∃ t0, t1 = t0 ++ [EvHead u].
Proof.
  destruct (process_url_probes W download_folder fuel url st) as (t & Ht & Hp).
  exists t. split; [done|]. by apply probed_inv.
Qed.
